(** * STREAM risk engine: tender scoring, entity resolution, address clusters

    A shallow embedding of the scoring code of the STREAM repository
    ([ml_model.py], [risk_engine.py], [entity_resolution.py],
    [company_risk_scorer.py], [vendor_risk_scorer.py]) and the properties
    its specification states about it.

    Conventions.
    - Python and numpy floats are modelled by the exact rationals [Q]: a
      formula is read as the real number it denotes, and [round(x, 2)] is
      rounding to the nearest hundredth, ties to even.  A missing value
      (NaN, NULL) is [None].  The float that the program holds lies within
      a few units in the last place of the real number; a value that is
      rounded to two decimals is therefore described by bounds and by a
      tolerance of one hundredth around the real number, and a quotient
      that is compared with a threshold is described for whole numbers
      small enough for the float quotient to fall on the same side.
    - A Python [str] is the list of its code points ([N]).
    - A DataFrame column is a list, a row is a record. *)

From Stdlib Require Import String Ascii.
From Stdlib Require Import ZArith NArith QArith Qround Qminmax.
From Stdlib Require Import List Bool Lia Lqa Sorted Permutation.
Import ListNotations.

Local Open Scope Q_scope.

(* ================================================================== *)
(** * Part I: the embedding                                            *)
(* ================================================================== *)

(** ** Numbers *)

Module PyNum.

Definition Qltb (x y : Q) : bool := negb (Qle_bool y x).

(** [x % m == 0] on floats: the remainder of a float division is exact,
    so the test holds exactly when [x] is an integer multiple of [m]. *)
Definition mod_is_zero (x : Q) (m : Z) : bool :=
  (Qnum x mod (m * Zpos (Qden x)) =? 0)%Z.

(** Nearest integer, ties to even. *)
Definition round_half_even (x : Q) : Z :=
  let f := Qfloor x in
  let r := x - inject_Z f in
  if Qltb r (1 # 2) then f
  else if Qltb (1 # 2) r then (f + 1)%Z
  else if Z.even f then f else (f + 1)%Z.

(** [round(x, 2)] and [Series.round(2)]. *)
Definition round2 (x : Q) : Q := inject_Z (round_half_even (x * 100)) / 100.

(** [Series.clip(lo, hi)]: first raised to [lo], then lowered to [hi]. *)
Definition clip (lo hi x : Q) : Q := Qmin (Qmax x lo) hi.

Definition sumZ (l : list Z) : Z := fold_left Z.add l 0%Z.
Definition sumQ (l : list Q) : Q := fold_left Qplus l 0.

End PyNum.

(** ** Strings *)

Module PyStr.

Definition pystr := list N.

(** A literal of the source, as code points. *)
Definition lit (s : string) : pystr := map N_of_ascii (list_ascii_of_string s).

Definition eqb (a b : pystr) : bool :=
  if list_eq_dec N.eq_dec a b then true else false.

Definition mem (a : pystr) (l : list pystr) : bool := existsb (eqb a) l.

Definition in_range (lo hi c : N) : bool := ((lo <=? c) && (c <=? hi))%N.

(** [str.isspace] of one code point; the same class is [\s] of [re] on
    [str] patterns and what [str.strip()] and [str.split()] cut at. *)
Definition is_space (c : N) : bool :=
  in_range 9 13 c || in_range 28 32 c || (c =? 133)%N || (c =? 160)%N
  || (c =? 5760)%N || in_range 8192 8202 c || (c =? 8232)%N
  || (c =? 8233)%N || (c =? 8239)%N || (c =? 8287)%N || (c =? 12288)%N.

(** The class [[a-z0-9]]. *)
Definition is_lower_alnum (c : N) : bool := in_range 97 122 c || in_range 48 57 c.

(** [str.lower()] of one code point.  ASCII capitals move by 32; U+0130
    and U+212A are the two code points outside ASCII whose lowercase
    form contains an ASCII letter.  Every other code point is kept as it
    is: its lowercase form is one code point that is neither ASCII nor
    white space, exactly like itself, and nothing in this development
    distinguishes two such code points. *)
Definition lower_char (c : N) : list N :=
  if in_range 65 90 c then [(c + 32)%N]
  else if (c =? 304)%N then [105; 775]%N
  else if (c =? 8490)%N then [107%N]
  else [c].

Definition lower (s : pystr) : pystr := flat_map lower_char s.

Fixpoint lstrip (s : pystr) : pystr :=
  match s with
  | c :: t => if is_space c then lstrip t else s
  | [] => []
  end.

(** The trailing white space goes: a suffix that is white space only. *)
Fixpoint rstrip (s : pystr) : pystr :=
  match s with
  | c :: t => if forallb is_space s then [] else c :: rstrip t
  | [] => []
  end.

(** [str.strip()] *)
Definition strip (s : pystr) : pystr := rstrip (lstrip s).

(** [str.split()]: the maximal runs of characters that are not white
    space, in order. *)
Fixpoint split (s : pystr) : list pystr :=
  match s with
  | [] => []
  | c :: t =>
      if is_space c then split t
      else match t with
           | [] => [[c]]
           | d :: _ =>
               if is_space d then [c] :: split t
               else match split t with
                    | w :: r => (c :: w) :: r
                    | [] => [[c]]
                    end
           end
  end.

(** [sep.join(ws)] *)
Fixpoint join (sep : pystr) (ws : list pystr) : pystr :=
  match ws with
  | [] => []
  | [w] => w
  | w :: r => w ++ sep ++ join sep r
  end.

End PyStr.

(** ** ml_model.py: the batch pipeline *)

Module MlModel.
Import PyNum PyStr.

(** *** engineer_features: the amount column *)

Fixpoint insert_sorted (x : Q) (l : list Q) : list Q :=
  match l with
  | [] => [x]
  | y :: t => if Qle_bool x y then x :: l else y :: insert_sorted x t
  end.

Definition sort (l : list Q) : list Q := fold_right insert_sorted [] l.

Fixpoint drop_nan (col : list (option Q)) : list Q :=
  match col with
  | [] => []
  | Some x :: t => x :: drop_nan t
  | None :: t => drop_nan t
  end.

(** [Series.median()]: NaN is skipped; no value at all gives NaN. *)
Definition median (col : list (option Q)) : option Q :=
  let s := sort (drop_nan col) in
  let n := length s in
  match n with
  | O => None
  | _ => if Nat.even n
         then Some ((nth (n / 2 - 1) s 0 + nth (n / 2) s 0) / 2)
         else Some (nth (n / 2) s 0)
  end.

(** [.fillna(median_amount)] *)
Definition fillna (m : option Q) (x : option Q) : option Q :=
  match x with Some _ => x | None => m end.

(** [.replace(0, median_amount)] *)
Definition replace_zero (m : option Q) (x : option Q) : option Q :=
  match x with
  | Some v => if Qeq_bool v 0 then m else x
  | None => None
  end.

(** [df['amount']] after [engineer_features], from the column
    [pd.to_numeric(df['tender/value/amount'], errors='coerce')]. *)
Definition engineer_amount (raw : list (option Q)) : list (option Q) :=
  let median_amount := median raw in
  map (fun x => replace_zero median_amount (fillna median_amount x)) raw.

(** [.fillna(0)] of [num_tenderers] and [duration_days]. *)
Definition fillna0 (x : option Q) : Q := match x with Some v => v | None => 0 end.

(** *** compute_rule_flags: the flags that read one row *)

Definition astype_int (b : bool) : Z := if b then 1%Z else 0%Z.

Definition flag_single_bidder (num_tenderers : Q) : Z :=
  astype_int (Qeq_bool num_tenderers 1).

Definition flag_zero_bidders (num_tenderers : Q) : Z :=
  astype_int (Qeq_bool num_tenderers 0).

Definition flag_short_window (duration_days : Q) : Z :=
  astype_int (Qltb 0 duration_days && Qltb duration_days 7).

Definition open_methods : list pystr := [lit "Open Tender"].

(** [~df[...].isin(open_methods)]; a missing method is in no list. *)
Definition flag_non_open (procurementMethod : option pystr) : Z :=
  astype_int (negb (match procurementMethod with
                    | Some m => mem m open_methods
                    | None => false
                    end)).



(** *** compute_risk_score *)

Inductive flag :=
| single_bidder | zero_bidders | short_window | non_open
| high_value | buyer_concentration | round_amount | ml_anomaly.

Definition FLAG_WEIGHTS : list (flag * Z) :=
  [ (single_bidder, 25); (zero_bidders, 20); (short_window, 15);
    (non_open, 10); (high_value, 10); (buyer_concentration, 10);
    (round_amount, 5); (ml_anomaly, 15) ]%Z.

(** The columns of a row that [compute_risk_score] reads. *)
Record row := mkRow {
  flags : flag -> Z;
  anomaly_score : Q
}.

Inductive tier := Low | Medium | High.

Definition rule_score (r : row) : Z :=
  sumZ (map (fun fw => (flags r (fst fw) * snd fw)%Z) FLAG_WEIGHTS).

Definition max_rule : Z := sumZ (map snd FLAG_WEIGHTS).

Definition risk_score (r : row) : Q :=
  round2 (clip 0 100
    ((inject_Z (rule_score r) / inject_Z max_rule) * 85 + anomaly_score r * 15)).

(** [pd.cut(x, bins=[0, 30, 60, 100], include_lowest=True)]: intervals
    closed on the right, the first one also closed on the left; a value
    in no interval has no label. *)
Definition cut (x : Q) : option tier :=
  if Qle_bool 0 x && Qle_bool x 30 then Some Low
  else if Qltb 30 x && Qle_bool x 60 then Some Medium
  else if Qltb 60 x && Qle_bool x 100 then Some High
  else None.

Definition risk_tier (r : row) : option tier := cut (risk_score r).

Definition compute_risk_score (r : row) : Q * option tier :=
  (risk_score r, risk_tier r).

End MlModel.

(** ** risk_engine.py: one submitted tender *)

Module RiskEngine.
Import PyNum PyStr.

Inductive flag :=
| single_bidder | zero_bidders | short_window | non_open
| high_value | buyer_concentration | round_amount.

Definition FLAG_WEIGHTS : list (flag * Z) :=
  [ (single_bidder, 25); (zero_bidders, 20); (short_window, 15);
    (non_open, 10); (high_value, 10); (buyer_concentration, 10);
    (round_amount, 5) ]%Z.

Inductive tier := Low | Medium | High.

(** A row of the table [procurement_tender], as the two queries read it. *)
Record tender_row := mkTender {
  t_category : pystr;
  t_buyer_name : pystr;
  t_amount : option Q
}.

Definition b2z (b : bool) : Z := if b then 1%Z else 0%Z.

Fixpoint non_null (l : list (option Q)) : list Q :=
  match l with
  | [] => []
  | Some x :: t => x :: non_null t
  | None :: t => non_null t
  end.

Section WithDatabase.

(** The value of [percentile_cont(0.95) WITHIN GROUP (ORDER BY amount)]
    on a group with at least one amount is the database's. *)
Variable percentile_cont_95 : list Q -> Q.

Variable procurement_tender : list tender_row.

Definition in_category (category : pystr) : list tender_row :=
  filter (fun t => eqb (t_category t) category) procurement_tender.

(** The first query: one row, whose field [p95] is NULL when the
    category has no amount. *)
Definition fetch_p95 (category : pystr) : option (option Q) :=
  match non_null (map t_amount (in_category category)) with
  | [] => Some None
  | xs => Some (Some (percentile_cont_95 xs))
  end.

(** The second query: [COALESCE(count(buyer) / NULLIF(count, 0), 0)]. *)
Definition fetch_share (buyer_name category : pystr) : option Q :=
  let rows := in_category category in
  let n := length rows in
  let k := length (filter (fun t => eqb (t_buyer_name t) buyer_name) rows) in
  match n with
  | O => Some 0
  | _ => Some (inject_Z (Z.of_nat k) / inject_Z (Z.of_nat n))
  end.

(** [float(p95["p95"]) if p95 and p95["p95"] else 1e12]: no row, a
    NULL and a zero are all falsy. *)
Definition p95_val (p95 : option (option Q)) : Q :=
  match p95 with
  | Some (Some v) => if Qeq_bool v 0 then 1000000000000 else v
  | _ => 1000000000000
  end.

Definition compute_flags
    (amount num_tenderers duration_days : Q)
    (procurement_method category buyer_name : pystr) : flag -> Z :=
  fun f =>
    match f with
    | single_bidder => b2z (Qeq_bool num_tenderers 1)
    | zero_bidders => b2z (Qeq_bool num_tenderers 0)
    | short_window => b2z (Qltb duration_days 7)
    | non_open =>
        b2z (negb (mem (lower procurement_method) [lit "open tender"; lit "open"]))
    | round_amount => b2z (mod_is_zero amount 100000)
    | high_value => b2z (Qltb (p95_val (fetch_p95 category)) amount)
    | buyer_concentration =>
        b2z (match fetch_share buyer_name category with
             | Some share => Qltb (7 # 10) share
             | None => false
             end)
    end.

Definition max_weight : Z := sumZ (map snd FLAG_WEIGHTS).

Definition weighted_sum (flags : flag -> Z) : Z :=
  sumZ (map (fun kw => (flags (fst kw) * snd kw)%Z) FLAG_WEIGHTS).

Definition score_of (flags : flag -> Z) : Q :=
  round2 ((inject_Z (weighted_sum flags) / inject_Z max_weight) * 85).

Definition tier_of (risk_score : Q) : tier :=
  if Qle_bool 60 risk_score then High
  else if Qle_bool 30 risk_score then Medium
  else Low.

(** [compute_rule_flags]: the flags, the score and the tier (the
    fourth component, the explanation text, is left out). *)
Definition compute_rule_flags
    (amount num_tenderers duration_days : Q)
    (procurement_method category buyer_name : pystr)
    : (flag -> Z) * Q * tier :=
  let flags := compute_flags amount num_tenderers duration_days
                             procurement_method category buyer_name in
  let risk_score := score_of flags in
  (flags, risk_score, tier_of risk_score).

End WithDatabase.

End RiskEngine.


(** ** entity_resolution.py *)

Module EntityResolution.
Import PyNum PyStr.

(** What a name column can hold: a string, or something that is not one
    (a NaN of an empty cell, [None], a number). *)
Inductive pyval :=
| PyString (s : pystr)
| PyNone
| PyNumber (x : option Q).

Definition MATCH_THRESHOLD : Q := 55 # 100.

(** The words of [STRIP_SUFFIXES]; each pattern there is [\b] word [\b]. *)
Definition STRIP_SUFFIXES : list pystr :=
  map lit [ "private"; "limited"; "pvt"; "ltd"; "llp"; "opc"; "inc"; "corp";
            "company"; "enterprises"; "group"; "foundation"; "trust" ]%string.

(** [re.sub(r"[^a-z0-9\s]", " ", name)] *)
Definition sub_non_alnum (s : pystr) : pystr :=
  map (fun c => if is_lower_alnum c || is_space c then c else 32%N) s.

(** [\w] on the strings the suffix patterns are run on: after
    [sub_non_alnum] a string holds only [[a-z0-9]] and white space, so the
    ASCII part of the class is all that is ever consulted. *)
Definition is_word (c : N) : bool :=
  in_range 97 122 c || in_range 65 90 c || in_range 48 57 c || (c =? 95)%N.

Definition is_word_opt (c : option N) : bool :=
  match c with Some c => is_word c | None => false end.

(** [\b] between two neighbours; the ends of the string count as
    characters that are not word characters. *)
Definition boundary (prev next : option N) : bool :=
  xorb (is_word_opt prev) (is_word_opt next).

(** The rest of [s] after the prefix [w], when [s] starts with [w]. *)
Fixpoint strip_prefix (w s : pystr) : option pystr :=
  match w, s with
  | [], _ => Some s
  | a :: w', b :: s' => if (a =? b)%N then strip_prefix w' s' else None
  | _ :: _, [] => None
  end.

(** Does [\b w \b] match at the start of [s], [prev] being the character
    before it? *)
Definition match_here (w : pystr) (prev : option N) (s : pystr) : bool :=
  boundary prev (hd_error s)
  && match strip_prefix w s with
     | Some rest => boundary (Some (last w 0%N)) (hd_error rest)
     | None => false
     end.

(** [re.sub(r"\b" + w + r"\b", "", s)] for a word [w] that is not empty:
    left to right, a match is dropped and the scan goes on behind it.
    [skip] counts the characters of the current match still to drop. *)
Fixpoint sub_word_from (w : pystr) (prev : option N) (skip : nat) (s : pystr)
  : pystr :=
  match s with
  | [] => []
  | c :: t =>
      match skip with
      | S k => sub_word_from w (Some c) k t
      | O => if match_here w prev s
             then sub_word_from w (Some c) (length w - 1) t
             else c :: sub_word_from w (Some c) 0 t
      end
  end.

Definition sub_word (w s : pystr) : pystr := sub_word_from w None 0 s.

(** [re.sub(r"\s+", " ", s)]; [in_run] says that the previous character
    was white space. *)
Fixpoint collapse_from (in_run : bool) (s : pystr) : pystr :=
  match s with
  | [] => []
  | c :: t =>
      if is_space c
      then if in_run then collapse_from true t else 32%N :: collapse_from true t
      else c :: collapse_from false t
  end.

Definition collapse_spaces (s : pystr) : pystr := collapse_from false s.

Definition normalise_str (s : pystr) : pystr :=
  let name := strip (lower s) in
  let name := sub_non_alnum name in
  let name := fold_left (fun name w => sub_word w name) STRIP_SUFFIXES name in
  strip (collapse_spaces name).

Definition normalise_name (name : pyval) : pystr :=
  match name with
  | PyString s => normalise_str s
  | _ => []
  end.

(** A [set] of strings is a list without repetition; the order in which
    Python walks a set is not fixed by the language, this is one order. *)
Definition to_set (l : list pystr) : list pystr := nodup (list_eq_dec N.eq_dec) l.

Definition tokenise (name : pystr) : list pystr :=
  to_set (filter (fun t => (1 <? length t)%nat) (split name)).

Definition jaccard_similarity (set_a set_b : list pystr) : Q :=
  match set_a, set_b with
  | [], _ | _, [] => 0
  | _, _ =>
      let intersection := filter (fun t => mem t set_b) set_a in
      let union := set_a ++ filter (fun t => negb (mem t set_a)) set_b in
      inject_Z (Z.of_nat (length intersection)) / inject_Z (Z.of_nat (length union))
  end.

Record entry := mkEntry {
  e_id : pystr;
  e_raw : pyval;
  e_norm : pystr;
  e_tokens : list pystr
}.

(** The [defaultdict(list)] from token to entries, keys in insertion order. *)
Definition index := list (pystr * list entry).

Fixpoint index_get (ix : index) (token : pystr) : list entry :=
  match ix with
  | [] => []
  | (k, es) :: r => if eqb k token then es else index_get r token
  end.

(** [index[token].append(e)] *)
Fixpoint index_append (ix : index) (token : pystr) (e : entry) : index :=
  match ix with
  | [] => [(token, [e])]
  | (k, es) :: r =>
      if eqb k token then (k, es ++ [e]) :: r
      else (k, es) :: index_append r token e
  end.

Definition build_inverted_index (names_with_ids : list (pystr * pyval))
  : index * list entry :=
  fold_left
    (fun st p =>
       let norm := normalise_name (snd p) in
       let tokens := tokenise norm in
       let e := mkEntry (fst p) (snd p) norm tokens in
       (fold_left (fun ix token => index_append ix token e) tokens (fst st),
        snd st ++ [e]))
    names_with_ids ([], []).

Definition candidate := (pystr * pyval * Q)%type.

(** The loop [for entry in entries: if entry[2] == norm_query: return ...]. *)
Fixpoint exact_match (entries : list entry) (norm_query : pystr) : option candidate :=
  match entries with
  | [] => None
  | e :: r =>
      if eqb (e_norm e) norm_query then Some (e_id e, e_raw e, 1)
      else exact_match r norm_query
  end.

(** [candidate_map] and [candidate_scores] together, in insertion order,
    and the number of calls of [jaccard_similarity] made so far. *)
Definition scored := (list (pystr * entry * Q) * nat)%type.

Definition seen (eid : pystr) (cs : list (pystr * entry * Q)) : bool :=
  existsb (fun c => eqb (fst (fst c)) eid) cs.

Definition score_entry (query_tokens : list pystr) (st : scored) (e : entry) : scored :=
  if seen (e_id e) (fst st) then st
  else (fst st ++ [(e_id e, e, jaccard_similarity query_tokens (e_tokens e))],
        S (snd st)).

Definition gather (ix : index) (query_tokens : list pystr) : scored :=
  fold_left
    (fun st token => fold_left (score_entry query_tokens) (index_get ix token) st)
    query_tokens ([], O).

(** [results.sort(key=lambda x: x[2], reverse=True)]: stable, so equal
    scores keep their order. *)
Fixpoint insert_desc (x : candidate) (l : list candidate) : list candidate :=
  match l with
  | [] => [x]
  | y :: t => if Qltb (snd x) (snd y) then y :: insert_desc x t else x :: l
  end.

Definition sort_desc (l : list candidate) : list candidate :=
  fold_right insert_desc [] l.

(** [results[:top_k]], a negative [top_k] counting from the end. *)
Definition slice_to (top_k : Z) (l : list candidate) : list candidate :=
  if (0 <=? top_k)%Z then firstn (Z.to_nat top_k) l
  else firstn (Z.to_nat (Z.of_nat (length l) + top_k)) l.

(** [find_matches], with the number of Jaccard scores it computed. *)
Definition find_matches_counted
    (query_name : pyval) (ix : index) (entries : list entry)
    (threshold : Q) (top_k : Z) : list candidate * nat :=
  let norm_query := normalise_name query_name in
  let query_tokens := tokenise norm_query in
  match query_tokens with
  | [] => ([], O)
  | _ =>
      match exact_match entries norm_query with
      | Some c => ([c], O)
      | None =>
          let st := gather ix query_tokens in
          let results :=
            map (fun c => (fst (fst c), e_raw (snd (fst c)), snd c))
                (filter (fun c => Qle_bool threshold (snd c)) (fst st)) in
          (slice_to top_k (sort_desc results), snd st)
      end
  end.

Definition find_matches
    (query_name : pyval) (ix : index) (entries : list entry)
    (threshold : Q) (top_k : Z) : list candidate :=
  fst (find_matches_counted query_name ix entries threshold top_k).

End EntityResolution.


(** ** company_risk_scorer.py: address clusters and the address graph *)

Module CompanyRiskScorer.
Import PyNum PyStr.

(** A row of the company table: [CIN] and [Registered_Office_Address]. *)
Record company (address : Type) := mkCompany {
  CIN : pystr;
  Registered_Office_Address : address
}.
Arguments mkCompany {address}.
Arguments CIN {address}.
Arguments Registered_Office_Address {address}.

(** [nx.Graph()] as far as the scorer builds it: the nodes and the
    [add_edge] calls, every edge carrying [rel="same_address"]. *)
Record graph := mkGraph {
  nodes : list pystr;
  edges : list (pystr * pystr)
}.

(** The pairs [(l[i], l[j])], [i < j], of the two nested [range] loops. *)
Fixpoint pairs (l : list pystr) : list (pystr * pystr) :=
  match l with
  | [] => []
  | a :: t => map (pair a) t ++ pairs t
  end.

(** An undirected graph has the edge whichever way round it was added. *)
Definition has_edge (g : graph) (a b : pystr) : Prop :=
  In (a, b) (edges g) \/ In (b, a) (edges g).

Section WithAddressKey.

(** [normalise_address] reads an address cell (a string or a missing
    value) and returns its key.  Its regular expressions range over all of
    Unicode; the clustering below only compares the keys it returns. *)
Variable address : Type.
Variable normalise_address : address -> pystr.

Variable df : list (company address).

Definition addr_key (c : company address) : pystr :=
  normalise_address (Registered_Office_Address c).

(** The CINs of the rows of [df] under one key, in row order: the cluster
    of that key. *)
Definition members (key : pystr) : list pystr :=
  map CIN (filter (fun c => eqb (addr_key c) key) df).

(** [df["addr_key"].value_counts()], read at one key. *)
Definition addr_counts (key : pystr) : nat :=
  length (filter (fun c => eqb (addr_key c) key) df).

Definition address_cluster_size (c : company address) : nat :=
  addr_counts (addr_key c).

Definition address_cluster_flag (c : company address) : Z :=
  if (3 <=? address_cluster_size c)%nat then 1%Z else 0%Z.

(** [df[df["address_cluster_size"] >= 2].groupby("addr_key")["CIN"].apply(list)]:
    one list of CINs per key, in row order inside the list.  (pandas walks
    the keys in sorted order; the graph does not record the order in which
    its edges arrive.) *)
Definition clustered : list (company address) :=
  filter (fun c => (2 <=? address_cluster_size c)%nat) df.

Definition cluster_keys : list pystr :=
  nodup (list_eq_dec N.eq_dec) (map addr_key clustered).

Definition cluster_cins (key : pystr) : list pystr :=
  map CIN (filter (fun c => eqb (addr_key c) key) clustered).

Definition clusters : list (pystr * list pystr) :=
  map (fun key => (key, cluster_cins key)) cluster_keys.

(** The edges one cluster adds. *)
Definition cluster_edges (cins : list pystr) : list (pystr * pystr) :=
  if ((1 <? length cins) && (length cins <=? 50))%nat then pairs cins else [].

Definition address_graph : graph :=
  mkGraph (map CIN df) (flat_map (fun kc => cluster_edges (snd kc)) clusters).

End WithAddressKey.

End CompanyRiskScorer.

(** ** vendor_risk_scorer.py: the political score *)

Module VendorRiskScorer.
Import PyNum PyStr.

(** A row of the bond-flow table. *)
Record flow := mkFlow {
  purchaser_name : pystr;
  party_name : pystr;
  total_value : Q
}.

(** A row of [purchaser_stats]. *)
Record stats := mkStats {
  s_purchaser : pystr;
  parties_funded : nat;
  total_bond_value : Q
}.

Definition names_eq_dec := list_eq_dec N.eq_dec.

Section WithFlows.

Variable bond_flows_df : list flow.

Definition flows_of (name : pystr) : list flow :=
  filter (fun f => eqb (purchaser_name f) name) bond_flows_df.

(** [groupby("purchaser_name").agg(parties_funded=nunique, total_bond_value=sum)] *)
Definition purchaser_stats : list stats :=
  map (fun name =>
         mkStats name
                 (length (nodup names_eq_dec (map party_name (flows_of name))))
                 (sumQ (map total_value (flows_of name))))
      (nodup names_eq_dec (map purchaser_name bond_flows_df)).

(** [Series.max()] of a column that is not empty. *)
Definition maxQ (l : list Q) : Q :=
  match l with
  | [] => 0
  | x :: t => fold_left Qmax t x
  end.

Definition max_value : Q := maxQ (map total_bond_value purchaser_stats).

Definition max_parties : nat := fold_left Nat.max (map parties_funded purchaser_stats) O.

(** [total_bond_value / (max_value + 1) * 60].  When [max_value + 1] is
    zero every total is negative (none exceeds the maximum, which is -1),
    so every quotient is the negative infinity: [None]. *)
Definition value_score (s : stats) : option Q :=
  if Qeq_bool (max_value + 1) 0 then None
  else Some (total_bond_value s / (max_value + 1) * 60).

Definition diversity_score (s : stats) : Q :=
  inject_Z (Z.of_nat (parties_funded s)) / (inject_Z (Z.of_nat max_parties) + 1) * 40.

(** [(value_score + diversity_score).clip(0, 100).round(2)]; the negative
    infinity stays infinite in the sum and is clipped to 0. *)
Definition political_score (s : stats) : Q :=
  match value_score s with
  | Some v => round2 (clip 0 100 (v + diversity_score s))
  | None => 0
  end.

(** The score column of [compute_political_scores], keyed by purchaser;
    an empty flow table gives an empty frame. *)
Definition compute_political_scores : list (pystr * Q) :=
  match bond_flows_df with
  | [] => []
  | _ => map (fun s => (s_purchaser s, political_score s)) purchaser_stats
  end.

(** The score of one purchaser, when it has a row. *)
Definition political_score_of (name : pystr) : option Q :=
  option_map snd
    (find (fun p => eqb (fst p) name) compute_political_scores).

End WithFlows.

End VendorRiskScorer.


(** ** The blended score as the specification words it *)

Module Spec.
Import PyNum.

(** The seven rule flags and their weights, in the order of the
    specification's table. *)
Definition weights : list (RiskEngine.flag * Z) :=
  [ (RiskEngine.single_bidder, 25); (RiskEngine.zero_bidders, 20);
    (RiskEngine.short_window, 15); (RiskEngine.non_open, 10);
    (RiskEngine.high_value, 10); (RiskEngine.buyer_concentration, 10);
    (RiskEngine.round_amount, 5) ]%Z.

(** [clip((weighted_sum / 95) * 85 + anomalyProbability * 15, 0, 100)],
    rounded to two decimals. *)
Definition blend (flags : RiskEngine.flag -> Z) (anomalyProbability : Q) : Q :=
  let weighted_sum := sumZ (map (fun kw => (flags (fst kw) * snd kw)%Z) weights) in
  round2 (clip 0 100 ((inject_Z weighted_sum / 95) * 85 + anomalyProbability * 15)).

(** The batch column of a rule flag. *)
Definition batch_flag (k : RiskEngine.flag) : MlModel.flag :=
  match k with
  | RiskEngine.single_bidder => MlModel.single_bidder
  | RiskEngine.zero_bidders => MlModel.zero_bidders
  | RiskEngine.short_window => MlModel.short_window
  | RiskEngine.non_open => MlModel.non_open
  | RiskEngine.high_value => MlModel.high_value
  | RiskEngine.buyer_concentration => MlModel.buyer_concentration
  | RiskEngine.round_amount => MlModel.round_amount
  end.

End Spec.

(** ** Shapes of strings, to state the properties of normalisation *)

Module Shape.
Import PyStr.

(** What a character of a normalised string can be. *)
Definition plain (c : N) : Prop := is_lower_alnum c = true \/ c = 32%N.

(** What a character can be after [sub_non_alnum]. *)
Definition kept (c : N) : Prop := is_lower_alnum c = true \/ is_space c = true.

(** A string without white space. *)
Definition no_space (w : pystr) : Prop := Forall (fun c => is_space c = false) w.

(** A string that is empty or starts with white space: what can follow
    a word. *)
Definition starts_blank (r : pystr) : Prop :=
  match r with
  | [] => True
  | c :: _ => is_space c = true
  end.

(** The longest prefix without white space, and what follows it. *)
Fixpoint word_prefix (s : pystr) : pystr :=
  match s with
  | c :: t => if is_space c then [] else c :: word_prefix t
  | [] => []
  end.

Fixpoint word_rest (s : pystr) : pystr :=
  match s with
  | c :: t => if is_space c then s else word_rest t
  | [] => []
  end.

(** A word of a normalised name: letters and digits, at least one. *)
Definition word (w : pystr) : Prop :=
  w <> [] /\ Forall (fun c => is_lower_alnum c = true) w.

(** Is the token kept by the suffix patterns? *)
Definition not_suffix (t : pystr) : bool :=
  negb (mem t EntityResolution.STRIP_SUFFIXES).

End Shape.

(** ** Sample records *)

Module Samples.
Import PyNum PyStr.

(** The batch row with the seven rule flags set, the ML flag clear and an
    anomaly score of zero. *)
Definition seven_flags_row : MlModel.row :=
  MlModel.mkRow (fun f => match f with MlModel.ml_anomaly => 0 | _ => 1 end)%Z 0.

(** A batch row with one bidder and a method that is not open, which the
    isolation forest scored 0.197 without flagging it. *)
Definition row_scoring_30 : MlModel.row :=
  MlModel.mkRow
    (fun f => match f with
              | MlModel.single_bidder | MlModel.non_open => 1
              | _ => 0
              end)%Z
    (197 # 1000).

(** A batch row with one bidder, a short window and a method that is not
    open, flagged by the isolation forest with anomaly score 0.6515. *)
Definition row_scoring_60 : MlModel.row :=
  MlModel.mkRow
    (fun f => match f with
              | MlModel.single_bidder | MlModel.short_window
              | MlModel.non_open | MlModel.ml_anomaly => 1
              | _ => 0
              end)%Z
    (6515 # 10000).

(** A raw amount column of three tenders, the first with amount 0. *)
Definition amounts_with_zero : list (option Q) :=
  [Some 0; Some (150000 # 1); Some (250000 # 1)].

(** Two trillion, an amount above the sentinel of the high-value flag. *)
Definition two_trillion : Q := 2000000000000.

(** A database whose percentile aggregate is never consulted. *)
Definition no_percentile : list Q -> Q := fun _ => 0.

(** Three companies under one address key and a fourth elsewhere. *)
Definition three_at_one_address : list (CompanyRiskScorer.company pystr) :=
  [ CompanyRiskScorer.mkCompany (lit "U001") (lit "600001|chennai");
    CompanyRiskScorer.mkCompany (lit "U002") (lit "600001|chennai");
    CompanyRiskScorer.mkCompany (lit "U900") (lit "110001|delhi");
    CompanyRiskScorer.mkCompany (lit "U003") (lit "600001|chennai") ].

(** A bond-flow table with a single donation. *)
Definition one_flow : list VendorRiskScorer.flow :=
  [ VendorRiskScorer.mkFlow (lit "ACME") (lit "Party A") (1000 # 1) ].

(** The index of a registry with one company, named "A". *)
Definition single_letter_index : EntityResolution.index * list EntityResolution.entry :=
  EntityResolution.build_inverted_index
    [ (lit "C1", EntityResolution.PyString (lit "A")) ].

(** The index of a registry with two companies whose names normalise to
    the same string. *)
Definition xyz_index : EntityResolution.index * list EntityResolution.entry :=
  EntityResolution.build_inverted_index
    [ (lit "C1", EntityResolution.PyString (lit "XYZ Pvt. Ltd."));
      (lit "C2", EntityResolution.PyString (lit "XYZ Private Limited")) ].

(** A batch row with one bidder, a short window, a method that is not
    open and a round amount, not flagged by the isolation forest, with
    anomaly score 0.2. *)
Definition four_flags_row : MlModel.row :=
  MlModel.mkRow
    (fun f => match f with
              | MlModel.single_bidder | MlModel.short_window
              | MlModel.non_open | MlModel.round_amount => 1
              | _ => 0
              end)%Z
    (2 # 10).

End Samples.

(** ** ml_model.py: the two rule flags that read the whole table *)

Module MlModelTable.
Import PyNum PyStr.

(** The columns of a tender that the two flags read: ['buyer/name'],
    ['tenderclassification/description'] and the engineered ['amount'];
    a missing cell is [None]. *)
Record tender := mkTender {
  buyer_name : option pystr;
  classification : option pystr;
  amount : option Q
}.

(** [Series.quantile(q)], linear interpolation between the two closest
    ranks of the sorted values; NaN on a series without values. *)
Definition quantile (q : Q) (xs : list Q) : option Q :=
  let s := MlModel.sort xs in
  match length s with
  | O => None
  | S m =>
      let h := inject_Z (Z.of_nat m) * q in
      let lo := Z.to_nat (Qfloor h) in
      let hi := Nat.min (S lo) m in
      Some (nth lo s 0 + (h - inject_Z (Qfloor h)) * (nth hi s 0 - nth lo s 0))
  end.

Definition same_category (c : pystr) (t : tender) : bool :=
  match classification t with
  | Some c' => eqb c' c
  | None => false
  end.

Definition same_buyer (b : pystr) (t : tender) : bool :=
  match buyer_name t with
  | Some b' => eqb b' b
  | None => false
  end.

Section WithTable.

Variable df : list tender.

(** The amounts of one category, as [groupby(...)['amount']] hands them
    to the lambda. *)
Definition group_amounts (c : pystr) : list Q :=
  MlModel.drop_nan (map amount (filter (same_category c) df)).

(** [groupby(category)['amount'].transform(lambda x: x.quantile(0.95))];
    a row without category belongs to no group and gets NaN. *)
Definition p95 (t : tender) : option Q :=
  match classification t with
  | Some c => quantile (95 # 100) (group_amounts c)
  | None => None
  end.

(** [(df['amount'] > p95).astype(int)]; a comparison with NaN is false. *)
Definition flag_high_value (t : tender) : Z :=
  MlModel.astype_int
    (match amount t, p95 t with
     | Some a, Some p => Qltb p a
     | _, _ => false
     end).

(** [groupby(['buyer/name', category]).size()] *)
Definition count (b c : pystr) : nat :=
  length (filter (fun t => same_category c t && same_buyer b t) df).

(** [groupby(category).size()] *)
Definition total (c : pystr) : nat := length (filter (same_category c) df).

Definition concentration (b c : pystr) : Q :=
  inject_Z (Z.of_nat (count b c)) / inject_Z (Z.of_nat (total c)).

(** The left merge with [high_conc]: 1 on the rows whose buyer and
    category pair has a concentration above 0.7, 0 on the others and on
    the rows with a missing key. *)
Definition flag_buyer_concentration (t : tender) : Z :=
  MlModel.astype_int
    (match buyer_name t, classification t with
     | Some b, Some c => Qltb (7 # 10) (concentration b c)
     | _, _ => false
     end).

End WithTable.

End MlModelTable.

(** ** company_risk_scorer.py: the shell-risk score *)

Module ShellRisk.
Import PyNum PyStr.

Inductive column :=
| address_cluster_flag | low_capital_flag | young_company_flag | inactive_flag
| high_auth_paid_ratio | opc_flag | degree_centrality_score.

Definition WEIGHTS : list (column * Z) :=
  [ (address_cluster_flag, 20); (low_capital_flag, 15); (young_company_flag, 10);
    (inactive_flag, 20); (high_auth_paid_ratio, 15); (opc_flag, 10);
    (degree_centrality_score, 10) ]%Z.

(** [sum(df[flag].clip(0, 1) * weight ...)], then [.clip(0, 100).round(2)]. *)
Definition shell_risk_score (row : column -> Q) : Q :=
  round2 (clip 0 100
    (sumQ (map (fun fw => clip 0 1 (row (fst fw)) * inject_Z (snd fw)) WEIGHTS))).

(** [df["shell_risk_score"] >= 20] *)
Definition requires_human_review (row : column -> Q) : bool :=
  Qle_bool 20 (shell_risk_score row).

(** [df["age_days"] < 730] *)
Definition young_company (age_days : Z) : Z := if (age_days <? 730)%Z then 1%Z else 0%Z.

(** [AuthorizedCapital / (PaidupCapital + 1) >= 5]; a division of floats
    by zero gives an infinity of the sign of the numerator, or NaN for
    0 / 0, and only the positive infinity is at least 5.  The quotient is
    the real one: the float quotient is on the same side of 5 when the two
    capitals are whole numbers, the paid-up capital below 2^50 and the
    authorized capital below 2^53 in magnitude. *)
Definition high_auth_paid (AuthorizedCapital PaidupCapital : Q) : Z :=
  if Qeq_bool (PaidupCapital + 1) 0
  then (if Qltb 0 AuthorizedCapital then 1%Z else 0%Z)
  else if Qle_bool 5 (AuthorizedCapital / (PaidupCapital + 1)) then 1%Z else 0%Z.

End ShellRisk.

(** ** vendor_risk_scorer.py: financial score and composite profile *)

Module VendorProfile.
Import PyNum PyStr.

(** [compute_financial_scores] on one company: the percentile rank may be
    missing, the three flags are read as numbers. *)
Definition financials_score
    (capital_percentile_rank : option Q)
    (high_auth_paid_ratio inactive_flag young_company_flag : Q) : Q :=
  let capital_pct :=
    match capital_percentile_rank with Some p => p | None => 1 # 2 end in
  let capital_risk := clip 0 30 ((1 - capital_pct) * 30) in
  let ratio_risk := clip 0 25 (high_auth_paid_ratio * 25) in
  let status_risk := clip 0 25 (inactive_flag * 25) in
  let age_risk := clip 0 20 (young_company_flag * 20) in
  round2 (clip 0 100 (capital_risk + ratio_risk + status_risk + age_risk)).

Inductive dimension := bid_pattern | shell_risk | political | financials.

Definition DIMENSION_WEIGHTS (d : dimension) : Q :=
  match d with
  | bid_pattern => 30
  | shell_risk => 25
  | political => 25
  | financials => 20
  end.

Inductive tier := LOW | MEDIUM | HIGH.

(** [round(min(composite, 100), 2)] of the weighted sum. *)
Definition composite (bid_score shell_score political_score fin_score : Q) : Q :=
  round2 (Qmin
    (bid_score * DIMENSION_WEIGHTS bid_pattern / 100
     + shell_score * DIMENSION_WEIGHTS shell_risk / 100
     + political_score * DIMENSION_WEIGHTS political / 100
     + fin_score * DIMENSION_WEIGHTS financials / 100)
    100).

Definition tier_of (x : Q) : tier :=
  if Qle_bool 60 x then HIGH
  else if Qle_bool 30 x then MEDIUM
  else LOW.

(** The fields of a profile that are computed from the scores. *)
Record scored_profile := mkProfile {
  composite_risk_score : Q;
  risk_tier : tier;
  requires_human_review : bool
}.

(** The profile of a company of the registry. *)
Definition company_profile (bid_score shell_score political_score fin_score : Q)
  : scored_profile :=
  let c := composite bid_score shell_score political_score fin_score in
  mkProfile c (tier_of c) (Qle_bool 25 c).

(** The profile of a procurement buyer without CIN: the composite is the
    weighted bid score, the tier and the review flag read the bid score
    itself. *)
Definition buyer_profile (bid_score : Q) : scored_profile :=
  mkProfile (round2 (bid_score * DIMENSION_WEIGHTS bid_pattern / 100))
            (tier_of bid_score)
            (Qle_bool 25 bid_score).

End VendorProfile.

(** ** ml_model.py: the anomaly score, and rows whose score is NaN *)

Module MlAnomaly.
Import PyNum.

(** [ndarray.min()] and [ndarray.max()] of an array that is not empty. *)
Definition array_min (l : list Q) : Q :=
  match l with
  | [] => 0
  | x :: t => fold_left Qmin t x
  end.

Definition array_max (l : list Q) : Q :=
  match l with
  | [] => 0
  | x :: t => fold_left Qmax t x
  end.

(** [1 - (raw_scores - raw_scores.min()) / (raw_scores.max() - raw_scores.min())]:
    when all decision scores are equal every quotient is 0 / 0, that is
    NaN. *)
Definition anomaly_scores (raw_scores : list Q) : list (option Q) :=
  let lo := array_min raw_scores in
  let hi := array_max raw_scores in
  map (fun x => if Qeq_bool (hi - lo) 0 then None
                else Some (1 - (x - lo) / (hi - lo)))
      raw_scores.

(** [compute_risk_score] on a row whose anomaly score may be NaN: NaN goes
    through the sum, [clip] and [round], and [pd.cut] gives NaN no label. *)
Definition compute_risk_score (flags : MlModel.flag -> Z) (anomaly_score : option Q)
  : option Q * option MlModel.tier :=
  match anomaly_score with
  | Some a =>
      let r := MlModel.mkRow flags a in
      (Some (MlModel.risk_score r), MlModel.risk_tier r)
  | None => (None, None)
  end.

End MlAnomaly.

(** ** The data the scores are computed from *)

Module Domain.

(** An amount as the tables hold it: a whole number that is not negative. *)
Definition whole_amount (x : Q) : Prop :=
  exists z : Z, (0 <= z)%Z /\ x == inject_Z z.

(** Below 2^53 a float holds every whole number exactly. *)
Definition float_exact : Z := (2 ^ 53)%Z.

End Domain.

(** ** More sample records *)

Module MoreSamples.
Import PyNum PyStr.

(** A table with one tender in the category "Roads". *)
Definition lone_tender : MlModelTable.tender :=
  MlModelTable.mkTender (Some (lit "PWD")) (Some (lit "Roads")) (Some (900000 # 1)).

Definition lone_tender_table : list MlModelTable.tender :=
  [ lone_tender;
    MlModelTable.mkTender (Some (lit "PHE")) (Some (lit "Water")) (Some (100 # 1)) ].

(** A table of the single-submission path: four tenders of one category,
    three of them by the same buyer. *)
Definition roads_table : list RiskEngine.tender_row :=
  [ RiskEngine.mkTender (lit "Roads") (lit "PWD") (Some (100 # 1));
    RiskEngine.mkTender (lit "Roads") (lit "PWD") (Some (200 # 1));
    RiskEngine.mkTender (lit "Roads") (lit "PWD") None;
    RiskEngine.mkTender (lit "Roads") (lit "NHAI") (Some (300 # 1)) ].

(** A shell-risk row with the address cluster flag alone. *)
Definition cluster_only_row : ShellRisk.column -> Q :=
  fun c => match c with ShellRisk.address_cluster_flag => 1 | _ => 0 end.

(** A percentile aggregate that answers 100 for every group. *)
Definition percentile_100 : list Q -> Q := fun _ => 100.

(** A registry of three companies, two of which share the token "steel". *)
Definition steel_registry : list (pystr * EntityResolution.pyval) :=
  [ (lit "C1", EntityResolution.PyString (lit "Acme Steel Pvt Ltd"));
    (lit "C2", EntityResolution.PyString (lit "Bharat Steel Works"));
    (lit "C3", EntityResolution.PyNone) ].

End MoreSamples.

(* ================================================================== *)
(** * Part II: properties                                              *)
(* ================================================================== *)

Import PyNum PyStr Shape.

(** ** Arithmetic helpers *)

Lemma Qltb_lt (x y : Q) : Qltb x y = true <-> x < y.
Proof.
  unfold Qltb. rewrite negb_true_iff.
  split; intro H.
  - apply Qnot_le_lt. intro L. apply Qle_bool_iff in L. congruence.
  - destruct (Qle_bool y x) eqn:E; [|reflexivity].
    apply Qle_bool_iff in E. exfalso. exact (Qlt_not_le _ _ H E).
Qed.

Lemma Qltb_ge (x y : Q) : Qltb x y = false <-> y <= x.
Proof.
  unfold Qltb. rewrite negb_false_iff. apply Qle_bool_iff.
Qed.

Lemma Qle_bool_gt (x y : Q) : Qle_bool x y = false <-> y < x.
Proof.
  rewrite <- Qltb_lt. unfold Qltb. now rewrite negb_true_iff.
Qed.


Lemma b2z_one (b : bool) : RiskEngine.b2z b = 1%Z <-> b = true.
Proof. destruct b; cbn; split; intro; congruence || lia. Qed.

Lemma astype_int_one (b : bool) : MlModel.astype_int b = 1%Z <-> b = true.
Proof. destruct b; cbn; split; intro; congruence || lia. Qed.

(** ** The blended score (ml_model.py and risk_engine.py) *)

Lemma batch_rule_score (r : MlModel.row) :
  MlModel.rule_score r =
  (let f := MlModel.flags r in
   25 * f MlModel.single_bidder + 20 * f MlModel.zero_bidders
   + 15 * f MlModel.short_window + 10 * f MlModel.non_open
   + 10 * f MlModel.high_value + 10 * f MlModel.buyer_concentration
   + 5 * f MlModel.round_amount + 15 * f MlModel.ml_anomaly)%Z.
Proof.
  unfold MlModel.rule_score, sumZ, MlModel.FLAG_WEIGHTS.
  cbn [map fold_left fst snd]. lia.
Qed.

Lemma single_weighted_sum (f : RiskEngine.flag -> Z) :
  RiskEngine.weighted_sum f =
  (25 * f RiskEngine.single_bidder + 20 * f RiskEngine.zero_bidders
   + 15 * f RiskEngine.short_window + 10 * f RiskEngine.non_open
   + 10 * f RiskEngine.high_value + 10 * f RiskEngine.buyer_concentration
   + 5 * f RiskEngine.round_amount)%Z.
Proof.
  unfold RiskEngine.weighted_sum, sumZ, RiskEngine.FLAG_WEIGHTS.
  cbn [map fold_left fst snd]. lia.
Qed.

(** C1, on the batch pipeline: [compute_risk_score] of ml_model.py sums
    eight weighted flags (the seven rule flags and the ML anomaly flag,
    weight 15) and divides by 110, not by 95.  The row with the seven rule
    flags set and no ML contribution scores 73.41 there, where the formula
    of the specification gives 85; the row with one bidder, a short window, a
    method that is not open and a round amount, anomaly score 0.2, scores
    45.5, where the formula of the specification gives 52.21.  The
    single-submission path follows the specification: seven weights, divisor 95,
    and 85 when all seven flags are set. *)
Theorem C1_batch_score_divisor :
  (forall r : MlModel.row,
      fst (MlModel.compute_risk_score r) =
      let f := MlModel.flags r in
      round2 (clip 0 100
        (inject_Z (25 * f MlModel.single_bidder + 20 * f MlModel.zero_bidders
                   + 15 * f MlModel.short_window + 10 * f MlModel.non_open
                   + 10 * f MlModel.high_value
                   + 10 * f MlModel.buyer_concentration
                   + 5 * f MlModel.round_amount
                   + 15 * f MlModel.ml_anomaly) / 110 * 85
         + MlModel.anomaly_score r * 15)))
  /\ (fst (MlModel.compute_risk_score Samples.seven_flags_row) == 7341 # 100
      /\ Spec.blend (fun _ => 1%Z) 0 == 85)
  /\ (fst (MlModel.compute_risk_score Samples.four_flags_row) == 455 # 10
      /\ Spec.blend
           (fun k => MlModel.flags Samples.four_flags_row (Spec.batch_flag k))
           (MlModel.anomaly_score Samples.four_flags_row) == 5221 # 100)
  /\ (forall pc db amount n d m c b,
         snd (fst (RiskEngine.compute_rule_flags pc db amount n d m c b)) =
         let f := RiskEngine.compute_flags pc db amount n d m c b in
         round2 (inject_Z (25 * f RiskEngine.single_bidder
                           + 20 * f RiskEngine.zero_bidders
                           + 15 * f RiskEngine.short_window
                           + 10 * f RiskEngine.non_open
                           + 10 * f RiskEngine.high_value
                           + 10 * f RiskEngine.buyer_concentration
                           + 5 * f RiskEngine.round_amount) / 95 * 85))
  /\ RiskEngine.score_of (fun _ => 1%Z) == 85.
Proof.
  split; [|split; [|split; [|split]]].
  - intros r. cbn [MlModel.compute_risk_score fst].
    unfold MlModel.risk_score. rewrite batch_rule_score. reflexivity.
  - split; vm_compute; reflexivity.
  - split; vm_compute; reflexivity.
  - intros. cbn [RiskEngine.compute_rule_flags fst snd].
    unfold RiskEngine.score_of. rewrite single_weighted_sum. reflexivity.
  - vm_compute. reflexivity.
Qed.

(** ** Score range and tiers *)

Lemma round_half_even_between (x : Q) (a b : Z) :
  inject_Z a <= x -> x <= inject_Z b ->
  (a <= round_half_even x <= b)%Z.
Proof.
  intros Ha Hb. unfold round_half_even.
  assert (Hfa : (a <= Qfloor x)%Z).
  { rewrite <- (Qfloor_Z a). apply Qfloor_resp_le. exact Ha. }
  assert (Hfb : (Qfloor x <= b)%Z).
  { rewrite <- (Qfloor_Z b). apply Qfloor_resp_le. exact Hb. }
  assert (Hup : 0 < x - inject_Z (Qfloor x) -> (Qfloor x + 1 <= b)%Z).
  { intro Hr. apply Z.le_succ_l. apply Z.le_neq. split; [exact Hfb|].
    intro E. rewrite E in Hr. lra. }
  destruct (Qltb (x - inject_Z (Qfloor x)) (1 # 2)) eqn:E1; [lia|].
  apply Qltb_ge in E1.
  assert (Hr : 0 < x - inject_Z (Qfloor x)) by lra.
  specialize (Hup Hr).
  destruct (Qltb (1 # 2) (x - inject_Z (Qfloor x))); [lia|].
  destruct (Z.even (Qfloor x)); lia.
Qed.

Lemma round2_between (x : Q) (a b : Z) :
  inject_Z a <= x -> x <= inject_Z b ->
  inject_Z a <= round2 x /\ round2 x <= inject_Z b.
Proof.
  intros Ha Hb. unfold round2.
  destruct (round_half_even_between (x * 100) (a * 100) (b * 100)) as [L U].
  - rewrite inject_Z_mult. change (inject_Z 100) with 100. lra.
  - rewrite inject_Z_mult. change (inject_Z 100) with 100. lra.
  - rewrite Zle_Qle in L, U.
    rewrite inject_Z_mult in L, U. change (inject_Z 100) with 100 in L, U.
    split.
    + apply Qle_shift_div_l; [reflexivity | exact L].
    + apply Qle_shift_div_r; [reflexivity | exact U].
Qed.

(** Rounding moves a number by at most one half, [round2] by at most half
    a hundredth. *)
Lemma round_half_even_close (x : Q) :
  x - (1 # 2) <= inject_Z (round_half_even x)
  /\ inject_Z (round_half_even x) <= x + (1 # 2).
Proof.
  unfold round_half_even.
  pose proof (Qfloor_le x) as Hl. pose proof (Qlt_floor x) as Hu.
  rewrite inject_Z_plus in Hu. change (inject_Z 1) with 1 in Hu.
  set (f := Qfloor x) in *.
  destruct (Qltb (x - inject_Z f) (1 # 2)) eqn:E1.
  - apply Qltb_lt in E1. split; lra.
  - apply Qltb_ge in E1.
    destruct (Qltb (1 # 2) (x - inject_Z f)) eqn:E2.
    + rewrite inject_Z_plus. change (inject_Z 1) with 1. split; lra.
    + apply Qltb_ge in E2.
      destruct (Z.even f);
        [|rewrite inject_Z_plus; change (inject_Z 1) with 1]; split; lra.
Qed.

Lemma round2_close (x : Q) :
  x - (1 # 100) < round2 x /\ round2 x < x + (1 # 100).
Proof.
  unfold round2. destruct (round_half_even_close (x * 100)) as [L U].
  unfold Qdiv. change (/ 100) with (1 # 100). split; lra.
Qed.

Lemma clip_id (lo hi x : Q) : lo <= x -> x <= hi -> clip lo hi x = x.
Proof.
  intros Hlo Hhi. unfold clip, Qmin, Qmax, GenericMinMax.gmin, GenericMinMax.gmax.
  destruct (x ?= lo) eqn:E1.
  - destruct (x ?= hi) eqn:E2; try reflexivity.
    apply Qgt_alt in E2. lra.
  - apply Qlt_alt in E1. lra.
  - destruct (x ?= hi) eqn:E2; try reflexivity.
    apply Qgt_alt in E2. lra.
Qed.

Lemma clip_between (lo hi x : Q) : lo <= hi -> lo <= clip lo hi x /\ clip lo hi x <= hi.
Proof.
  intro H. unfold clip. split.
  - apply Q.min_glb; [apply Q.le_max_r | exact H].
  - apply Q.le_min_r.
Qed.

(** The batch score is always within 0 and 100. *)
Lemma batch_risk_score_range (r : MlModel.row) :
  0 <= MlModel.risk_score r /\ MlModel.risk_score r <= 100.
Proof.
  unfold MlModel.risk_score.
  match goal with |- context [clip 0 100 ?e] =>
    destruct (clip_between 0 100 e) as [L U]; [discriminate|] end.
  apply (round2_between _ 0 100); assumption.
Qed.

(** The single-submission tier is the bucket of the thresholds 30 and 60. *)
Lemma single_tier_thresholds (s : Q) :
  (s < 30 -> RiskEngine.tier_of s = RiskEngine.Low)
  /\ (30 <= s -> s < 60 -> RiskEngine.tier_of s = RiskEngine.Medium)
  /\ (60 <= s -> RiskEngine.tier_of s = RiskEngine.High).
Proof.
  unfold RiskEngine.tier_of. repeat split; intros.
  - destruct (Qle_bool 60 s) eqn:E1.
    { apply Qle_bool_iff in E1. lra. }
    destruct (Qle_bool 30 s) eqn:E2; [|reflexivity].
    apply Qle_bool_iff in E2. lra.
  - destruct (Qle_bool 60 s) eqn:E1.
    { apply Qle_bool_iff in E1. lra. }
    destruct (Qle_bool 30 s) eqn:E2; [reflexivity|].
    apply Qle_bool_gt in E2. lra.
  - destruct (Qle_bool 60 s) eqn:E1; [reflexivity|].
    apply Qle_bool_gt in E1. lra.
Qed.

Lemma single_flags_binary pc db amount n d m c b (k : RiskEngine.flag) :
  let f := RiskEngine.compute_flags pc db amount n d m c b in
  f k = 0%Z \/ f k = 1%Z.
Proof.
  destruct k; cbn [RiskEngine.compute_flags];
    match goal with |- context [RiskEngine.b2z ?x] => destruct x end;
    cbn; auto.
Qed.

(** The single-submission score is always within 0 and 85. *)
Lemma single_risk_score_range pc db amount n d m c b :
  let s := snd (fst (RiskEngine.compute_rule_flags pc db amount n d m c b)) in
  0 <= s /\ s <= 85.
Proof.
  cbn [RiskEngine.compute_rule_flags fst snd]. cbv zeta.
  unfold RiskEngine.score_of. rewrite single_weighted_sum.
  set (f := RiskEngine.compute_flags pc db amount n d m c b).
  assert (H : forall k, f k = 0%Z \/ f k = 1%Z)
    by (intro k; apply single_flags_binary).
  pose proof (H RiskEngine.single_bidder). pose proof (H RiskEngine.zero_bidders).
  pose proof (H RiskEngine.short_window). pose proof (H RiskEngine.non_open).
  pose proof (H RiskEngine.high_value).
  pose proof (H RiskEngine.buyer_concentration).
  pose proof (H RiskEngine.round_amount).
  match goal with |- context [inject_Z ?z] => set (ws := z) end.
  assert (Hz : (0 <= ws <= 95)%Z) by (unfold ws; lia).
  destruct Hz as [Hz0 Hz95]. rewrite Zle_Qle in Hz0, Hz95.
  change (inject_Z 0) with 0 in Hz0. change (inject_Z 95) with 95 in Hz95.
  change RiskEngine.max_weight with 95%Z. change (inject_Z 95) with 95.
  apply (round2_between _ 0 85).
  - change (inject_Z 0) with 0. unfold Qdiv. change (/ 95) with (1 # 95). lra.
  - change (inject_Z 85) with 85. unfold Qdiv. change (/ 95) with (1 # 95). lra.
Qed.

(** [pd.cut] with the bins 0, 30, 60, 100 on a score within 0 and 100. *)
Lemma batch_cut_intervals (s : Q) :
  0 <= s -> s <= 100 ->
  (s <= 30 -> MlModel.cut s = Some MlModel.Low)
  /\ (30 < s -> s <= 60 -> MlModel.cut s = Some MlModel.Medium)
  /\ (60 < s -> MlModel.cut s = Some MlModel.High).
Proof.
  intros H0 H100. unfold MlModel.cut.
  assert (E0 : Qle_bool 0 s = true) by now apply Qle_bool_iff.
  assert (E100 : Qle_bool s 100 = true) by now apply Qle_bool_iff.
  rewrite E0, E100. cbn [andb]. repeat split; intros.
  - replace (Qle_bool s 30) with true by (symmetry; now apply Qle_bool_iff).
    reflexivity.
  - replace (Qle_bool s 30) with false by (symmetry; now apply Qle_bool_gt).
    replace (Qltb 30 s) with true by (symmetry; now apply Qltb_lt).
    replace (Qle_bool s 60) with true by (symmetry; now apply Qle_bool_iff).
    reflexivity.
  - replace (Qle_bool s 30) with false by (symmetry; apply Qle_bool_gt; lra).
    replace (Qle_bool s 60) with false by (symmetry; now apply Qle_bool_gt).
    rewrite andb_false_r.
    replace (Qltb 60 s) with true by (symmetry; now apply Qltb_lt).
    reflexivity.
Qed.

(** C3: the score is within 0 and 100 on both paths and the
    single-submission tier is the bucket of the specification; on the batch
    pipeline [pd.cut] closes its intervals on the right, so a row that
    scores exactly 30 is put in Low and a row that scores exactly 60 in
    Medium, where the thresholds of the specification (and the single-submission
    path) give Medium and High. *)
Theorem C3_batch_boundary_tiers :
  (forall r, 0 <= fst (MlModel.compute_risk_score r)
             /\ fst (MlModel.compute_risk_score r) <= 100)
  /\ (forall pc db amount n d m c b,
         0 <= snd (fst (RiskEngine.compute_rule_flags pc db amount n d m c b))
         /\ snd (fst (RiskEngine.compute_rule_flags pc db amount n d m c b)) <= 100)
  /\ (fst (MlModel.compute_risk_score Samples.row_scoring_30) == 30
      /\ snd (MlModel.compute_risk_score Samples.row_scoring_30) = Some MlModel.Low
      /\ RiskEngine.tier_of 30 = RiskEngine.Medium)
  /\ (fst (MlModel.compute_risk_score Samples.row_scoring_60) == 60
      /\ snd (MlModel.compute_risk_score Samples.row_scoring_60) = Some MlModel.Medium
      /\ RiskEngine.tier_of 60 = RiskEngine.High).
Proof.
  split; [|split; [|split]].
  - intro r. apply batch_risk_score_range.
  - intros. destruct (single_risk_score_range pc db amount n d m c b) as [L U].
    split; [exact L|]. cbv zeta in U. lra.
  - repeat split; vm_compute; reflexivity.
  - repeat split; vm_compute; reflexivity.
Qed.

(** ** The rule flags *)

Lemma eqb_eq (a b : pystr) : PyStr.eqb a b = true <-> a = b.
Proof.
  unfold PyStr.eqb. destruct (list_eq_dec N.eq_dec a b); split; congruence.
Qed.

Lemma eqb_refl (a : pystr) : PyStr.eqb a a = true.
Proof. now apply eqb_eq. Qed.

Lemma eqb_neq (a b : pystr) : PyStr.eqb a b = false <-> a <> b.
Proof.
  unfold PyStr.eqb. destruct (list_eq_dec N.eq_dec a b); split; congruence.
Qed.

Lemma mem_In (a : pystr) (l : list pystr) : mem a l = true <-> In a l.
Proof.
  unfold mem. rewrite existsb_exists. split.
  - intros [x [Hx He]]. apply eqb_eq in He. now subst.
  - intro H. exists a. split; [exact H | apply eqb_refl].
Qed.





(** C6, on the batch pipeline: the methods "Open", "open tender" and
    "OPEN TENDER" all fire non_open there, because the flag tests
    membership in the list ["Open Tender"] with exact, case-sensitive
    equality; the single-submission path does not fire on any of them,
    and fires iff the lowercased method is neither "open tender" nor
    "open". *)
Theorem C6_non_open_paths :
  (MlModel.flag_non_open (Some (lit "Open")) = 1%Z
   /\ MlModel.flag_non_open (Some (lit "open tender")) = 1%Z
   /\ MlModel.flag_non_open (Some (lit "OPEN TENDER")) = 1%Z)
  /\ (forall m, MlModel.flag_non_open (Some m) = 1%Z <-> m <> lit "Open Tender")
  /\ (forall pc db amount n d m c b,
         RiskEngine.compute_flags pc db amount n d m c b RiskEngine.non_open = 1%Z
         <-> ~ (lower m = lit "open tender" \/ lower m = lit "open"))
  /\ (forall pc db amount n d c b,
         RiskEngine.compute_flags pc db amount n d (lit "Open") c b
           RiskEngine.non_open = 0%Z
         /\ RiskEngine.compute_flags pc db amount n d (lit "open tender") c b
              RiskEngine.non_open = 0%Z
         /\ RiskEngine.compute_flags pc db amount n d (lit "OPEN TENDER") c b
              RiskEngine.non_open = 0%Z).
Proof.
  split; [|split; [|split]].
  - repeat split.
  - intro m. unfold MlModel.flag_non_open. rewrite astype_int_one, negb_true_iff.
    unfold MlModel.open_methods. split.
    + intros H E. subst m. cbn in H. discriminate.
    + intro H. destruct (mem m [lit "Open Tender"]) eqn:E; [|reflexivity].
      apply mem_In in E. destruct E as [E|[]]. congruence.
  - intros. cbn [RiskEngine.compute_flags]. rewrite b2z_one, negb_true_iff. split.
    + intros H [E|E]; rewrite E in H; cbn in H; discriminate.
    + intro H. destruct (mem (lower m) _) eqn:E; [|reflexivity].
      apply mem_In in E. exfalso. apply H.
      destruct E as [E|[E|[]]]; [left | right]; congruence.
  - intros. repeat split.
Qed.

(** C7: short_window fires iff 0 < duration_days < 7 on the batch
    pipeline and iff duration_days < 7 on the single-submission path; the
    two flags differ exactly when duration_days <= 0. *)
Theorem C7_short_window_modes :
  forall pc db amount n (d : Q) m c b,
    let batch := MlModel.flag_short_window d in
    let single :=
      RiskEngine.compute_flags pc db amount n d m c b RiskEngine.short_window in
    (batch = 1%Z <-> 0 < d /\ d < 7)
    /\ (single = 1%Z <-> d < 7)
    /\ (batch <> single <-> d <= 0).
Proof.
  intros. subst batch single. cbn [RiskEngine.compute_flags].
  unfold MlModel.flag_short_window.
  rewrite astype_int_one, b2z_one, andb_true_iff, !Qltb_lt.
  split; [tauto|]. split; [tauto|].
  destruct (Qltb 0 d) eqn:E0; destruct (Qltb d 7) eqn:E7; cbn;
    try apply Qltb_lt in E0; try apply Qltb_ge in E0;
    try apply Qltb_lt in E7; try apply Qltb_ge in E7;
    split; intro H; try lra; try congruence; try discriminate.
Qed.

(** C9, as stated, fails: in a category with no prior records the
    high_value flag fires for an amount of two trillion, which is above
    the sentinel. *)
Lemma C9_high_value_fires_above_sentinel :
  RiskEngine.in_category [] (lit "Roads") = []
  /\ RiskEngine.compute_flags Samples.no_percentile [] Samples.two_trillion
       1 10 (lit "Open Tender") (lit "Roads") (lit "PWD")
       RiskEngine.high_value = 1%Z.
Proof.
  split; reflexivity.
Qed.

(** C9 (amended): for a category with no prior records the percentile
    query yields NULL, the threshold becomes the sentinel 10^12, and the
    high_value flag does not fire for any amount up to 10^12 (it fires
    exactly for the amounts above it); the flags are computed without
    error. *)
Theorem C9_empty_category_sentinel :
  forall pc db category,
    RiskEngine.in_category db category = [] ->
    RiskEngine.fetch_p95 pc db category = Some None
    /\ RiskEngine.p95_val (RiskEngine.fetch_p95 pc db category) = 1000000000000
    /\ forall amount n d m b,
        let flags := RiskEngine.compute_flags pc db amount n d m category b in
        (amount <= 1000000000000 -> flags RiskEngine.high_value = 0%Z)
        /\ (flags RiskEngine.high_value = 1%Z <-> 1000000000000 < amount).
Proof.
  intros pc db category Hempty.
  assert (Hf : RiskEngine.fetch_p95 pc db category = Some None).
  { unfold RiskEngine.fetch_p95. rewrite Hempty. reflexivity. }
  split; [exact Hf|]. split; [rewrite Hf; reflexivity|].
  intros amount n d m b flags. subst flags. cbn [RiskEngine.compute_flags].
  rewrite Hf. cbn [RiskEngine.p95_val]. split.
  - intro H. destruct (Qltb _ amount) eqn:E; [|reflexivity].
    apply Qltb_lt in E. lra.
  - rewrite b2z_one. apply Qltb_lt.
Qed.

Lemma C9_empty_category_sentinel_witness :
  RiskEngine.compute_flags Samples.no_percentile [] 500000
    1 10 (lit "Open Tender") (lit "Roads") (lit "PWD") RiskEngine.high_value = 0%Z.
Proof.
  destruct (C9_empty_category_sentinel Samples.no_percentile [] (lit "Roads")
              eq_refl) as (_ & _ & H).
  apply (H 500000 1 10 (lit "Open Tender") (lit "PWD")).
  vm_compute. discriminate.
Defined.

(** ** Address clusters (company_risk_scorer.py) *)

Lemma pairs_In (l : list pystr) (a b : pystr) :
  In (a, b) (CompanyRiskScorer.pairs l)
  <-> exists l1 l2 l3, l = l1 ++ a :: l2 ++ b :: l3.
Proof.
  induction l as [|x t IH]; cbn [CompanyRiskScorer.pairs].
  - split; [intros [] | intros (l1 & l2 & l3 & H)].
    destruct l1; discriminate.
  - rewrite in_app_iff, in_map_iff, IH. split.
    + intros [(y & Hy & Hin) | (l1 & l2 & l3 & H)].
      * injection Hy as <- <-. apply in_split in Hin.
        destruct Hin as (l2 & l3 & ->). now exists [], l2, l3.
      * exists (x :: l1), l2, l3. now rewrite H.
    + intros (l1 & l2 & l3 & H). destruct l1 as [|y l1]; cbn in H.
      * injection H as <- ->. left. exists b. split; [reflexivity|].
        apply in_or_app. right. now left.
      * injection H as <- ->. right. now exists l1, l2, l3.
Qed.

Section AddressClusterFacts.

Variable address : Type.
Variable normalise_address : address -> pystr.
Variable df : list (CompanyRiskScorer.company address).

Local Abbreviation key_of := (CompanyRiskScorer.addr_key address normalise_address).
Local Abbreviation counts := (CompanyRiskScorer.addr_counts address normalise_address df).
Local Abbreviation size_of :=
  (CompanyRiskScorer.address_cluster_size address normalise_address df).
Local Abbreviation cins_of :=
  (CompanyRiskScorer.cluster_cins address normalise_address df).
Local Abbreviation members := (CompanyRiskScorer.members address normalise_address df).

Lemma members_length (key : pystr) : length (members key) = counts key.
Proof. unfold CompanyRiskScorer.members. now rewrite length_map. Qed.

(** The group of a key holds all its companies when they are at least
    two, and nothing otherwise. *)
Lemma cluster_cins_members (key : pystr) :
  cins_of key = if (2 <=? counts key)%nat then members key else [].
Proof.
  unfold CompanyRiskScorer.cluster_cins, CompanyRiskScorer.clustered,
    CompanyRiskScorer.members.
  generalize (eq_refl (counts key)).
  generalize (counts key) at 1 3 as n. intros n Hn.
  assert (G : forall l,
    filter (fun c => PyStr.eqb (key_of c) key)
           (filter (fun c => (2 <=? size_of c)%nat) l)
    = if (2 <=? n)%nat
      then filter (fun c => PyStr.eqb (key_of c) key) l else []).
  { induction l as [|c l IH]; cbn [filter].
    - now destruct (2 <=? n)%nat.
    - destruct (PyStr.eqb (key_of c) key) eqn:E.
      + apply eqb_eq in E. unfold CompanyRiskScorer.address_cluster_size at 1.
        rewrite E, <- Hn.
        destruct (2 <=? n)%nat eqn:E2; cbn [filter].
        * apply eqb_eq in E. rewrite E. now rewrite IH.
        * exact IH.
      + destruct (2 <=? size_of c)%nat; cbn [filter]; [rewrite E|]; exact IH. }
  rewrite G. now destruct (2 <=? n)%nat.
Qed.

Lemma cluster_keys_In (key : pystr) :
  In key (CompanyRiskScorer.cluster_keys address normalise_address df)
  <-> (2 <= counts key)%nat.
Proof.
  unfold CompanyRiskScorer.cluster_keys, CompanyRiskScorer.clustered.
  rewrite nodup_In, in_map_iff. split.
  - intros (c & <- & Hc). apply filter_In in Hc. destruct Hc as [_ Hc].
    now apply Nat.leb_le in Hc.
  - intro H.
    destruct (filter (fun c => PyStr.eqb (key_of c) key) df) as [|c l] eqn:E.
    + unfold CompanyRiskScorer.addr_counts in H. rewrite E in H. cbn in H. lia.
    + assert (Hc : In c (filter (fun c => PyStr.eqb (key_of c) key) df))
        by (rewrite E; now left).
      apply filter_In in Hc. destruct Hc as [Hin Hk]. apply eqb_eq in Hk.
      exists c. split; [exact Hk|]. apply filter_In. split; [exact Hin|].
      apply Nat.leb_le. unfold CompanyRiskScorer.address_cluster_size.
      now rewrite Hk.
Qed.

Lemma address_graph_edges (a b : pystr) :
  In (a, b) (CompanyRiskScorer.edges
               (CompanyRiskScorer.address_graph address normalise_address df))
  <-> exists key, (2 <= counts key <= 50)%nat
                  /\ In (a, b) (CompanyRiskScorer.pairs (members key)).
Proof.
  unfold CompanyRiskScorer.address_graph, CompanyRiskScorer.clusters.
  cbn [CompanyRiskScorer.edges]. rewrite in_flat_map. split.
  - intros (kc & Hkc & Hin). apply in_map_iff in Hkc.
    destruct Hkc as (key & <- & Hkey). cbn [snd] in Hin.
    apply cluster_keys_In in Hkey. exists key.
    rewrite cluster_cins_members in Hin.
    unfold CompanyRiskScorer.cluster_edges in Hin.
    destruct (2 <=? counts key)%nat eqn:E2; [|destruct Hin].
    rewrite members_length in Hin.
    destruct ((1 <? counts key)%nat && (counts key <=? 50)%nat) eqn:E;
      [|destruct Hin].
    apply andb_true_iff in E. destruct E as [_ E]. apply Nat.leb_le in E.
    split; [lia | exact Hin].
  - intros (key & [H2 H50] & Hin). exists (key, cins_of key). split.
    + apply in_map_iff. exists key. split; [reflexivity|].
      now apply cluster_keys_In.
    + cbn [snd]. rewrite cluster_cins_members.
      apply Nat.leb_le in H2. rewrite H2.
      unfold CompanyRiskScorer.cluster_edges. rewrite members_length.
      apply Nat.leb_le in H2.
      replace ((1 <? counts key)%nat) with true
        by (symmetry; apply Nat.ltb_lt; lia).
      replace ((counts key <=? 50)%nat) with true
        by (symmetry; apply Nat.leb_le; lia).
      exact Hin.
Qed.

End AddressClusterFacts.

(** C8: a company's address_cluster_flag is 1 iff its cluster size (the
    number of rows with its address key) is at least 3, whatever the
    graph holds; an edge is added to the graph exactly for two members
    (an earlier and a later row) of a cluster of size 2 to 50, every such
    pair being joined; a cluster of more than 50 rows adds no edge, while
    its members keep their cluster size and carry the flag. *)
Theorem C8_address_clusters :
  forall (address : Type) (normalise_address : address -> pystr)
         (df : list (CompanyRiskScorer.company address)),
    let size := CompanyRiskScorer.address_cluster_size address normalise_address df in
    let flag := CompanyRiskScorer.address_cluster_flag address normalise_address df in
    let key_of := CompanyRiskScorer.addr_key address normalise_address in
    let cluster := CompanyRiskScorer.members address normalise_address df in
    let G := CompanyRiskScorer.address_graph address normalise_address df in
    (forall c, (flag c = 1%Z <-> (3 <= size c)%nat) /\ (flag c = 1%Z \/ flag c = 0%Z))
    /\ (forall c, size c = length (cluster (key_of c)))
    /\ (forall a b,
           In (a, b) (CompanyRiskScorer.edges G)
           <-> exists key l1 l2 l3,
               (2 <= length (cluster key) <= 50)%nat
               /\ cluster key = l1 ++ a :: l2 ++ b :: l3)
    /\ (forall key l1 a l2 b l3,
           (2 <= length (cluster key) <= 50)%nat ->
           cluster key = l1 ++ a :: l2 ++ b :: l3 ->
           CompanyRiskScorer.has_edge G a b)
    /\ (forall c,
           (50 < size c)%nat ->
           CompanyRiskScorer.cluster_edges
             (CompanyRiskScorer.cluster_cins address normalise_address df (key_of c)) = []
           /\ flag c = 1%Z).
Proof.
  intros address na df size flag key_of cluster G.
  assert (Hedge : forall a b,
           In (a, b) (CompanyRiskScorer.edges G)
           <-> exists key l1 l2 l3,
               (2 <= length (cluster key) <= 50)%nat
               /\ cluster key = l1 ++ a :: l2 ++ b :: l3).
  { intros a b. subst G cluster. rewrite address_graph_edges. split.
    - intros (key & Hk & Hin). apply pairs_In in Hin.
      destruct Hin as (l1 & l2 & l3 & E). exists key, l1, l2, l3.
      rewrite members_length. now split.
    - intros (key & l1 & l2 & l3 & Hk & E). exists key.
      rewrite members_length in Hk. split; [exact Hk|].
      apply pairs_In. now exists l1, l2, l3. }
  assert (Hflag : forall c, flag c = 1%Z <-> (3 <= size c)%nat).
  { intro c. subst flag size. unfold CompanyRiskScorer.address_cluster_flag.
    destruct (3 <=? _)%nat eqn:E.
    - apply Nat.leb_le in E. tauto.
    - apply Nat.leb_gt in E. split; [discriminate | lia]. }
  split; [|split; [|split; [|split]]].
  - intro c. split; [apply Hflag|].
    subst flag. unfold CompanyRiskScorer.address_cluster_flag.
    destruct (3 <=? _)%nat; auto.
  - intro c. subst cluster. rewrite members_length. reflexivity.
  - exact Hedge.
  - intros key l1 a l2 b l3 Hk E. left. apply Hedge. now exists key, l1, l2, l3.
  - intros c Hc. split.
    + rewrite cluster_cins_members. subst size key_of.
      unfold CompanyRiskScorer.address_cluster_size in Hc.
      destruct (2 <=? _)%nat; [|reflexivity].
      unfold CompanyRiskScorer.cluster_edges. rewrite members_length.
      replace (_ <=? 50)%nat with false by (symmetry; apply Nat.leb_gt; lia).
      now rewrite andb_false_r.
    + apply Hflag. lia.
Qed.

Lemma C8_address_clusters_witness :
  CompanyRiskScorer.has_edge
    (CompanyRiskScorer.address_graph pystr (fun a => a) Samples.three_at_one_address)
    (lit "U001") (lit "U003").
Proof.
  destruct (C8_address_clusters pystr (fun a => a) Samples.three_at_one_address)
    as (_ & _ & _ & H & _).
  apply (H (lit "600001|chennai") [] (lit "U001") [lit "U002"] (lit "U003") []).
  - cbn. lia.
  - reflexivity.
Defined.

(** ** The political score (vendor_risk_scorer.py) *)

Lemma find_keyed {B : Type} (g : pystr -> B) (names : list pystr) (name : pystr) :
  In name names ->
  find (fun p => PyStr.eqb (fst p) name) (map (fun n => (n, g n)) names)
  = Some (name, g name).
Proof.
  induction names as [|n t IH]; intro H; [destruct H|].
  cbn [map find fst]. destruct (PyStr.eqb n name) eqn:E.
  - apply eqb_eq in E. now subst.
  - apply eqb_neq in E. destruct H as [H|H]; [congruence | now apply IH].
Qed.

Lemma political_score_of_purchaser (flows : list VendorRiskScorer.flow) (name : pystr) :
  In name (map VendorRiskScorer.purchaser_name flows) ->
  VendorRiskScorer.political_score_of flows name
  = Some (VendorRiskScorer.political_score flows
            (VendorRiskScorer.mkStats name
               (length (nodup VendorRiskScorer.names_eq_dec
                          (map VendorRiskScorer.party_name
                               (VendorRiskScorer.flows_of flows name))))
               (sumQ (map VendorRiskScorer.total_value
                          (VendorRiskScorer.flows_of flows name))))).
Proof.
  intro H.
  unfold VendorRiskScorer.political_score_of, VendorRiskScorer.compute_political_scores.
  destruct flows as [|f0 flows']; [destruct H|].
  set (flows := f0 :: flows') in *.
  unfold VendorRiskScorer.purchaser_stats. rewrite map_map.
  cbn [VendorRiskScorer.s_purchaser].
  set (g := fun n => VendorRiskScorer.political_score flows
                       (VendorRiskScorer.mkStats n
                          (length (nodup VendorRiskScorer.names_eq_dec
                             (map VendorRiskScorer.party_name
                                (VendorRiskScorer.flows_of flows n))))
                          (sumQ (map VendorRiskScorer.total_value
                             (VendorRiskScorer.flows_of flows n))))).
  rewrite (find_keyed g _ name); [reflexivity|].
  apply nodup_In. exact H.
Qed.

(** C2, as stated, fails: the only purchaser of a one-row table attains
    both maxima (its total is the largest total, its party count the
    largest count) and scores 79.94, not 100. *)
Lemma C2_sole_donor_not_100 :
  exists s,
    VendorRiskScorer.political_score_of Samples.one_flow (lit "ACME") = Some s
    /\ sumQ (map VendorRiskScorer.total_value
                 (VendorRiskScorer.flows_of Samples.one_flow (lit "ACME")))
       == VendorRiskScorer.max_value Samples.one_flow
    /\ length (nodup VendorRiskScorer.names_eq_dec
                 (map VendorRiskScorer.party_name
                      (VendorRiskScorer.flows_of Samples.one_flow (lit "ACME"))))
       = VendorRiskScorer.max_parties Samples.one_flow
    /\ s == 7994 # 100
    /\ ~ (s == 100).
Proof.
  eexists. split; [vm_compute; reflexivity|].
  repeat split; vm_compute; discriminate.
Qed.

Lemma fold_Qmax_ge (l : list Q) (a : Q) :
  a <= fold_left Qmax l a /\ forall x, In x l -> x <= fold_left Qmax l a.
Proof.
  revert a. induction l as [|y t IH]; intro a; cbn [fold_left].
  - split; [apply Qle_refl | intros x []].
  - destruct (IH (Qmax a y)) as [H1 H2]. split.
    + apply Qle_trans with (Qmax a y); [apply Q.le_max_l | exact H1].
    + intros x [<-|Hx]; [|now apply H2].
      apply Qle_trans with (Qmax a y); [apply Q.le_max_r | exact H1].
Qed.

Lemma maxQ_ge (l : list Q) (x : Q) : In x l -> x <= VendorRiskScorer.maxQ l.
Proof.
  destruct l as [|a t]; [intros []|]. cbn [VendorRiskScorer.maxQ].
  destruct (fold_Qmax_ge t a) as [H1 H2].
  intros [<-|Hx]; [exact H1 | now apply H2].
Qed.

Lemma fold_max_ge (l : list nat) (a : nat) :
  (a <= fold_left Nat.max l a)%nat
  /\ forall x, In x l -> (x <= fold_left Nat.max l a)%nat.
Proof.
  revert a. induction l as [|y t IH]; intro a; cbn [fold_left].
  - split; [lia | intros x []].
  - destruct (IH (Nat.max a y)) as [H1 H2]. split; [lia|].
    intros x [<-|Hx]; [lia | now apply H2].
Qed.

Lemma sumQ_nonneg (l : list Q) : Forall (fun x => 0 <= x) l -> 0 <= sumQ l.
Proof.
  unfold sumQ. intro H.
  assert (G : forall a, 0 <= a -> 0 <= fold_left Qplus l a).
  { induction H as [|x t Hx _ IH]; intros a Ha; cbn [fold_left]; [exact Ha|].
    apply IH. lra. }
  apply G. apply Qle_refl.
Qed.

Lemma whole_amounts_nonneg (flows : list VendorRiskScorer.flow) :
  Forall (fun f => Domain.whole_amount (VendorRiskScorer.total_value f)) flows ->
  Forall (fun f => 0 <= VendorRiskScorer.total_value f) flows.
Proof.
  apply Forall_impl. intros f (z & Hz & E). rewrite E.
  change 0 with (inject_Z 0). now rewrite <- Zle_Qle.
Qed.

(** With donations that are not negative, the divisor [max_value + 1] is
    at least 1, the quotient of a total by it lies in [0,1), and so does
    the quotient of a party count by [max_parties + 1]. *)
Lemma political_parts_range (flows : list VendorRiskScorer.flow)
    (s : VendorRiskScorer.stats) :
  Forall (fun f => 0 <= VendorRiskScorer.total_value f) flows ->
  In s (VendorRiskScorer.purchaser_stats flows) ->
  let v := VendorRiskScorer.total_bond_value s
           / (VendorRiskScorer.max_value flows + 1) * 60 in
  let d := VendorRiskScorer.diversity_score flows s in
  VendorRiskScorer.value_score flows s = Some v
  /\ 0 <= v /\ v < 60 /\ 0 <= d /\ d < 40.
Proof.
  intros Hnn Hs v d.
  assert (Htot : 0 <= VendorRiskScorer.total_bond_value s).
  { unfold VendorRiskScorer.purchaser_stats in Hs. apply in_map_iff in Hs.
    destruct Hs as (name & <- & _). cbn [VendorRiskScorer.total_bond_value].
    apply sumQ_nonneg. apply Forall_forall. intros x Hx.
    apply in_map_iff in Hx. destruct Hx as (f & <- & Hf).
    unfold VendorRiskScorer.flows_of in Hf. apply filter_In in Hf.
    rewrite Forall_forall in Hnn. now apply Hnn. }
  assert (Hmax : VendorRiskScorer.total_bond_value s <= VendorRiskScorer.max_value flows).
  { unfold VendorRiskScorer.max_value. apply maxQ_ge. now apply in_map. }
  assert (Hpar : (VendorRiskScorer.parties_funded s
                  <= VendorRiskScorer.max_parties flows)%nat).
  { unfold VendorRiskScorer.max_parties.
    apply (proj2 (fold_max_ge _ O)). now apply in_map. }
  subst v d. unfold VendorRiskScorer.value_score, VendorRiskScorer.diversity_score.
  set (t := VendorRiskScorer.total_bond_value s) in *.
  set (M := VendorRiskScorer.max_value flows) in *.
  assert (Hv : 0 <= t / (M + 1) /\ t / (M + 1) < 1).
  { split; [apply Qle_shift_div_l; lra | apply Qlt_shift_div_r; lra]. }
  set (k := inject_Z (Z.of_nat (VendorRiskScorer.parties_funded s))).
  set (P := inject_Z (Z.of_nat (VendorRiskScorer.max_parties flows))).
  assert (Hk0 : 0 <= k).
  { unfold k. change 0 with (inject_Z 0). rewrite <- Zle_Qle. lia. }
  assert (HkP : k <= P).
  { unfold k, P. rewrite <- Zle_Qle. lia. }
  assert (Hd : 0 <= k / (P + 1) /\ k / (P + 1) < 1).
  { split; [apply Qle_shift_div_l; lra | apply Qlt_shift_div_r; lra]. }
  destruct (Qeq_bool (M + 1) 0) eqn:E.
  { apply Qeq_bool_iff in E. lra. }
  split; [reflexivity|]. lra.
Qed.

(** The row of [purchaser_stats] of a purchaser that has a flow. *)
Lemma purchaser_stats_row (flows : list VendorRiskScorer.flow) (name : pystr) :
  In name (map VendorRiskScorer.purchaser_name flows) ->
  In (VendorRiskScorer.mkStats name
        (length (nodup VendorRiskScorer.names_eq_dec
                   (map VendorRiskScorer.party_name
                        (VendorRiskScorer.flows_of flows name))))
        (sumQ (map VendorRiskScorer.total_value
                   (VendorRiskScorer.flows_of flows name))))
     (VendorRiskScorer.purchaser_stats flows).
Proof.
  intro H. unfold VendorRiskScorer.purchaser_stats.
  apply in_map_iff. exists name. split; [reflexivity|].
  apply nodup_In. exact H.
Qed.

(** C2 (amended): for every purchaser with at least one donation flow,
    the donations being whole numbers that are not negative, with totals
    and row count below 2^53, the political score is value_score +
    diversity_score clipped to [0,100] and rounded to two decimals, where
    value_score = total / (max_total + 1) * 60 and diversity_score =
    parties / (max_parties + 1) * 40, the maxima taken over all
    purchasers: the score lies within 0 and 100 and within one hundredth
    of that sum; because of the "+ 1" in both divisors the sum is strictly
    below 100 for every purchaser, the one attaining both maxima
    included. *)
Theorem C2_political_score :
  forall (flows : list VendorRiskScorer.flow) (name : pystr),
    In name (map VendorRiskScorer.purchaser_name flows) ->
    Forall (fun f => Domain.whole_amount (VendorRiskScorer.total_value f)) flows ->
    VendorRiskScorer.max_value flows < inject_Z Domain.float_exact ->
    (Z.of_nat (length flows) < Domain.float_exact)%Z ->
    let total :=
      sumQ (map VendorRiskScorer.total_value (VendorRiskScorer.flows_of flows name)) in
    let parties :=
      length (nodup VendorRiskScorer.names_eq_dec
                (map VendorRiskScorer.party_name (VendorRiskScorer.flows_of flows name))) in
    let value_score := total / (VendorRiskScorer.max_value flows + 1) * 60 in
    let diversity_score :=
      inject_Z (Z.of_nat parties)
      / (inject_Z (Z.of_nat (VendorRiskScorer.max_parties flows)) + 1) * 40 in
    exists s : Q,
      VendorRiskScorer.political_score_of flows name = Some s
      /\ 0 <= s /\ s <= 100
      /\ value_score + diversity_score - (1 # 100) < s
      /\ s < value_score + diversity_score + (1 # 100)
      /\ 0 <= value_score + diversity_score
      /\ value_score + diversity_score < 100.
Proof.
  intros flows name Hin Hwhole _ _ total parties value_score diversity_score.
  pose proof (political_parts_range flows _ (whole_amounts_nonneg flows Hwhole)
                (purchaser_stats_row flows name Hin)) as H.
  cbv zeta in H. unfold VendorRiskScorer.diversity_score in H.
  cbn [VendorRiskScorer.total_bond_value VendorRiskScorer.parties_funded] in H.
  destruct H as (Ev & Hv0 & Hv1 & Hd0 & Hd1).
  exists (round2 (value_score + diversity_score)). split.
  { rewrite political_score_of_purchaser by exact Hin.
    unfold VendorRiskScorer.political_score. rewrite Ev.
    unfold VendorRiskScorer.diversity_score.
    cbn [VendorRiskScorer.parties_funded].
    subst value_score diversity_score total parties.
    rewrite clip_id by lra. reflexivity. }
  destruct (round2_close (value_score + diversity_score)) as [L U].
  destruct (round2_between (value_score + diversity_score) 0 100) as [L0 U0].
  { change (inject_Z 0) with 0. subst value_score diversity_score total parties. lra. }
  { change (inject_Z 100) with 100. subst value_score diversity_score total parties. lra. }
  change (inject_Z 0) with 0 in L0. change (inject_Z 100) with 100 in U0.
  repeat split; try assumption;
    subst value_score diversity_score total parties; lra.
Qed.

Lemma C2_political_score_witness :
  exists s : Q,
    VendorRiskScorer.political_score_of Samples.one_flow (lit "ACME") = Some s
    /\ 0 <= s /\ s <= 100
    /\ (1000 # 1) / (VendorRiskScorer.max_value Samples.one_flow + 1) * 60
       + inject_Z 1 / (inject_Z 1 + 1) * 40 - (1 # 100) < s
    /\ s < (1000 # 1) / (VendorRiskScorer.max_value Samples.one_flow + 1) * 60
           + inject_Z 1 / (inject_Z 1 + 1) * 40 + (1 # 100)
    /\ 0 <= (1000 # 1) / (VendorRiskScorer.max_value Samples.one_flow + 1) * 60
            + inject_Z 1 / (inject_Z 1 + 1) * 40
    /\ (1000 # 1) / (VendorRiskScorer.max_value Samples.one_flow + 1) * 60
       + inject_Z 1 / (inject_Z 1 + 1) * 40 < 100.
Proof.
  apply (C2_political_score Samples.one_flow (lit "ACME")).
  - left. reflexivity.
  - constructor; [|constructor]. exists 1000%Z. split; [lia | reflexivity].
  - reflexivity.
  - reflexivity.
Defined.

(** ** Name normalisation (entity_resolution.py) *)

(** *** Character classes *)

Ltac class_props :=
  unfold is_space, is_lower_alnum, EntityResolution.is_word, in_range in *;
  repeat rewrite ?orb_true_iff, ?andb_true_iff, ?N.leb_le, ?N.eqb_eq in *.

Lemma alnum_not_space (c : N) : is_lower_alnum c = true -> is_space c = false.
Proof.
  intro H. apply not_true_is_false. intro S. class_props. lia.
Qed.

Lemma alnum_is_word (c : N) :
  is_lower_alnum c = true -> EntityResolution.is_word c = true.
Proof. intro H. class_props. lia. Qed.

Lemma space_not_word (c : N) : is_space c = true -> EntityResolution.is_word c = false.
Proof.
  intro H. apply not_true_is_false. intro S. class_props. lia.
Qed.

Lemma space_32 : is_space 32 = true.
Proof. reflexivity. Qed.

Lemma lower_char_alnum (c : N) : is_lower_alnum c = true -> lower_char c = [c].
Proof.
  intro H. unfold lower_char.
  destruct (in_range 65 90 c) eqn:E1; [class_props; lia|].
  destruct (c =? 304)%N eqn:E2; [class_props; lia|].
  destruct (c =? 8490)%N eqn:E3; [class_props; lia|].
  reflexivity.
Qed.

Lemma plain_kept (c : N) : plain c -> kept c.
Proof. intros [H| ->]; [now left | now right]. Qed.

Lemma lower_plain (s : pystr) : Forall plain s -> lower s = s.
Proof.
  induction 1 as [|c t Hc _ IH]; [reflexivity|].
  unfold lower in *. cbn [flat_map]. rewrite IH.
  destruct Hc as [Hc| ->]; [now rewrite lower_char_alnum | reflexivity].
Qed.

Lemma sub_non_alnum_kept (s : pystr) : Forall kept (EntityResolution.sub_non_alnum s).
Proof.
  unfold EntityResolution.sub_non_alnum. induction s as [|c t IH]; cbn [map].
  - constructor.
  - constructor; [|exact IH].
    destruct (is_lower_alnum c) eqn:E1; cbn [orb]; [now left|].
    destruct (is_space c) eqn:E2; right; [exact E2 | reflexivity].
Qed.

Lemma sub_non_alnum_id (s : pystr) :
  Forall kept s -> EntityResolution.sub_non_alnum s = s.
Proof.
  unfold EntityResolution.sub_non_alnum.
  induction 1 as [|c t Hc _ IH]; [reflexivity|].
  cbn [map]. rewrite IH. destruct Hc as [Hc|Hc]; rewrite Hc.
  - reflexivity.
  - now rewrite orb_true_r.
Qed.

(** *** Words and the white space between them *)

Lemma split_space (c : N) (t : pystr) :
  is_space c = true -> split (c :: t) = split t.
Proof. intro H. cbn [split]. now rewrite H. Qed.

Lemma split_word (w r : pystr) :
  w <> [] -> no_space w -> starts_blank r -> split (w ++ r) = w :: split r.
Proof.
  intros Hne Hw Hr. induction Hw as [|a w' Ha Hw' IH]; [congruence|].
  clear Hne. cbn [app split]. rewrite Ha.
  destruct w' as [|b w''].
  - cbn [app]. destruct r as [|d r']; [reflexivity|].
    cbn in Hr. now rewrite Hr.
  - cbn [app] in *. inversion Hw' as [|? ? Hb _]; subst.
    rewrite Hb. rewrite IH by discriminate. reflexivity.
Qed.

Lemma word_prefix_rest (s : pystr) : s = word_prefix s ++ word_rest s.
Proof.
  induction s as [|c t IH]; [reflexivity|].
  cbn [word_prefix word_rest]. destruct (is_space c); [reflexivity|].
  cbn [app]. now rewrite <- IH.
Qed.

Lemma word_prefix_no_space (s : pystr) : no_space (word_prefix s).
Proof.
  induction s as [|c t IH]; cbn [word_prefix]; [constructor|].
  destruct (is_space c) eqn:E; constructor; assumption.
Qed.

Lemma word_rest_blank (s : pystr) : starts_blank (word_rest s).
Proof.
  induction s as [|c t IH]; cbn [word_rest]; [exact I|].
  destruct (is_space c) eqn:E; [exact E | exact IH].
Qed.

Lemma word_rest_length (s : pystr) : (length (word_rest s) <= length s)%nat.
Proof.
  induction s as [|c t IH]; cbn [word_rest]; [lia|].
  destruct (is_space c); cbn [length]; lia.
Qed.

(** A string is empty, or white space then a string, or a word then a
    string that cannot extend the word. *)
Lemma runs_ind (P : pystr -> Prop) :
  P [] ->
  (forall c t, is_space c = true -> P t -> P (c :: t)) ->
  (forall w r, w <> [] -> no_space w -> starts_blank r -> P r -> P (w ++ r)) ->
  forall s, P s.
Proof.
  intros Hnil Hsp Hw s.
  induction s as [s IH] using (induction_ltof1 _ (@length N)).
  unfold ltof in IH. destruct s as [|c t]; [exact Hnil|].
  destruct (is_space c) eqn:E.
  - apply Hsp; [exact E|]. apply IH. cbn. lia.
  - rewrite (word_prefix_rest (c :: t)). apply Hw.
    + cbn [word_prefix]. rewrite E. discriminate.
    + apply word_prefix_no_space.
    + apply word_rest_blank.
    + apply IH. cbn [word_rest]. rewrite E.
      pose proof (word_rest_length t). cbn [length]. lia.
Qed.

Lemma split_all_space (s : pystr) : forallb is_space s = true -> split s = [].
Proof.
  induction s as [|c t IH]; [reflexivity|].
  cbn [forallb]. intro H. apply andb_true_iff in H. destruct H as [Hc Ht].
  rewrite split_space by exact Hc. now apply IH.
Qed.

Lemma split_nil_all_space (s : pystr) : split s = [] -> forallb is_space s = true.
Proof.
  induction s as [|c t Hc IH|w r Hne Hw Hr IH] using runs_ind.
  - reflexivity.
  - intro H. rewrite split_space in H by exact Hc. cbn [forallb].
    now rewrite Hc, IH.
  - intro H. rewrite split_word in H by assumption. discriminate.
Qed.

(** The tokens of a string: not empty, free of white space, made of
    characters of the string. *)
Lemma split_tokens (P : N -> Prop) (s : pystr) :
  Forall P s ->
  Forall (fun t => t <> [] /\ no_space t /\ Forall P t) (split s).
Proof.
  induction s as [|c t Hc IH|w r Hne Hw Hr IH] using runs_ind; intro H.
  - constructor.
  - rewrite split_space by exact Hc. apply IH. now inversion H.
  - rewrite split_word by assumption. apply Forall_app in H.
    destruct H as [H1 H2]. constructor; [|now apply IH].
    repeat split; assumption.
Qed.

Lemma split_join (ws : list pystr) :
  Forall (fun t => t <> [] /\ no_space t) ws -> split (join [32%N] ws) = ws.
Proof.
  induction 1 as [|w r [Hne Hw] Hr IH]; [reflexivity|].
  destruct r as [|w2 r'].
  - cbn [join]. rewrite <- (app_nil_r w) at 1.
    now rewrite split_word.
  - change (join [32%N] (w :: w2 :: r'))
      with (w ++ 32%N :: join [32%N] (w2 :: r')).
    rewrite split_word; [|assumption|assumption|exact space_32].
    rewrite split_space by exact space_32. now rewrite IH.
Qed.

Lemma rstrip_all_space (s : pystr) : forallb is_space s = true -> rstrip s = [].
Proof. destruct s as [|c t]; [reflexivity|]. intro H. cbn [rstrip]. now rewrite H. Qed.

Lemma rstrip_word (w y : pystr) : no_space w -> rstrip (w ++ y) = w ++ rstrip y.
Proof.
  induction 1 as [|a w' Ha _ IH]; [reflexivity|].
  cbn [app rstrip forallb]. rewrite Ha. cbn [andb]. now rewrite IH.
Qed.

Lemma rstrip_blank (r : pystr) : starts_blank r -> starts_blank (rstrip r).
Proof.
  destruct r as [|c t]; [trivial|]. cbn [rstrip starts_blank]. intro H.
  destruct (forallb is_space (c :: t)); [exact I | exact H].
Qed.

Lemma split_lstrip (s : pystr) : split (lstrip s) = split s.
Proof.
  induction s as [|c t IH]; [reflexivity|].
  cbn [lstrip]. destruct (is_space c) eqn:E; [|reflexivity].
  now rewrite split_space.
Qed.

Lemma split_rstrip (s : pystr) : split (rstrip s) = split s.
Proof.
  induction s as [|c t Hc IH|w r Hne Hw Hr IH] using runs_ind.
  - reflexivity.
  - cbn [rstrip]. destruct (forallb is_space (c :: t)) eqn:E.
    + now rewrite (split_all_space (c :: t)) by exact E.
    + now rewrite !split_space, IH.
  - rewrite rstrip_word by exact Hw.
    rewrite !split_word; auto using rstrip_blank. now rewrite IH.
Qed.

Lemma split_strip (s : pystr) : split (strip s) = split s.
Proof. unfold strip. now rewrite split_rstrip, split_lstrip. Qed.

Lemma lstrip_Forall (P : N -> Prop) (s : pystr) : Forall P s -> Forall P (lstrip s).
Proof.
  induction 1 as [|c t Hc Ht IH]; [constructor|].
  cbn [lstrip]. destruct (is_space c); [exact IH | now constructor].
Qed.

Lemma rstrip_Forall (P : N -> Prop) (s : pystr) : Forall P s -> Forall P (rstrip s).
Proof.
  induction 1 as [|c t Hc Ht IH]; [constructor|].
  cbn [rstrip]. destruct (forallb is_space (c :: t)); now constructor.
Qed.

Lemma strip_Forall (P : N -> Prop) (s : pystr) : Forall P s -> Forall P (strip s).
Proof. intro H. unfold strip. now apply rstrip_Forall, lstrip_Forall. Qed.

Lemma collapse_word (w r : pystr) (b : bool) :
  w <> [] -> no_space w ->
  EntityResolution.collapse_from b (w ++ r) = w ++ EntityResolution.collapse_from false r.
Proof.
  intros Hne Hw. revert b. induction Hw as [|a w' Ha Hw' IH]; [congruence|].
  intro b. cbn [app EntityResolution.collapse_from]. rewrite Ha.
  destruct w' as [|a' w'']; [reflexivity|].
  now rewrite IH by discriminate.
Qed.

Lemma collapse_true_all_space (t : pystr) :
  forallb is_space t = true -> EntityResolution.collapse_from true t = [].
Proof.
  induction t as [|c t IH]; [reflexivity|].
  cbn [forallb EntityResolution.collapse_from]. intro H.
  apply andb_true_iff in H. destruct H as [Hc Ht]. rewrite Hc. now apply IH.
Qed.

Lemma collapse_true_lstrip (t : pystr) :
  lstrip (EntityResolution.collapse_from true t) = EntityResolution.collapse_from true t.
Proof.
  induction t as [|c t IH]; [reflexivity|].
  cbn [EntityResolution.collapse_from]. destruct (is_space c) eqn:E; [exact IH|].
  cbn [lstrip]. now rewrite E.
Qed.

Lemma collapse_blank (r : pystr) :
  starts_blank r -> starts_blank (EntityResolution.collapse_from false r).
Proof.
  destruct r as [|c t]; [trivial|]. cbn. intro H. now rewrite H.
Qed.

Lemma split_collapse (s : pystr) (b : bool) :
  split (EntityResolution.collapse_from b s) = split s.
Proof.
  revert b. induction s as [|c t Hc IH|w r Hne Hw Hr IH] using runs_ind; intro b.
  - reflexivity.
  - cbn [EntityResolution.collapse_from]. rewrite Hc.
    rewrite (split_space c) by exact Hc.
    destruct b; [|rewrite split_space by exact space_32]; apply IH.
  - rewrite collapse_word by assumption.
    rewrite !split_word; auto using collapse_blank. now rewrite IH.
Qed.

Lemma collapse_Forall (s : pystr) (b : bool) :
  Forall kept s -> Forall plain (EntityResolution.collapse_from b s).
Proof.
  intro H. revert b. induction H as [|c t Hc Ht IH]; intro b; [constructor|].
  cbn [EntityResolution.collapse_from]. destruct (is_space c) eqn:E.
  - destruct b; [apply IH|]. constructor; [now right | apply IH].
  - constructor; [|apply IH]. destruct Hc as [Hc|Hc]; [now left | congruence].
Qed.

(** Collapsing the white space and trimming leaves the tokens, one space
    between two of them. *)
Lemma strip_collapse (s : pystr) (b : bool) :
  strip (EntityResolution.collapse_from b s) = join [32%N] (split s).
Proof.
  unfold strip. revert b.
  induction s as [|c t Hc IH|w r Hne Hw Hr IH] using runs_ind; intro b.
  - reflexivity.
  - rewrite split_space by exact Hc.
    cbn [EntityResolution.collapse_from]. rewrite Hc.
    destruct b; [apply IH|]. cbn [lstrip]. rewrite space_32. apply IH.
  - rewrite collapse_word, split_word by assumption.
    assert (Hl : forall y, lstrip (w ++ y) = w ++ y).
    { intro y. destruct Hw as [|a w' Ha _]; [congruence|].
      cbn [app lstrip]. now rewrite Ha. }
    rewrite Hl, rstrip_word by exact Hw.
    destruct r as [|c t].
    + cbn. now rewrite app_nil_r.
    + cbn in Hr. specialize (IH false).
      rewrite split_space in * by exact Hr.
      cbn [EntityResolution.collapse_from] in *. rewrite Hr in *.
      cbn [lstrip] in IH. rewrite space_32, collapse_true_lstrip in IH.
      destruct (split t) as [|t1 ts] eqn:Et.
      * apply split_nil_all_space in Et.
        rewrite collapse_true_all_space by exact Et. cbn. now rewrite app_nil_r.
      * cbn [rstrip forallb]. rewrite space_32. cbn [andb].
        destruct (forallb is_space (EntityResolution.collapse_from true t)) eqn:Ea.
        { apply split_all_space in Ea. rewrite split_collapse in Ea. congruence. }
        rewrite IH. reflexivity.
Qed.

(** *** Dropping one suffix word *)

Lemma strip_prefix_app (w r : pystr) : EntityResolution.strip_prefix w (w ++ r) = Some r.
Proof.
  induction w as [|a w IH]; [reflexivity|].
  cbn [app EntityResolution.strip_prefix]. now rewrite N.eqb_refl.
Qed.

Lemma strip_prefix_Some (w s rest : pystr) :
  EntityResolution.strip_prefix w s = Some rest -> s = w ++ rest.
Proof.
  revert s. induction w as [|a w IH]; intros s H.
  - cbn in H. now injection H as ->.
  - destruct s as [|b s]; [discriminate|]. cbn in H.
    destruct (a =? b)%N eqn:E; [|discriminate].
    apply N.eqb_eq in E. subst b. cbn [app]. f_equal. now apply IH.
Qed.

(** A word followed by something that is not a word character can be
    read off a string in one way only. *)
Lemma word_prefix_unique (w w0 rest r : pystr) :
  Forall (fun c => is_lower_alnum c = true) w ->
  Forall (fun c => is_lower_alnum c = true) w0 ->
  EntityResolution.is_word_opt (hd_error rest) = false ->
  starts_blank r ->
  w ++ rest = w0 ++ r -> w = w0.
Proof.
  intros Hw. revert w0. induction Hw as [|a w Ha Hw IH]; intros w0 Hw0 Hrest Hr E.
  - destruct w0 as [|a0 w0]; [reflexivity|]. cbn [app] in E. subst rest.
    inversion Hw0 as [|? ? Ha0 _]; subst. cbn in Hrest.
    apply alnum_is_word in Ha0. congruence.
  - destruct w0 as [|a0 w0]; cbn [app] in E.
    + subst r. cbn in Hr. apply alnum_not_space in Ha. congruence.
    + injection E as <- E. f_equal. inversion Hw0; subst. now apply IH.
Qed.

Lemma last_alnum (w : pystr) :
  w <> [] -> Forall (fun c => is_lower_alnum c = true) w ->
  is_lower_alnum (last w 0%N) = true.
Proof.
  intros Hne H. induction H as [|a w Ha Hw IH]; [congruence|].
  destruct w as [|b w']; [exact Ha|].
  change (last (a :: b :: w') 0%N) with (last (b :: w') 0%N).
  apply IH. discriminate.
Qed.

Lemma blank_not_word (r : pystr) :
  starts_blank r -> EntityResolution.is_word_opt (hd_error r) = false.
Proof.
  destruct r as [|c t]; [reflexivity|]. cbn. apply space_not_word.
Qed.

Lemma sub_word_Forall (P : N -> Prop) (w : pystr) (s : pystr) :
  Forall P s -> forall prev k, Forall P (EntityResolution.sub_word_from w prev k s).
Proof.
  induction 1 as [|c t Hc Ht IH]; intros prev k; [constructor|].
  cbn [EntityResolution.sub_word_from]. destruct k; [|apply IH].
  destruct (EntityResolution.match_here w prev (c :: t)); [apply IH|].
  constructor; [exact Hc | apply IH].
Qed.

Section OneSuffix.

Variable w : pystr.
Hypothesis w_word : word w.

Local Abbreviation sub := (EntityResolution.sub_word_from w).

(** White space is never the start of a match. *)
Lemma sub_word_space (prev : option N) (c : N) (t : pystr) :
  is_space c = true -> sub prev 0 (c :: t) = c :: sub (Some c) 0 t.
Proof.
  intro Hc. cbn [EntityResolution.sub_word_from].
  replace (EntityResolution.match_here w prev (c :: t)) with false; [reflexivity|].
  unfold EntityResolution.match_here.
  destruct w_word as [Hne Hw]. destruct Hw as [|a w' Ha _]; [congruence|].
  cbn [EntityResolution.strip_prefix].
  destruct (a =? c)%N eqn:E; [|now rewrite andb_false_r].
  apply N.eqb_eq in E. subst c. apply alnum_not_space in Ha. congruence.
Qed.

(** The characters of a match are dropped one by one. *)
Lemma sub_word_skip (x r : pystr) (p : N) :
  sub (Some p) (length x) (x ++ r) = sub (Some (last (p :: x) 0%N)) 0 r.
Proof.
  revert p. induction x as [|b x IH]; intro p; [reflexivity|].
  cbn [length app EntityResolution.sub_word_from]. rewrite IH. reflexivity.
Qed.

(** Inside a word nothing matches: there is no boundary. *)
Lemma sub_word_inside (x r : pystr) (p : N) :
  EntityResolution.is_word p = true ->
  Forall (fun c => is_lower_alnum c = true) x ->
  sub (Some p) 0 (x ++ r) = x ++ sub (Some (last (p :: x) 0%N)) 0 r.
Proof.
  intros Hp Hx. revert p Hp. induction Hx as [|b x Hb Hx IH]; intros p Hp.
  - reflexivity.
  - cbn [app EntityResolution.sub_word_from].
    unfold EntityResolution.match_here at 1. cbn [hd_error].
    unfold EntityResolution.boundary at 1. cbn [EntityResolution.is_word_opt].
    rewrite Hp, (alnum_is_word b Hb). cbn [xorb andb].
    rewrite IH by now apply alnum_is_word. reflexivity.
Qed.

(** At the start of a word the pattern matches iff the word is [w]. *)
Lemma match_here_word (prev : option N) (w0 r : pystr) :
  EntityResolution.is_word_opt prev = false ->
  word w0 -> starts_blank r ->
  EntityResolution.match_here w prev (w0 ++ r) = PyStr.eqb w0 w.
Proof.
  intros Hprev [Hne0 Hw0] Hr. destruct w_word as [Hne Hw].
  unfold EntityResolution.match_here.
  assert (Hb : EntityResolution.boundary prev (hd_error (w0 ++ r)) = true).
  { destruct Hw0 as [|a w0' Ha _]; [congruence|]. cbn [app hd_error].
    unfold EntityResolution.boundary. rewrite Hprev.
    cbn [EntityResolution.is_word_opt]. now rewrite (alnum_is_word a Ha). }
  rewrite Hb. cbn [andb].
  assert (Hlast : EntityResolution.is_word (last w 0%N) = true)
    by now apply alnum_is_word, last_alnum.
  destruct (PyStr.eqb w0 w) eqn:E.
  - apply eqb_eq in E. subst w0. rewrite strip_prefix_app.
    unfold EntityResolution.boundary. cbn [EntityResolution.is_word_opt].
    now rewrite Hlast, blank_not_word.
  - apply eqb_neq in E.
    destruct (EntityResolution.strip_prefix w (w0 ++ r)) as [rest|] eqn:Ep;
      [|reflexivity].
    apply strip_prefix_Some in Ep.
    unfold EntityResolution.boundary. cbn [EntityResolution.is_word_opt].
    rewrite Hlast.
    destruct (EntityResolution.is_word_opt (hd_error rest)) eqn:Er; [reflexivity|].
    exfalso. apply E. symmetry.
    now apply (word_prefix_unique w w0 rest r).
Qed.

(** A whole word is dropped when it is [w] and kept otherwise. *)
Lemma sub_word_word (prev : option N) (w0 r : pystr) :
  EntityResolution.is_word_opt prev = false ->
  word w0 -> starts_blank r ->
  sub prev 0 (w0 ++ r)
  = (if PyStr.eqb w0 w then [] else w0) ++ sub (Some (last w0 0%N)) 0 r.
Proof.
  intros Hprev Hword Hr.
  pose proof (match_here_word prev w0 r Hprev Hword Hr) as Hm.
  destruct Hword as [Hne0 Hw0].
  destruct w0 as [|a w0']; [congruence|].
  cbn [app] in *. cbn [EntityResolution.sub_word_from]. rewrite Hm.
  inversion Hw0 as [|? ? Ha Hw0']; subst.
  destruct (PyStr.eqb (a :: w0') w) eqn:E.
  - apply eqb_eq in E.
    assert (Hlen : (length w - 1 = length w0')%nat)
      by (rewrite <- E; cbn [length]; lia).
    rewrite Hlen. cbn [app]. apply sub_word_skip.
  - cbn [app]. f_equal. apply sub_word_inside; [now apply alnum_is_word | exact Hw0'].
Qed.

(** On a string of letters, digits and white space, the pattern removes
    the tokens equal to [w] and no other. *)
Lemma split_sub_word (s : pystr) :
  Forall kept s ->
  forall prev,
    EntityResolution.is_word_opt prev = false \/ starts_blank s ->
    split (sub prev 0 s) = filter (fun t => negb (PyStr.eqb t w)) (split s).
Proof.
  induction s as [|c t Hc IH|w0 r Hne Hw0 Hr IH] using runs_ind;
    intros Hk prev Hprev.
  - reflexivity.
  - rewrite sub_word_space by exact Hc. rewrite !split_space by exact Hc.
    apply IH; [now inversion Hk|]. left. cbn. now apply space_not_word.
  - apply Forall_app in Hk. destruct Hk as [Hk0 Hkr].
    assert (Hword : word w0).
    { split; [exact Hne|]. clear - Hw0 Hk0.
      induction Hw0 as [|a x Ha _ IHx]; [constructor|].
      inversion Hk0 as [|? ? Hka Hkx]; subst. constructor; [|now apply IHx].
      destruct Hka as [Hka|Hka]; [exact Hka | congruence]. }
    assert (Hp : EntityResolution.is_word_opt prev = false).
    { destruct Hprev as [Hp|Hp]; [exact Hp|]. exfalso.
      destruct Hw0 as [|a x Ha _]; [congruence|]. cbn in Hp. congruence. }
    rewrite sub_word_word by assumption.
    rewrite (split_word w0 r) by assumption. cbn [filter].
    assert (Hrest : split (sub (Some (last w0 0%N)) 0 r)
                    = filter (fun t => negb (PyStr.eqb t w)) (split r)).
    { apply IH; [exact Hkr | now right]. }
    assert (Hblank : starts_blank (sub (Some (last w0 0%N)) 0 r)).
    { destruct r as [|c t]; [exact I|]. cbn in Hr.
      rewrite sub_word_space by exact Hr. exact Hr. }
    destruct (PyStr.eqb w0 w); cbn [negb app].
    + exact Hrest.
    + rewrite split_word by assumption. now rewrite Hrest.
Qed.

End OneSuffix.

(** *** The normal form of a name *)

Lemma filter_filter_and {A : Type} (f g : A -> bool) (l : list A) :
  filter f (filter g l) = filter (fun x => g x && f x) l.
Proof.
  induction l as [|x l IH]; [reflexivity|].
  cbn [filter]. destruct (g x); cbn [filter andb]; now rewrite IH.
Qed.

Lemma filter_idem {A : Type} (f : A -> bool) (l : list A) :
  filter f (filter f l) = filter f l.
Proof.
  rewrite filter_filter_and. apply filter_ext. intro x. now destruct (f x).
Qed.

Lemma suffixes_are_words : Forall word EntityResolution.STRIP_SUFFIXES.
Proof.
  unfold EntityResolution.STRIP_SUFFIXES. cbn [map].
  repeat (constructor;
          [split; [intro; discriminate | vm_compute; repeat constructor]|]).
  constructor.
Qed.

(** All the suffix patterns, one after the other, remove the tokens that
    are suffix words and keep the others. *)
Lemma split_sub_words (ws : list pystr) :
  Forall word ws ->
  forall s,
    Forall kept s ->
    let out := fold_left (fun name w => EntityResolution.sub_word w name) ws s in
    Forall kept out
    /\ split out = filter (fun t => negb (mem t ws)) (split s).
Proof.
  induction 1 as [|w ws Hw Hws IH]; intros s Hs; cbn [fold_left].
  - split; [exact Hs|]. symmetry. generalize (split s). intro l.
    induction l as [|t l IHl]; [reflexivity|]. cbn in *. now rewrite IHl.
  - destruct (IH (EntityResolution.sub_word w s)) as [Hk Hsplit].
    { unfold EntityResolution.sub_word. now apply sub_word_Forall. }
    split; [exact Hk|]. cbv zeta in Hsplit. rewrite Hsplit.
    unfold EntityResolution.sub_word.
    rewrite (split_sub_word w Hw s Hs None) by now left.
    rewrite filter_filter_and. apply filter_ext. intro t.
    unfold mem. cbn [existsb]. now rewrite negb_orb.
Qed.

(** The normalised name is made of the tokens of the lowercased, cleaned
    name that are not suffix words, joined by single spaces. *)
Lemma normalise_str_tokens (s : pystr) :
  EntityResolution.normalise_str s
  = join [32%N]
      (filter not_suffix
         (split (EntityResolution.sub_non_alnum (strip (lower s))))).
Proof.
  unfold EntityResolution.normalise_str, EntityResolution.collapse_spaces.
  rewrite strip_collapse.
  destruct (split_sub_words _ suffixes_are_words
              (EntityResolution.sub_non_alnum (strip (lower s)))
              (sub_non_alnum_kept _)) as [_ H].
  cbv zeta in H. rewrite H. reflexivity.
Qed.

Lemma kept_tokens_are_words (s : pystr) (f : pystr -> bool) :
  Forall kept s -> Forall word (filter f (split s)).
Proof.
  intro H. apply split_tokens in H.
  apply Forall_forall. intros t Ht. apply filter_In in Ht. destruct Ht as [Ht _].
  rewrite Forall_forall in H. destruct (H t Ht) as (Hne & Hns & Hk).
  split; [exact Hne|]. clear - Hns Hk.
  induction Hns as [|a x Ha _ IH]; [constructor|].
  inversion Hk as [|? ? Hka Hkx]; subst. constructor; [|now apply IH].
  destruct Hka as [Hka|Hka]; [exact Hka | congruence].
Qed.

Lemma join_plain (ws : list pystr) : Forall word ws -> Forall plain (join [32%N] ws).
Proof.
  induction 1 as [|w r [_ Hw] Hr IH]; [constructor|].
  assert (Hp : Forall plain w).
  { eapply Forall_impl; [|exact Hw]. intros c Hc. now left. }
  destruct r as [|w2 r']; [exact Hp|].
  change (join [32%N] (w :: w2 :: r')) with (w ++ 32%N :: join [32%N] (w2 :: r')).
  apply Forall_app. split; [exact Hp|]. constructor; [now right | exact IH].
Qed.

Lemma words_no_space (ws : list pystr) :
  Forall word ws -> Forall (fun t => t <> [] /\ no_space t) ws.
Proof.
  intro H. eapply Forall_impl; [|exact H]. intros t [Hne Ht].
  split; [exact Hne|]. eapply Forall_impl; [|exact Ht].
  intros c Hc. now apply alnum_not_space.
Qed.

(** A string of words joined by single spaces goes through the first
    steps of the normalisation with its tokens unchanged. *)
Lemma cleaned_tokens_of_join (ws : list pystr) :
  Forall word ws ->
  split (EntityResolution.sub_non_alnum (strip (lower (join [32%N] ws)))) = ws.
Proof.
  intro H. pose proof (join_plain ws H) as Hp.
  rewrite (lower_plain _ Hp).
  rewrite sub_non_alnum_id.
  - rewrite split_strip. apply split_join. now apply words_no_space.
  - apply strip_Forall. eapply Forall_impl; [|exact Hp]. apply plain_kept.
Qed.

Lemma normalise_str_idempotent (s : pystr) :
  EntityResolution.normalise_str (EntityResolution.normalise_str s)
  = EntityResolution.normalise_str s.
Proof.
  rewrite (normalise_str_tokens s).
  set (ws := filter not_suffix _).
  assert (Hws : Forall word ws)
    by (apply kept_tokens_are_words, sub_non_alnum_kept).
  rewrite normalise_str_tokens, (cleaned_tokens_of_join ws Hws).
  unfold ws. now rewrite filter_idem.
Qed.

(** C10: normalise_name is idempotent on strings; its result is a list
    of words made of the characters a-z and 0-9, none of them a corporate
    suffix, joined by single spaces (so it is lowercase, free of
    punctuation, collapsed and trimmed); on an input that is not a string
    it is the empty string. *)
Theorem C10_normalise_name_idempotent :
  (forall s : pystr,
      EntityResolution.normalise_name
        (EntityResolution.PyString
           (EntityResolution.normalise_name (EntityResolution.PyString s)))
      = EntityResolution.normalise_name (EntityResolution.PyString s))
  /\ (forall s : pystr,
         exists ws,
           EntityResolution.normalise_name (EntityResolution.PyString s)
           = join [32%N] ws
           /\ Forall word ws
           /\ Forall (fun t => ~ In t EntityResolution.STRIP_SUFFIXES) ws)
  /\ EntityResolution.normalise_name EntityResolution.PyNone = []
  /\ (forall x, EntityResolution.normalise_name (EntityResolution.PyNumber x) = []).
Proof.
  split; [|split; [|split]].
  - intro s. cbn [EntityResolution.normalise_name]. apply normalise_str_idempotent.
  - intro s. cbn [EntityResolution.normalise_name].
    rewrite normalise_str_tokens. eexists. split; [reflexivity|]. split.
    + apply kept_tokens_are_words, sub_non_alnum_kept.
    + apply Forall_forall. intros t Ht. apply filter_In in Ht.
      destruct Ht as [_ Ht]. unfold not_suffix in Ht.
      apply negb_true_iff in Ht. intro Hin. apply mem_In in Hin. congruence.
  - reflexivity.
  - reflexivity.
Qed.

(** ** Exact matches (entity_resolution.py) *)

Lemma exact_match_first (entries : list EntityResolution.entry) (q : pystr) :
  (exists e, In e entries /\ EntityResolution.e_norm e = q) ->
  exists e,
    In e entries /\ EntityResolution.e_norm e = q
    /\ EntityResolution.exact_match entries q
       = Some (EntityResolution.e_id e, EntityResolution.e_raw e, 1).
Proof.
  induction entries as [|e0 r IH]; intros (e & Hin & He); [destruct Hin|].
  cbn [EntityResolution.exact_match].
  destruct (PyStr.eqb (EntityResolution.e_norm e0) q) eqn:E.
  - apply eqb_eq in E. exists e0. split; [now left|]. now split.
  - apply eqb_neq in E. destruct Hin as [Hin|Hin]; [congruence|].
    destruct IH as (e1 & Hin1 & He1 & Hm); [now exists e|].
    exists e1. split; [now right|]. now split.
Qed.

(** C4, as stated, fails: the query "a" normalises to "a", the same
    string as the indexed company "A", but it has no token of more than
    one character, and find_matches returns no candidate. *)
Lemma C4_query_without_tokens_finds_nothing :
  (exists e,
      In e (snd Samples.single_letter_index)
      /\ EntityResolution.e_norm e
         = EntityResolution.normalise_name (EntityResolution.PyString (lit "a")))
  /\ EntityResolution.find_matches (EntityResolution.PyString (lit "a"))
       (fst Samples.single_letter_index) (snd Samples.single_letter_index)
       EntityResolution.MATCH_THRESHOLD 5 = [].
Proof.
  split.
  - eexists. split; [left; reflexivity|]. vm_compute. reflexivity.
  - vm_compute. reflexivity.
Qed.

(** C4 (amended): when the query has at least one token (a word of more
    than one character left after normalisation) and some entry's
    normalised string equals the query's, find_matches returns exactly one
    candidate, an entry with that normalised string, with score 1, and
    computes no Jaccard score, whatever the index, top_k and threshold
    are. *)
Theorem C4_exact_match_short_circuit :
  forall query ix entries threshold top_k,
    EntityResolution.tokenise (EntityResolution.normalise_name query) <> [] ->
    (exists e,
        In e entries
        /\ EntityResolution.e_norm e = EntityResolution.normalise_name query) ->
    exists e,
      In e entries
      /\ EntityResolution.e_norm e = EntityResolution.normalise_name query
      /\ EntityResolution.find_matches query ix entries threshold top_k
         = [(EntityResolution.e_id e, EntityResolution.e_raw e, 1)]
      /\ snd (EntityResolution.find_matches_counted query ix entries threshold top_k)
         = O.
Proof.
  intros query ix entries threshold top_k Htok Hex.
  destruct (exact_match_first entries _ Hex) as (e & Hin & He & Hm).
  exists e. split; [exact Hin|]. split; [exact He|].
  unfold EntityResolution.find_matches, EntityResolution.find_matches_counted.
  destruct (EntityResolution.tokenise (EntityResolution.normalise_name query));
    [congruence|].
  rewrite Hm. split; reflexivity.
Qed.

Lemma C4_exact_match_short_circuit_witness :
  exists e,
    In e (snd Samples.xyz_index)
    /\ EntityResolution.e_norm e
       = EntityResolution.normalise_name
           (EntityResolution.PyString (lit "xyz limited"))
    /\ EntityResolution.find_matches
         (EntityResolution.PyString (lit "xyz limited"))
         (fst Samples.xyz_index) (snd Samples.xyz_index) (6 # 10) 1
       = [(EntityResolution.e_id e, EntityResolution.e_raw e, 1)]
    /\ snd (EntityResolution.find_matches_counted
              (EntityResolution.PyString (lit "xyz limited"))
              (fst Samples.xyz_index) (snd Samples.xyz_index) (6 # 10) 1)
       = O.
Proof.
  apply (C4_exact_match_short_circuit
           (EntityResolution.PyString (lit "xyz limited"))
           (fst Samples.xyz_index) (snd Samples.xyz_index) (6 # 10) 1).
  - vm_compute. discriminate.
  - eexists. split; [left; reflexivity|]. vm_compute. reflexivity.
Defined.

(* ================================================================== *)
(** * Part III: further properties of the scoring code                 *)
(* ================================================================== *)

(** ** Clipping and rounding *)

Lemma round2_le_hundredths (x : Q) (a b : Z) :
  inject_Z a <= x * 100 -> x * 100 <= inject_Z b ->
  inject_Z a / 100 <= round2 x /\ round2 x <= inject_Z b / 100.
Proof.
  intros Ha Hb. unfold round2.
  destruct (round_half_even_between (x * 100) a b Ha Hb) as [L U].
  rewrite Zle_Qle in L, U. unfold Qdiv. change (/ 100) with (1 # 100).
  split; lra.
Qed.

(** ** ml_model.py: score and tier of a batch row *)

Lemma batch_raw_score_range (r : MlModel.row) :
  (forall k, MlModel.flags r k = 0%Z \/ MlModel.flags r k = 1%Z) ->
  0 <= MlModel.anomaly_score r -> MlModel.anomaly_score r <= 1 ->
  let raw := inject_Z (MlModel.rule_score r) / inject_Z MlModel.max_rule * 85
             + MlModel.anomaly_score r * 15 in
  0 <= raw /\ raw <= 100.
Proof.
  intros Hf Ha0 Ha1 raw. subst raw. rewrite batch_rule_score. cbv zeta.
  pose proof (Hf MlModel.single_bidder). pose proof (Hf MlModel.zero_bidders).
  pose proof (Hf MlModel.short_window). pose proof (Hf MlModel.non_open).
  pose proof (Hf MlModel.high_value). pose proof (Hf MlModel.buyer_concentration).
  pose proof (Hf MlModel.round_amount). pose proof (Hf MlModel.ml_anomaly).
  match goal with |- context [inject_Z ?z / _] => set (ws := z) end.
  assert (Hz : (0 <= ws <= 110)%Z) by (unfold ws; lia).
  destruct Hz as [Hz0 Hz1]. rewrite Zle_Qle in Hz0, Hz1.
  change (inject_Z 0) with 0 in Hz0. change (inject_Z 110) with 110 in Hz1.
  change (inject_Z MlModel.max_rule) with 110.
  unfold Qdiv. change (/ 110) with (1 # 110). split; lra.
Qed.

(** X1: for a batch row whose eight flags are 0 or 1 and whose anomaly
    score lies in [0,1], the weighted sum is already within 0 and 100, so
    the clip of [compute_risk_score] leaves it as it is, and the score
    lies within one hundredth of that sum. *)
Theorem batch_clip_is_idle :
  forall r : MlModel.row,
    (forall k, MlModel.flags r k = 0%Z \/ MlModel.flags r k = 1%Z) ->
    0 <= MlModel.anomaly_score r -> MlModel.anomaly_score r <= 1 ->
    let raw := inject_Z (MlModel.rule_score r) / inject_Z MlModel.max_rule * 85
               + MlModel.anomaly_score r * 15 in
    0 <= raw /\ raw <= 100
    /\ clip 0 100 raw = raw
    /\ raw - (1 # 100) < fst (MlModel.compute_risk_score r)
    /\ fst (MlModel.compute_risk_score r) < raw + (1 # 100).
Proof.
  intros r Hf Ha0 Ha1 raw. cbn [MlModel.compute_risk_score fst].
  unfold MlModel.risk_score. fold raw.
  destruct (batch_raw_score_range r Hf Ha0 Ha1) as [L U]. fold raw in L, U.
  rewrite (clip_id 0 100 raw L U).
  destruct (round2_close raw) as [C1 C2].
  repeat split; assumption.
Qed.

Lemma batch_clip_is_idle_witness :
  clip 0 100
    (inject_Z (MlModel.rule_score Samples.row_scoring_30)
     / inject_Z MlModel.max_rule * 85
     + MlModel.anomaly_score Samples.row_scoring_30 * 15)
  = inject_Z (MlModel.rule_score Samples.row_scoring_30)
    / inject_Z MlModel.max_rule * 85
    + MlModel.anomaly_score Samples.row_scoring_30 * 15.
Proof.
  apply (batch_clip_is_idle Samples.row_scoring_30).
  - intro k. destruct k; cbn; auto.
  - cbn. discriminate.
  - cbn. discriminate.
Defined.

Lemma fold_Qmin_le (l : list Q) (a : Q) :
  fold_left Qmin l a <= a /\ forall x, In x l -> fold_left Qmin l a <= x.
Proof.
  revert a. induction l as [|y t IH]; intro a; cbn [fold_left].
  - split; [apply Qle_refl | intros x []].
  - destruct (IH (Qmin a y)) as [H1 H2]. split.
    + apply Qle_trans with (Qmin a y); [exact H1 | apply Q.le_min_l].
    + intros x [<-|Hx]; [|now apply H2].
      apply Qle_trans with (Qmin a y); [exact H1 | apply Q.le_min_r].
Qed.

Lemma array_min_le (l : list Q) (x : Q) : In x l -> MlAnomaly.array_min l <= x.
Proof.
  destruct l as [|a t]; [intros []|]. cbn [MlAnomaly.array_min].
  destruct (fold_Qmin_le t a) as [H1 H2].
  intros [<-|Hx]; [exact H1 | now apply H2].
Qed.

Lemma array_max_ge (l : list Q) (x : Q) : In x l -> x <= MlAnomaly.array_max l.
Proof.
  destruct l as [|a t]; [intros []|]. cbn [MlAnomaly.array_max].
  destruct (fold_Qmax_ge t a) as [H1 H2].
  intros [<-|Hx]; [exact H1 | now apply H2].
Qed.

(** The tier of a score within 0 and 100 is the label of its interval. *)
Lemma batch_tier_of_score (r : MlModel.row) :
  let s := MlModel.risk_score r in
  let t := MlModel.risk_tier r in
  (s <= 30 /\ t = Some MlModel.Low)
  \/ (30 < s /\ s <= 60 /\ t = Some MlModel.Medium)
  \/ (60 < s /\ t = Some MlModel.High).
Proof.
  intros s t. subst s t. unfold MlModel.risk_tier.
  destruct (batch_risk_score_range r) as [L U].
  destruct (batch_cut_intervals _ L U) as (H1 & H2 & H3).
  destruct (Qlt_le_dec 30 (MlModel.risk_score r)) as [G30|G30].
  - destruct (Qlt_le_dec 60 (MlModel.risk_score r)) as [G60|G60].
    + right. right. split; [exact G60 | now apply H3].
    + right. left. split; [exact G30|]. split; [exact G60 | now apply H2].
  - left. split; [exact G30 | now apply H1].
Qed.

(** X2: the anomaly scores of a batch whose decision scores lie within -1
    and 1.  When all decision scores are equal, every anomaly score is NaN
    and no row gets a risk score or a tier.  Otherwise every anomaly
    score lies within 0 and 1, and the row gets a score and a tier: Low up
    to 30, Medium above 30 and up to 60, High above 60. *)
Theorem batch_tier_defined_unless_nan :
  forall (flags : MlModel.flag -> Z) (raw_scores : list Q) (a : option Q),
    Forall (fun x => -1 <= x /\ x <= 1) raw_scores ->
    In a (MlAnomaly.anomaly_scores raw_scores) ->
    let s := fst (MlAnomaly.compute_risk_score flags a) in
    let t := snd (MlAnomaly.compute_risk_score flags a) in
    (MlAnomaly.array_max raw_scores == MlAnomaly.array_min raw_scores ->
     a = None /\ s = None /\ t = None)
    /\ (~ MlAnomaly.array_max raw_scores == MlAnomaly.array_min raw_scores ->
        exists v sc : Q,
          a = Some v /\ 0 <= v /\ v <= 1 /\ s = Some sc
          /\ ((sc <= 30 /\ t = Some MlModel.Low)
              \/ (30 < sc /\ sc <= 60 /\ t = Some MlModel.Medium)
              \/ (60 < sc /\ t = Some MlModel.High))).
Proof.
  intros flags raw_scores a _ Hin s t.
  unfold MlAnomaly.anomaly_scores in Hin. apply in_map_iff in Hin.
  destruct Hin as (x & Ha & Hx).
  pose proof (array_min_le raw_scores x Hx) as Hlo.
  pose proof (array_max_ge raw_scores x Hx) as Hhi.
  set (lo := MlAnomaly.array_min raw_scores) in *.
  set (hi := MlAnomaly.array_max raw_scores) in *.
  destruct (Qeq_bool (hi - lo) 0) eqn:E.
  - apply Qeq_bool_iff in E. split.
    + intros _. subst a s t. cbn. auto.
    + intro N. exfalso. apply N. lra.
  - assert (N : ~ hi - lo == 0).
    { intro H. apply Qeq_bool_iff in H. congruence. }
    split.
    + intro H. exfalso. apply N. lra.
    + intros _. subst a s t.
      assert (Hpos : 0 < hi - lo) by lra.
      assert (Hq : 0 <= (x - lo) / (hi - lo) /\ (x - lo) / (hi - lo) <= 1).
      { split; [apply Qle_shift_div_l; lra | apply Qle_shift_div_r; lra]. }
      eexists. eexists. split; [reflexivity|].
      split; [lra|]. split; [lra|].
      cbn [MlAnomaly.compute_risk_score fst snd]. split; [reflexivity|].
      apply batch_tier_of_score.
Qed.

Lemma batch_tier_defined_unless_nan_witness :
  @None Q = None
  /\ fst (MlAnomaly.compute_risk_score (fun _ => 0%Z) None) = None
  /\ snd (MlAnomaly.compute_risk_score (fun _ => 0%Z) None) = None.
Proof.
  apply (batch_tier_defined_unless_nan (fun _ => 0%Z) [1 # 4; 1 # 4] None).
  - repeat constructor; discriminate.
  - left. reflexivity.
  - reflexivity.
Defined.

(** ** risk_engine.py: what one submission can score *)

Lemma Qeq_bool_one_zero (n : Q) : Qeq_bool n 1 = true -> Qeq_bool n 0 = true -> False.
Proof.
  intros H1 H0. apply Qeq_bool_iff in H1. apply Qeq_bool_iff in H0.
  rewrite H1 in H0. discriminate.
Qed.

Lemma single_flags_exclusive_bound pc db amount n d m c b :
  let f := RiskEngine.compute_flags pc db amount n d m c b in
  (f RiskEngine.single_bidder = 0%Z \/ f RiskEngine.zero_bidders = 0%Z)
  /\ (RiskEngine.weighted_sum f <= 75)%Z
  /\ snd (fst (RiskEngine.compute_rule_flags pc db amount n d m c b)) <= 6711 # 100.
Proof.
  intros f.
  assert (Hex : f RiskEngine.single_bidder = 0%Z \/ f RiskEngine.zero_bidders = 0%Z).
  { subst f. cbn [RiskEngine.compute_flags].
    destruct (Qeq_bool n 1) eqn:E1; [|now left].
    destruct (Qeq_bool n 0) eqn:E0; [|now right].
    exfalso. exact (Qeq_bool_one_zero n E1 E0). }
  assert (Hbin : forall k, f k = 0%Z \/ f k = 1%Z)
    by (intro k; apply single_flags_binary).
  assert (Hws : (0 <= RiskEngine.weighted_sum f <= 75)%Z).
  { rewrite single_weighted_sum.
    pose proof (Hbin RiskEngine.single_bidder). pose proof (Hbin RiskEngine.zero_bidders).
    pose proof (Hbin RiskEngine.short_window). pose proof (Hbin RiskEngine.non_open).
    pose proof (Hbin RiskEngine.high_value).
    pose proof (Hbin RiskEngine.buyer_concentration).
    pose proof (Hbin RiskEngine.round_amount). lia. }
  split; [exact Hex|]. split; [lia|].
  cbn [RiskEngine.compute_rule_flags fst snd]. fold f.
  unfold RiskEngine.score_of.
  destruct Hws as [H0 H75]. rewrite Zle_Qle in H0, H75.
  change (inject_Z 0) with 0 in H0. change (inject_Z 75) with 75 in H75.
  change (inject_Z RiskEngine.max_weight) with 95.
  match goal with |- round2 ?x <= _ =>
    destruct (round2_le_hundredths x 0 6711) as [_ U] end.
  - change (inject_Z 0) with 0. unfold Qdiv. change (/ 95) with (1 # 95). lra.
  - change (inject_Z 6711) with 6711. unfold Qdiv. change (/ 95) with (1 # 95). lra.
  - exact U.
Qed.

(** X3: on the single-submission path the flags single_bidder and
    zero_bidders are never set together, so the weighted sum is at most
    75 and the score never exceeds 67.11; a submission with one bidder
    that sets the six other compatible flags scores exactly 67.11. *)
Theorem single_score_at_most_67_11 :
  (forall pc db amount n d m c b,
      let f := RiskEngine.compute_flags pc db amount n d m c b in
      (f RiskEngine.single_bidder = 0%Z \/ f RiskEngine.zero_bidders = 0%Z)
      /\ (RiskEngine.weighted_sum f <= 75)%Z
      /\ snd (fst (RiskEngine.compute_rule_flags pc db amount n d m c b))
         <= 6711 # 100)
  /\ snd (fst (RiskEngine.compute_rule_flags MoreSamples.percentile_100
                 MoreSamples.roads_table 200000 1 1 (lit "Limited")
                 (lit "Roads") (lit "PWD")))
     == 6711 # 100.
Proof.
  split.
  - intros. apply single_flags_exclusive_bound.
  - vm_compute. reflexivity.
Qed.

(** X4: a category whose 95th percentile is zero is treated like a
    category without records: the zero is falsy, the threshold becomes
    the sentinel 10^12, and high_value does not fire for any amount up to
    10^12 although such an amount may exceed the percentile. *)
Theorem zero_percentile_uses_sentinel :
  forall pc db category,
    RiskEngine.non_null (map RiskEngine.t_amount (RiskEngine.in_category db category))
      <> [] ->
    pc (RiskEngine.non_null
          (map RiskEngine.t_amount (RiskEngine.in_category db category))) == 0 ->
    RiskEngine.p95_val (RiskEngine.fetch_p95 pc db category) = 1000000000000
    /\ forall amount n d m b,
        amount <= 1000000000000 ->
        RiskEngine.compute_flags pc db amount n d m category b RiskEngine.high_value
        = 0%Z.
Proof.
  intros pc db category Hne Hz.
  assert (Hp : RiskEngine.p95_val (RiskEngine.fetch_p95 pc db category)
               = 1000000000000).
  { unfold RiskEngine.fetch_p95.
    destruct (RiskEngine.non_null _) as [|x xs] eqn:E; [congruence|].
    cbn [RiskEngine.p95_val]. apply Qeq_bool_iff in Hz. now rewrite Hz. }
  split; [exact Hp|]. intros amount n d m b Ha.
  cbn [RiskEngine.compute_flags]. rewrite Hp.
  destruct (Qltb _ amount) eqn:E; [|reflexivity].
  apply Qltb_lt in E. lra.
Qed.

Lemma zero_percentile_uses_sentinel_witness :
  RiskEngine.compute_flags Samples.no_percentile MoreSamples.roads_table 500
    1 10 (lit "Open Tender") (lit "Roads") (lit "PWD") RiskEngine.high_value = 0%Z.
Proof.
  destruct (zero_percentile_uses_sentinel Samples.no_percentile
              MoreSamples.roads_table (lit "Roads")) as [_ H].
  - cbn. discriminate.
  - reflexivity.
  - apply (H 500 1 10 (lit "Open Tender") (lit "PWD")). cbn. discriminate.
Defined.

(** ** Buyer concentration: at most one buyer per category *)

Lemma filter_disjoint_length {A : Type} (f g : A -> bool) (l : list A) :
  (forall x, f x = true -> g x = true -> False) ->
  (length (filter f l) + length (filter g l) <= length l)%nat.
Proof.
  intro H. induction l as [|x l IH]; cbn [filter length]; [lia|].
  destruct (f x) eqn:Ef; destruct (g x) eqn:Eg; cbn [length]; try lia.
  exfalso. exact (H x Ef Eg).
Qed.

Lemma share_above_07 (k n : nat) :
  (0 < n)%nat ->
  Qltb (7 # 10) (inject_Z (Z.of_nat k) / inject_Z (Z.of_nat n)) = true
  <-> (7 * n < 10 * k)%nat.
Proof.
  intro Hn. rewrite Qltb_lt.
  assert (HN : 0 < inject_Z (Z.of_nat n)).
  { change 0 with (inject_Z 0). rewrite <- Zlt_Qlt. lia. }
  split.
  - intro H.
    assert (H' : (7 # 10) * inject_Z (Z.of_nat n) < inject_Z (Z.of_nat k)).
    { apply (Qmult_lt_compat_r _ _ _ HN) in H.
      unfold Qdiv in H. rewrite <- Qmult_assoc in H.
      rewrite (Qmult_comm (/ _)), Qmult_inv_r, Qmult_1_r in H; [exact H|].
      intro E. rewrite E in HN. discriminate. }
    unfold Qlt, Qmult, inject_Z in H'. cbn [Qnum Qden] in H'. lia.
  - intro H. apply Qlt_shift_div_l; [exact HN|].
    unfold Qlt, Qmult, inject_Z. cbn [Qnum Qden]. lia.
Qed.

(** X5: on the single-submission path at most one buyer of a category
    can have the buyer_concentration flag: two buyers whose share of the
    category's tenders is above 0.7 are the same buyer. *)
Theorem single_concentration_one_buyer :
  forall pc db category b1 b2 amount1 n1 d1 m1 amount2 n2 d2 m2,
    RiskEngine.compute_flags pc db amount1 n1 d1 m1 category b1
      RiskEngine.buyer_concentration = 1%Z ->
    RiskEngine.compute_flags pc db amount2 n2 d2 m2 category b2
      RiskEngine.buyer_concentration = 1%Z ->
    b1 = b2.
Proof.
  intros pc db category b1 b2 a1 n1 d1 m1 a2 n2 d2 m2 H1 H2.
  cbn [RiskEngine.compute_flags] in H1, H2.
  apply b2z_one in H1. apply b2z_one in H2.
  unfold RiskEngine.fetch_share in H1, H2.
  set (rows := RiskEngine.in_category db category) in *.
  destruct (length rows) as [|n] eqn:En; [discriminate|].
  apply share_above_07 in H1; [|lia]. apply share_above_07 in H2; [|lia].
  destruct (list_eq_dec N.eq_dec b1 b2) as [E|E]; [exact E|]. exfalso.
  pose proof (filter_disjoint_length
                (fun t => PyStr.eqb (RiskEngine.t_buyer_name t) b1)
                (fun t => PyStr.eqb (RiskEngine.t_buyer_name t) b2) rows) as Hd.
  rewrite En in Hd.
  assert (Hdis : forall x,
             PyStr.eqb (RiskEngine.t_buyer_name x) b1 = true ->
             PyStr.eqb (RiskEngine.t_buyer_name x) b2 = true -> False).
  { intros x Hx1 Hx2. apply eqb_eq in Hx1. apply eqb_eq in Hx2. congruence. }
  specialize (Hd Hdis). lia.
Qed.

Lemma single_concentration_one_buyer_witness :
  lit "PWD" = lit "PWD".
Proof.
  apply (single_concentration_one_buyer Samples.no_percentile
           MoreSamples.roads_table (lit "Roads") (lit "PWD") (lit "PWD")
           100 1 10 (lit "Open") 200 2 20 (lit "Limited")).
  - vm_compute. reflexivity.
  - vm_compute. reflexivity.
Defined.

(** X6: on the single-submission path buyer_concentration does not fire
    in a category without prior records (the share is coalesced to 0),
    and it fires for every buyer that placed all the prior tenders of a
    category, however few they are. *)
Theorem single_concentration_edges :
  forall pc db category buyer amount n d m,
    (RiskEngine.in_category db category = [] ->
     RiskEngine.compute_flags pc db amount n d m category buyer
       RiskEngine.buyer_concentration = 0%Z)
    /\ (RiskEngine.in_category db category <> [] ->
        Forall (fun t => RiskEngine.t_buyer_name t = buyer)
               (RiskEngine.in_category db category) ->
        RiskEngine.compute_flags pc db amount n d m category buyer
          RiskEngine.buyer_concentration = 1%Z).
Proof.
  intros pc db category buyer amount n d m. cbn [RiskEngine.compute_flags].
  unfold RiskEngine.fetch_share. split.
  - intros ->. reflexivity.
  - intros Hne Hall.
    set (rows := RiskEngine.in_category db category) in *.
    assert (Hf : filter (fun t => PyStr.eqb (RiskEngine.t_buyer_name t) buyer) rows
                 = rows).
    { clear Hne. induction Hall as [|t l Ht _ IH]; [reflexivity|].
      cbn [filter]. rewrite Ht, eqb_refl. now rewrite IH. }
    rewrite Hf. destruct rows as [|t l]; [congruence|].
    apply b2z_one. apply share_above_07; cbn [length]; lia.
Qed.

Lemma single_concentration_edges_witness :
  RiskEngine.compute_flags Samples.no_percentile [] 100 1 10 (lit "Open")
    (lit "Roads") (lit "PWD") RiskEngine.buyer_concentration = 0%Z.
Proof.
  destruct (single_concentration_edges Samples.no_percentile [] (lit "Roads")
              (lit "PWD") 100 1 10 (lit "Open")) as [H _].
  apply H. reflexivity.
Defined.

(** ** Sorting, median and quantile (ml_model.py) *)

Lemma insert_sorted_In (x y : Q) (l : list Q) :
  In y (MlModel.insert_sorted x l) <-> y = x \/ In y l.
Proof.
  induction l as [|z t IH]; cbn [MlModel.insert_sorted].
  - cbn. intuition.
  - destruct (Qle_bool x z); cbn [In]; [intuition|].
    rewrite IH. intuition.
Qed.

Lemma sort_In (y : Q) (l : list Q) : In y (MlModel.sort l) <-> In y l.
Proof.
  unfold MlModel.sort. induction l as [|x t IH]; cbn [fold_right]; [reflexivity|].
  rewrite insert_sorted_In, IH. cbn. intuition.
Qed.

Lemma insert_sorted_length (x : Q) (l : list Q) :
  length (MlModel.insert_sorted x l) = S (length l).
Proof.
  induction l as [|z t IH]; cbn [MlModel.insert_sorted]; [reflexivity|].
  destruct (Qle_bool x z); cbn [length]; [reflexivity | now rewrite IH].
Qed.

Lemma sort_length (l : list Q) : length (MlModel.sort l) = length l.
Proof.
  unfold MlModel.sort. induction l as [|x t IH]; cbn [fold_right length];
    [reflexivity|]. now rewrite insert_sorted_length, IH.
Qed.

Lemma insert_sorted_sorted (x : Q) (l : list Q) :
  StronglySorted Qle l -> StronglySorted Qle (MlModel.insert_sorted x l).
Proof.
  induction 1 as [|z t Ht IH Hz]; cbn [MlModel.insert_sorted].
  - constructor; constructor.
  - destruct (Qle_bool x z) eqn:E.
    + apply Qle_bool_iff in E. constructor.
      * constructor; assumption.
      * constructor; [exact E|]. eapply Forall_impl; [|exact Hz].
        intros a Ha. now apply Qle_trans with z.
    + apply Qle_bool_gt in E. constructor; [exact IH|].
      apply Forall_forall. intros a Ha. apply insert_sorted_In in Ha.
      destruct Ha as [->|Ha]; [now apply Qlt_le_weak|].
      rewrite Forall_forall in Hz. now apply Hz.
Qed.

Lemma sort_sorted (l : list Q) : StronglySorted Qle (MlModel.sort l).
Proof.
  unfold MlModel.sort. induction l as [|x t IH]; cbn [fold_right];
    [constructor | now apply insert_sorted_sorted].
Qed.

Lemma sorted_nth_le (l : list Q) :
  StronglySorted Qle l ->
  forall i j, (i <= j)%nat -> (j < length l)%nat -> nth i l 0 <= nth j l 0.
Proof.
  induction 1 as [|z t Ht IH Hz]; intros i j Hij Hj; [cbn in Hj; lia|].
  destruct j as [|j].
  - assert (i = 0)%nat by lia. subst i. apply Qle_refl.
  - cbn [length] in Hj. destruct i as [|i].
    + cbn [nth]. rewrite Forall_forall in Hz. apply Hz. apply nth_In. lia.
    + cbn [nth]. apply IH; lia.
Qed.

Lemma drop_nan_In (v : Q) (col : list (option Q)) :
  In v (MlModel.drop_nan col) <-> In (Some v) col.
Proof.
  induction col as [|x t IH]; [reflexivity|].
  destruct x as [w|]; cbn [MlModel.drop_nan In]; rewrite IH.
  - split; intros [H|H]; auto; left; congruence.
  - split; [auto | intros [H|H]; [discriminate | exact H]].
Qed.

(** The median lies between two values of the column. *)
Lemma median_between (col : list (option Q)) (m : Q) :
  MlModel.median col = Some m ->
  exists lo hi,
    In (Some lo) col /\ In (Some hi) col /\ lo <= m /\ m <= hi.
Proof.
  unfold MlModel.median.
  set (s := MlModel.sort (MlModel.drop_nan col)).
  assert (Hin : forall v, In v s -> In (Some v) col).
  { intros v Hv. apply drop_nan_In. now apply sort_In. }
  pose proof (sort_sorted (MlModel.drop_nan col)) as Hs. fold s in Hs.
  destruct (length s) as [|n'] eqn:En; [discriminate|].
  set (n := S n') in *.
  assert (Hhalf : (n / 2 < n)%nat) by (apply Nat.div_lt; lia).
  destruct (Nat.even n) eqn:Ev; intro H.
  - assert (Hm : m = (nth (n / 2 - 1) s 0 + nth (n / 2) s 0) / 2)
      by (injection H as E; symmetry; exact E).
    clear H. subst m.
    exists (nth (n / 2 - 1) s 0), (nth (n / 2) s 0).
    assert (Hle : nth (n / 2 - 1) s 0 <= nth (n / 2) s 0)
      by (apply sorted_nth_le; [exact Hs | lia | lia]).
    split; [apply Hin, nth_In; lia|]. split; [apply Hin, nth_In; lia|].
    split.
    + apply Qle_shift_div_l; [reflexivity | lra].
    + apply Qle_shift_div_r; [reflexivity | lra].
  - assert (Hm : m = nth (n / 2) s 0) by (injection H as E; symmetry; exact E).
    clear H. subst m.
    exists (nth (n / 2) s 0), (nth (n / 2) s 0).
    split; [apply Hin, nth_In; lia|]. split; [apply Hin, nth_In; lia|].
    split; apply Qle_refl.
Qed.

(** X7: feature engineering keeps the number of rows; when at least one
    amount of the column is numeric, no engineered amount is missing;
    and every engineered amount lies between two amounts observed in the
    raw column, so the imputation never leaves the observed range. *)
Theorem engineered_amounts_stay_in_range :
  forall raw : list (option Q),
    length (MlModel.engineer_amount raw) = length raw
    /\ (MlModel.drop_nan raw <> [] ->
        Forall (fun x => x <> None) (MlModel.engineer_amount raw))
    /\ (forall v,
           In (Some v) (MlModel.engineer_amount raw) ->
           exists lo hi,
             In (Some lo) raw /\ In (Some hi) raw /\ lo <= v /\ v <= hi).
Proof.
  intro raw. split; [|split].
  - unfold MlModel.engineer_amount. apply length_map.
  - intro Hne.
    assert (Hm : exists m, MlModel.median raw = Some m).
    { unfold MlModel.median.
      destruct (length (MlModel.sort (MlModel.drop_nan raw))) eqn:E.
      - rewrite sort_length in E. destruct (MlModel.drop_nan raw);
          [congruence | discriminate].
      - destruct (Nat.even (S n)); eexists; reflexivity. }
    destruct Hm as [m Hm]. unfold MlModel.engineer_amount. rewrite Hm.
    apply Forall_forall. intros x Hx. apply in_map_iff in Hx.
    destruct Hx as (y & <- & _). destruct y as [v|]; cbn.
    + destruct (Qeq_bool v 0); discriminate.
    + destruct (Qeq_bool m 0); discriminate.
  - intros v Hv. unfold MlModel.engineer_amount in Hv.
    apply in_map_iff in Hv. destruct Hv as (y & Hy & Hin).
    assert (Hmed : MlModel.median raw = Some v ->
                   exists lo hi, In (Some lo) raw /\ In (Some hi) raw
                                 /\ lo <= v /\ v <= hi)
      by apply median_between.
    destruct y as [w|]; cbn in Hy.
    + destruct (Qeq_bool w 0); [now apply Hmed|].
      injection Hy as ->. exists v, v. repeat split; auto; apply Qle_refl.
    + destruct (MlModel.median raw) as [m|] eqn:Em; cbn in Hy; [|discriminate].
      destruct (Qeq_bool m 0); now apply Hmed.
Qed.

Lemma engineered_amounts_stay_in_range_witness :
  Forall (fun x => x <> None)
         (MlModel.engineer_amount [Some 0; None; Some (150000 # 1)]).
Proof.
  destruct (engineered_amounts_stay_in_range [Some 0; None; Some (150000 # 1)])
    as (_ & H & _).
  apply H. cbn. discriminate.
Defined.

(** X8: when the median of the raw amounts is not zero, no engineered
    amount is zero: every zero has been replaced. *)
Theorem engineered_amounts_have_no_zero :
  forall (raw : list (option Q)) (m : Q),
    MlModel.median raw = Some m -> ~ m == 0 ->
    forall v, In (Some v) (MlModel.engineer_amount raw) -> ~ v == 0.
Proof.
  intros raw m Hm Hnz v Hv. unfold MlModel.engineer_amount in Hv.
  rewrite Hm in Hv. apply in_map_iff in Hv. destruct Hv as (y & Hy & _).
  assert (Hmz : Qeq_bool m 0 = false).
  { destruct (Qeq_bool m 0) eqn:E; [|reflexivity].
    apply Qeq_bool_iff in E. contradiction. }
  destruct y as [w|]; cbn in Hy.
  - destruct (Qeq_bool w 0) eqn:E.
    + injection Hy as <-. exact Hnz.
    + injection Hy as <-. intro Hw. apply Qeq_bool_iff in Hw. congruence.
  - rewrite Hmz in Hy. injection Hy as <-. exact Hnz.
Qed.

Lemma engineered_amounts_have_no_zero_witness :
  In (Some (150000 # 1)) (MlModel.engineer_amount Samples.amounts_with_zero)
  /\ ~ (150000 # 1) == 0.
Proof.
  assert (H : In (Some (150000 # 1))
                 (MlModel.engineer_amount Samples.amounts_with_zero))
    by (left; reflexivity).
  split; [exact H|].
  apply (engineered_amounts_have_no_zero Samples.amounts_with_zero (150000 # 1)
           eq_refl) with (v := 150000 # 1).
  - discriminate.
  - exact H.
Defined.

(** A quantile lies between two values of the series. *)
Lemma quantile_between (q : Q) (xs : list Q) (p : Q) :
  0 <= q -> q <= 1 ->
  MlModelTable.quantile q xs = Some p ->
  exists lo hi, In lo xs /\ In hi xs /\ lo <= p /\ p <= hi.
Proof.
  intros Hq0 Hq1. unfold MlModelTable.quantile.
  set (s := MlModel.sort xs).
  pose proof (sort_sorted xs) as Hs. fold s in Hs.
  assert (Hin : forall v, In v s -> In v xs) by (intros v Hv; now apply sort_In).
  destruct (length s) as [|m] eqn:En; [discriminate|].
  set (h := inject_Z (Z.of_nat m) * q).
  set (lo := Z.to_nat (Qfloor h)). set (hi := Nat.min (S lo) m).
  intro H.
  assert (Hp : p = nth lo s 0 + (h - inject_Z (Qfloor h)) * (nth hi s 0 - nth lo s 0))
    by (injection H as E; symmetry; exact E).
  clear H.
  assert (HM : 0 <= inject_Z (Z.of_nat m)).
  { change 0 with (inject_Z 0). rewrite <- Zle_Qle. lia. }
  assert (Hh0 : 0 <= h) by (unfold h; now apply Qmult_le_0_compat).
  assert (Hh1 : h <= inject_Z (Z.of_nat m)).
  { unfold h. assert (0 <= inject_Z (Z.of_nat m) * (1 - q))
      by (apply Qmult_le_0_compat; lra). nra. }
  assert (Hf0 : (0 <= Qfloor h)%Z).
  { change 0%Z with (Qfloor 0). now apply Qfloor_resp_le. }
  assert (Hf1 : (Qfloor h <= Z.of_nat m)%Z).
  { rewrite <- (Qfloor_Z (Z.of_nat m)). now apply Qfloor_resp_le. }
  assert (Hlo : (lo <= m)%nat) by (unfold lo; lia).
  assert (Hhi : (hi <= m)%nat) by (unfold hi; lia).
  assert (Hlohi : (lo <= hi)%nat) by (unfold hi; lia).
  set (f := h - inject_Z (Qfloor h)) in *.
  assert (Hfr0 : 0 <= f) by (unfold f; pose proof (Qfloor_le h); lra).
  assert (Hfr1 : f <= 1).
  { unfold f. pose proof (Qlt_floor h) as Hlt.
    rewrite inject_Z_plus in Hlt. change (inject_Z 1) with 1 in Hlt. lra. }
  assert (Hle : nth lo s 0 <= nth hi s 0)
    by (apply sorted_nth_le; [exact Hs | exact Hlohi | lia]).
  exists (nth lo s 0), (nth hi s 0).
  split; [apply Hin, nth_In; lia|]. split; [apply Hin, nth_In; lia|].
  set (a := nth lo s 0) in *. set (b := nth hi s 0) in *.
  assert (H1 : 0 <= f * (b - a)) by (apply Qmult_le_0_compat; lra).
  assert (H2 : 0 <= (1 - f) * (b - a)) by (apply Qmult_le_0_compat; lra).
  rewrite Hp. split; nra.
Qed.

(** ** ml_model.py: high value and buyer concentration on the table *)

(** X9: on the batch pipeline a tender whose amount is the smallest of
    its category is never flagged high_value (the 95th percentile of a
    category is at least its smallest amount); in particular a tender that
    is alone in its category is never flagged. *)
Theorem batch_smallest_amount_not_high_value :
  forall (df : list MlModelTable.tender) (t : MlModelTable.tender) (c : pystr) (a : Q),
    MlModelTable.classification t = Some c ->
    MlModelTable.amount t = Some a ->
    (forall a', In a' (MlModelTable.group_amounts df c) -> a <= a') ->
    MlModelTable.flag_high_value df t = 0%Z.
Proof.
  intros df t c a Hc Ha Hmin. unfold MlModelTable.flag_high_value, MlModelTable.p95.
  rewrite Ha, Hc.
  destruct (MlModelTable.quantile (95 # 100) (MlModelTable.group_amounts df c))
    as [p|] eqn:Ep; [|reflexivity].
  apply quantile_between in Ep; [|discriminate|discriminate].
  destruct Ep as (lo & hi & Hlo & _ & Hlp & _).
  specialize (Hmin lo Hlo).
  replace (Qltb p a) with false; [reflexivity|].
  symmetry. apply Qltb_ge. lra.
Qed.

Lemma batch_smallest_amount_not_high_value_witness :
  MlModelTable.flag_high_value MoreSamples.lone_tender_table MoreSamples.lone_tender
  = 0%Z.
Proof.
  apply (batch_smallest_amount_not_high_value MoreSamples.lone_tender_table
           MoreSamples.lone_tender (lit "Roads") (900000 # 1)).
  - reflexivity.
  - reflexivity.
  - intros a' [<-|[]]. apply Qle_refl.
Defined.

Lemma same_buyer_disjoint (b1 b2 : pystr) (t : MlModelTable.tender) :
  b1 <> b2 ->
  MlModelTable.same_buyer b1 t = true -> MlModelTable.same_buyer b2 t = true -> False.
Proof.
  unfold MlModelTable.same_buyer. intros Hne H1 H2.
  destruct (MlModelTable.buyer_name t) as [b|]; [|discriminate].
  apply eqb_eq in H1. apply eqb_eq in H2. congruence.
Qed.

Lemma batch_count_as_filter (df : list MlModelTable.tender) (b c : pystr) :
  MlModelTable.count df b c
  = length (filter (MlModelTable.same_buyer b)
                   (filter (MlModelTable.same_category c) df)).
Proof.
  unfold MlModelTable.count. now rewrite filter_filter_and.
Qed.

Lemma batch_concentration_fires (df : list MlModelTable.tender) (b c : pystr) :
  Qltb (7 # 10) (MlModelTable.concentration df b c) = true ->
  (0 < MlModelTable.total df c)%nat
  /\ (7 * MlModelTable.total df c < 10 * MlModelTable.count df b c)%nat.
Proof.
  unfold MlModelTable.concentration. intro H.
  destruct (MlModelTable.total df c) as [|n] eqn:En.
  - exfalso. apply Qltb_lt in H.
    unfold Qlt, Qdiv, Qmult, Qinv, inject_Z in H. cbn in H. lia.
  - split; [lia|]. apply share_above_07 in H; lia.
Qed.

(** X10: on the batch pipeline two tenders of one category that both
    carry the buyer_concentration flag have the same buyer; and a buyer
    that placed every tender of a category gets the flag on each of them,
    even when the category has a single tender. *)
Theorem batch_concentration_one_buyer :
  forall (df : list MlModelTable.tender) (c : pystr),
    (forall t1 t2,
        MlModelTable.classification t1 = Some c ->
        MlModelTable.classification t2 = Some c ->
        MlModelTable.flag_buyer_concentration df t1 = 1%Z ->
        MlModelTable.flag_buyer_concentration df t2 = 1%Z ->
        MlModelTable.buyer_name t1 = MlModelTable.buyer_name t2)
    /\ (forall b t,
           In t df ->
           MlModelTable.classification t = Some c ->
           MlModelTable.buyer_name t = Some b ->
           Forall (fun t' => MlModelTable.buyer_name t' = Some b)
                  (filter (MlModelTable.same_category c) df) ->
           MlModelTable.flag_buyer_concentration df t = 1%Z).
Proof.
  intros df c. split.
  - intros t1 t2 Hc1 Hc2 H1 H2.
    unfold MlModelTable.flag_buyer_concentration in H1, H2.
    rewrite Hc1 in H1. rewrite Hc2 in H2.
    destruct (MlModelTable.buyer_name t1) as [b1|]; [|discriminate].
    destruct (MlModelTable.buyer_name t2) as [b2|]; [|discriminate].
    apply astype_int_one in H1. apply astype_int_one in H2.
    apply batch_concentration_fires in H1. apply batch_concentration_fires in H2.
    destruct H1 as [Hn H1]. destruct H2 as [_ H2].
    destruct (list_eq_dec N.eq_dec b1 b2) as [E|E]; [now subst|]. exfalso.
    rewrite batch_count_as_filter in H1, H2.
    pose proof (filter_disjoint_length
                  (MlModelTable.same_buyer b1) (MlModelTable.same_buyer b2)
                  (filter (MlModelTable.same_category c) df)
                  (fun x => same_buyer_disjoint b1 b2 x E)) as Hd.
    unfold MlModelTable.total in *. lia.
  - intros b t Hin Hc Hb Hall. unfold MlModelTable.flag_buyer_concentration.
    rewrite Hb, Hc. apply astype_int_one.
    unfold MlModelTable.concentration. rewrite batch_count_as_filter.
    unfold MlModelTable.total.
    assert (Hf : filter (MlModelTable.same_buyer b)
                        (filter (MlModelTable.same_category c) df)
                 = filter (MlModelTable.same_category c) df).
    { induction Hall as [|x l Hx _ IH]; [reflexivity|].
      cbn [filter]. unfold MlModelTable.same_buyer at 1.
      rewrite Hx, eqb_refl. now rewrite IH. }
    rewrite Hf.
    assert (Ht : In t (filter (MlModelTable.same_category c) df)).
    { apply filter_In. split; [exact Hin|].
      unfold MlModelTable.same_category. rewrite Hc. apply eqb_refl. }
    destruct (filter (MlModelTable.same_category c) df) as [|x l];
      [destruct Ht|].
    apply share_above_07; cbn [length]; lia.
Qed.

Lemma batch_concentration_one_buyer_witness :
  MlModelTable.flag_buyer_concentration MoreSamples.lone_tender_table
    MoreSamples.lone_tender = 1%Z.
Proof.
  destruct (batch_concentration_one_buyer MoreSamples.lone_tender_table (lit "Roads"))
    as [_ H].
  apply (H (lit "PWD") MoreSamples.lone_tender).
  - left. reflexivity.
  - reflexivity.
  - reflexivity.
  - cbn. constructor; [reflexivity | constructor].
Defined.

(** ** company_risk_scorer.py: the shell-risk score *)

Lemma shell_sum_explicit (row : ShellRisk.column -> Q) :
  sumQ (map (fun fw => clip 0 1 (row (fst fw)) * inject_Z (snd fw)) ShellRisk.WEIGHTS)
  = 0 + clip 0 1 (row ShellRisk.address_cluster_flag) * 20
    + clip 0 1 (row ShellRisk.low_capital_flag) * 15
    + clip 0 1 (row ShellRisk.young_company_flag) * 10
    + clip 0 1 (row ShellRisk.inactive_flag) * 20
    + clip 0 1 (row ShellRisk.high_auth_paid_ratio) * 15
    + clip 0 1 (row ShellRisk.opc_flag) * 10
    + clip 0 1 (row ShellRisk.degree_centrality_score) * 10.
Proof. reflexivity. Qed.

Lemma clip_unit (x : Q) : 0 <= clip 0 1 x /\ clip 0 1 x <= 1.
Proof. apply clip_between. discriminate. Qed.

Lemma shell_sum_range (row : ShellRisk.column -> Q) :
  0 <= sumQ (map (fun fw => clip 0 1 (row (fst fw)) * inject_Z (snd fw))
                 ShellRisk.WEIGHTS)
  /\ sumQ (map (fun fw => clip 0 1 (row (fst fw)) * inject_Z (snd fw))
               ShellRisk.WEIGHTS) <= 100.
Proof.
  rewrite shell_sum_explicit.
  pose proof (clip_unit (row ShellRisk.address_cluster_flag)).
  pose proof (clip_unit (row ShellRisk.low_capital_flag)).
  pose proof (clip_unit (row ShellRisk.young_company_flag)).
  pose proof (clip_unit (row ShellRisk.inactive_flag)).
  pose proof (clip_unit (row ShellRisk.high_auth_paid_ratio)).
  pose proof (clip_unit (row ShellRisk.opc_flag)).
  pose proof (clip_unit (row ShellRisk.degree_centrality_score)).
  split; lra.
Qed.

Lemma shell_score_unclipped (row : ShellRisk.column -> Q) :
  ShellRisk.shell_risk_score row
  = round2 (sumQ (map (fun fw => clip 0 1 (row (fst fw)) * inject_Z (snd fw))
                      ShellRisk.WEIGHTS)).
Proof.
  unfold ShellRisk.shell_risk_score. destruct (shell_sum_range row) as [L U].
  now rewrite (clip_id 0 100).
Qed.

(** X11: whatever the seven columns hold, the weighted sum of the
    shell-risk score is within 0 and 100 (each column is clipped to [0,1]
    and the weights add up to 100), so the outer clip leaves it as it is;
    the score lies within 0 and 100 and within one hundredth of that
    sum. *)
Theorem shell_score_clip_is_idle :
  forall row : ShellRisk.column -> Q,
    let total :=
      sumQ (map (fun fw => clip 0 1 (row (fst fw)) * inject_Z (snd fw))
                ShellRisk.WEIGHTS) in
    0 <= total /\ total <= 100
    /\ clip 0 100 total = total
    /\ 0 <= ShellRisk.shell_risk_score row
    /\ ShellRisk.shell_risk_score row <= 100
    /\ total - (1 # 100) < ShellRisk.shell_risk_score row
    /\ ShellRisk.shell_risk_score row < total + (1 # 100).
Proof.
  intros row total. destruct (shell_sum_range row) as [L U]. fold total in L, U.
  rewrite shell_score_unclipped. fold total.
  destruct (round2_close total) as [C1 C2].
  destruct (round2_between total 0 100 L U) as [R0 R1].
  split; [exact L|]. split; [exact U|].
  split; [now apply clip_id|].
  repeat split; assumption.
Qed.

(** X12: a company with the address cluster flag, or with the inactive
    flag, always requires human review: either flag alone brings the
    shell-risk score to the threshold of 20. *)
Theorem cluster_or_inactive_requires_review :
  forall row : ShellRisk.column -> Q,
    1 <= row ShellRisk.address_cluster_flag \/ 1 <= row ShellRisk.inactive_flag ->
    ShellRisk.requires_human_review row = true.
Proof.
  intros row H. unfold ShellRisk.requires_human_review. apply Qle_bool_iff.
  rewrite shell_score_unclipped.
  destruct (shell_sum_range row) as [_ U]. revert U.
  rewrite shell_sum_explicit. intro U.
  pose proof (clip_unit (row ShellRisk.address_cluster_flag)).
  pose proof (clip_unit (row ShellRisk.low_capital_flag)).
  pose proof (clip_unit (row ShellRisk.young_company_flag)).
  pose proof (clip_unit (row ShellRisk.inactive_flag)).
  pose proof (clip_unit (row ShellRisk.high_auth_paid_ratio)).
  pose proof (clip_unit (row ShellRisk.opc_flag)).
  pose proof (clip_unit (row ShellRisk.degree_centrality_score)).
  assert (Hone : forall x, 1 <= x -> clip 0 1 x == 1).
  { intros x Hx. unfold clip. rewrite Q.max_l by lra. apply Q.min_r. exact Hx. }
  match goal with |- 20 <= round2 ?x =>
    destruct (round2_between x 20 100) as [L _] end.
  - change (inject_Z 20) with 20.
    destruct H as [H|H]; apply Hone in H; lra.
  - change (inject_Z 100) with 100. exact U.
  - exact L.
Qed.

Lemma cluster_or_inactive_requires_review_witness :
  ShellRisk.requires_human_review MoreSamples.cluster_only_row = true.
Proof.
  apply (cluster_or_inactive_requires_review MoreSamples.cluster_only_row).
  left. cbn. discriminate.
Defined.

(** X13: for capitals that are whole numbers, the paid-up capital not
    negative and below 2^50, the authorized capital below 2^53 in
    magnitude, the ratio flag fires iff the authorized capital is at least
    five times the paid-up capital plus five; with no paid-up capital at
    all, an authorized capital of 5 is enough. *)
Theorem high_auth_paid_threshold :
  forall authorized paid : Z,
    (0 <= paid < 2 ^ 50)%Z ->
    (- 2 ^ 53 < authorized < 2 ^ 53)%Z ->
    ShellRisk.high_auth_paid (inject_Z authorized) (inject_Z paid) = 1%Z
    <-> (5 * paid + 5 <= authorized)%Z.
Proof.
  intros a p [Hp _] _. unfold ShellRisk.high_auth_paid.
  rewrite Zle_Qle in Hp. change (inject_Z 0) with 0 in Hp.
  rewrite Zle_Qle, inject_Z_plus, inject_Z_mult.
  change (inject_Z 5) with 5.
  set (qa := inject_Z a) in *. set (qp := inject_Z p) in *.
  destruct (Qeq_bool (qp + 1) 0) eqn:E.
  { apply Qeq_bool_iff in E. lra. }
  assert (Hpos : 0 < qp + 1) by lra.
  destruct (Qle_bool 5 (qa / (qp + 1))) eqn:E5.
  - apply Qle_bool_iff in E5. split; [intros _|reflexivity].
    apply (Qmult_le_compat_r _ _ (qp + 1)) in E5; [|lra].
    unfold Qdiv in E5. rewrite <- Qmult_assoc in E5.
    rewrite (Qmult_comm (/ _)), Qmult_inv_r, Qmult_1_r in E5; lra.
  - apply Qle_bool_gt in E5. split; [discriminate|]. intro H. exfalso.
    assert (5 <= qa / (qp + 1)); [|lra].
    apply Qle_shift_div_l; lra.
Qed.

Lemma high_auth_paid_threshold_witness :
  ShellRisk.high_auth_paid (inject_Z 1000000) (inject_Z 10000) = 1%Z
  <-> (5 * 10000 + 5 <= 1000000)%Z.
Proof.
  apply (high_auth_paid_threshold 1000000 10000); split; vm_compute; congruence.
Defined.

(** ** vendor_risk_scorer.py: financial score, composite and tier *)

(** X14: for a percentile rank within [0,1] (or missing, which counts
    as 0.5) and three flags within [0,1], each of the four parts of
    [compute_financial_scores] is within its own range and their sum is
    within 0 and 100, so that none of the five clips changes anything; the
    score lies within 0 and 100 and within one hundredth of the sum
    (1 - rank) * 30 + ratio * 25 + inactive * 25 + young * 20. *)
Theorem financials_score_clips_idle :
  forall (rank : option Q) (ratio inactive young : Q),
    (forall p, rank = Some p -> 0 <= p /\ p <= 1) ->
    0 <= ratio /\ ratio <= 1 -> 0 <= inactive /\ inactive <= 1 ->
    0 <= young /\ young <= 1 ->
    let p := match rank with Some p => p | None => 1 # 2 end in
    let total := (1 - p) * 30 + ratio * 25 + inactive * 25 + young * 20 in
    let score := VendorProfile.financials_score rank ratio inactive young in
    clip 0 30 ((1 - p) * 30) = (1 - p) * 30
    /\ clip 0 25 (ratio * 25) = ratio * 25
    /\ clip 0 25 (inactive * 25) = inactive * 25
    /\ clip 0 20 (young * 20) = young * 20
    /\ clip 0 100 total = total
    /\ 0 <= score /\ score <= 100
    /\ total - (1 # 100) < score /\ score < total + (1 # 100).
Proof.
  intros rank ratio inactive young Hrank Hr Hi Hy p total score.
  assert (Hp : 0 <= p /\ p <= 1).
  { subst p. destruct rank as [q|]; [now apply Hrank | split; discriminate]. }
  assert (E1 : clip 0 30 ((1 - p) * 30) = (1 - p) * 30) by (apply clip_id; lra).
  assert (E2 : clip 0 25 (ratio * 25) = ratio * 25) by (apply clip_id; lra).
  assert (E3 : clip 0 25 (inactive * 25) = inactive * 25) by (apply clip_id; lra).
  assert (E4 : clip 0 20 (young * 20) = young * 20) by (apply clip_id; lra).
  assert (E5 : clip 0 100 total = total) by (subst total; apply clip_id; lra).
  assert (Es : score = round2 total).
  { subst score. unfold VendorProfile.financials_score. fold p.
    rewrite E1, E2, E3, E4. fold total. now rewrite E5. }
  destruct (round2_close total) as [C1 C2].
  destruct (round2_between total 0 100) as [R0 R1].
  { change (inject_Z 0) with 0. subst total. lra. }
  { change (inject_Z 100) with 100. subst total. lra. }
  rewrite Es. repeat split; assumption.
Qed.

Lemma financials_score_clips_idle_witness :
  clip 0 30 ((1 - (1 # 2)) * 30) = (1 - (1 # 2)) * 30.
Proof.
  apply (financials_score_clips_idle None 1 0 1).
  - intros p H. discriminate.
  - split; discriminate.
  - split; discriminate.
  - split; discriminate.
Defined.

Lemma composite_sum_range (b s p f : Q) :
  0 <= b /\ b <= 100 -> 0 <= s /\ s <= 100 ->
  0 <= p /\ p <= 100 -> 0 <= f /\ f <= 100 ->
  let x := b * VendorProfile.DIMENSION_WEIGHTS VendorProfile.bid_pattern / 100
           + s * VendorProfile.DIMENSION_WEIGHTS VendorProfile.shell_risk / 100
           + p * VendorProfile.DIMENSION_WEIGHTS VendorProfile.political / 100
           + f * VendorProfile.DIMENSION_WEIGHTS VendorProfile.financials / 100 in
  0 <= x /\ x <= 100
  /\ x == (30 # 100) * b + (25 # 100) * s + (25 # 100) * p + (20 # 100) * f.
Proof.
  intros Hb Hs Hp Hf x. subst x. cbn [VendorProfile.DIMENSION_WEIGHTS].
  unfold Qdiv. change (/ 100) with (1 # 100).
  split; [lra|]. split; [lra|]. ring.
Qed.

Lemma Qmin_id (x hi : Q) : x <= hi -> Qmin x hi = x.
Proof.
  intro H. unfold Qmin, GenericMinMax.gmin.
  destruct (x ?= hi) eqn:E; try reflexivity. apply Qgt_alt in E. lra.
Qed.

(** X15: for four sub-scores within 0 and 100 the weighted sum of a
    company profile (weights 30, 25, 25 and 20 percent) is within 0 and
    100, so the cap at 100 never applies; the composite lies within 0 and
    100 and within one hundredth of the weighted sum, and a profile in
    tier HIGH always requires human review. *)
Theorem company_composite_range :
  forall b s p f : Q,
    0 <= b /\ b <= 100 -> 0 <= s /\ s <= 100 ->
    0 <= p /\ p <= 100 -> 0 <= f /\ f <= 100 ->
    let prof := VendorProfile.company_profile b s p f in
    let total := b * 30 / 100 + s * 25 / 100 + p * 25 / 100 + f * 20 / 100 in
    0 <= VendorProfile.composite_risk_score prof
    /\ VendorProfile.composite_risk_score prof <= 100
    /\ Qmin total 100 = total
    /\ total - (1 # 100) < VendorProfile.composite_risk_score prof
    /\ VendorProfile.composite_risk_score prof < total + (1 # 100)
    /\ (VendorProfile.risk_tier prof = VendorProfile.HIGH ->
        VendorProfile.requires_human_review prof = true).
Proof.
  intros b s p f Hb Hs Hp Hf prof total. subst prof.
  cbn [VendorProfile.company_profile VendorProfile.composite_risk_score
       VendorProfile.risk_tier VendorProfile.requires_human_review].
  destruct (composite_sum_range b s p f Hb Hs Hp Hf) as (L & U & _).
  cbv zeta in L, U. cbn [VendorProfile.DIMENSION_WEIGHTS] in L, U.
  fold total in L, U.
  unfold VendorProfile.composite. cbn [VendorProfile.DIMENSION_WEIGHTS].
  fold total. rewrite (Qmin_id total 100 U).
  destruct (round2_close total) as [C1 C2].
  destruct (round2_between total 0 100 L U) as [R0 R1].
  split; [exact R0|]. split; [exact R1|]. split; [reflexivity|].
  split; [exact C1|]. split; [exact C2|].
  unfold VendorProfile.tier_of.
  destruct (Qle_bool 60 (round2 total)) eqn:E60.
  - intros _. apply Qle_bool_iff in E60. apply Qle_bool_iff. lra.
  - destruct (Qle_bool 30 (round2 total)); discriminate.
Qed.

Lemma company_composite_range_witness :
  0 <= VendorProfile.composite_risk_score (VendorProfile.company_profile 80 60 0 40).
Proof.
  apply (company_composite_range 80 60 0 40); split; discriminate.
Defined.

(** X16: a company without bid data and without political exposure (both
    sub-scores 0) is never in tier HIGH, whatever its shell-risk and
    financial scores within 0 and 100 are: its composite is at most 45. *)
Theorem shell_and_financials_never_high :
  forall s f : Q,
    0 <= s /\ s <= 100 -> 0 <= f /\ f <= 100 ->
    let prof := VendorProfile.company_profile 0 s 0 f in
    VendorProfile.composite_risk_score prof <= 45
    /\ VendorProfile.risk_tier prof <> VendorProfile.HIGH.
Proof.
  intros s f Hs Hf prof. subst prof.
  cbn [VendorProfile.company_profile VendorProfile.composite_risk_score
       VendorProfile.risk_tier].
  assert (H0 : 0 <= 0 /\ 0 <= 100) by (split; discriminate).
  destruct (composite_sum_range 0 s 0 f H0 Hs H0 Hf) as (L & U & E).
  cbv zeta in L, U, E.
  unfold VendorProfile.composite. rewrite Qmin_id by exact U.
  match goal with |- round2 ?x <= _ /\ _ =>
    destruct (round2_between x 0 45) as [_ U45] end.
  - exact L.
  - change (inject_Z 45) with 45. rewrite E. lra.
  - change (inject_Z 45) with 45 in U45. split; [exact U45|].
    unfold VendorProfile.tier_of.
    match goal with |- context [Qle_bool 60 ?c] => set (c0 := c) in * end.
    destruct (Qle_bool 60 c0) eqn:E60.
    + apply Qle_bool_iff in E60. lra.
    + destruct (Qle_bool 30 c0); discriminate.
Qed.

Lemma shell_and_financials_never_high_witness :
  VendorProfile.risk_tier (VendorProfile.company_profile 0 100 0 100)
  <> VendorProfile.HIGH.
Proof.
  apply (shell_and_financials_never_high 100 100); split; discriminate.
Defined.

(** X17: the profile of a procurement buyer without CIN has a composite
    of at most 30 (the bid score weighted by 30%), while its tier and its
    review flag read the bid score itself: with a bid score of 60 or more
    the tier is HIGH although the composite is below the HIGH threshold. *)
Theorem buyer_profile_tier_reads_bid_score :
  forall bid : Q,
    0 <= bid /\ bid <= 100 ->
    let prof := VendorProfile.buyer_profile bid in
    VendorProfile.composite_risk_score prof <= 30
    /\ (VendorProfile.risk_tier prof = VendorProfile.HIGH <-> 60 <= bid)
    /\ (VendorProfile.requires_human_review prof = true <-> 25 <= bid)
    /\ (60 <= bid ->
        VendorProfile.risk_tier prof = VendorProfile.HIGH
        /\ VendorProfile.tier_of (VendorProfile.composite_risk_score prof)
           <> VendorProfile.HIGH).
Proof.
  intros bid [H0 H100] prof. subst prof.
  cbn [VendorProfile.buyer_profile VendorProfile.composite_risk_score
       VendorProfile.risk_tier VendorProfile.requires_human_review].
  cbn [VendorProfile.DIMENSION_WEIGHTS].
  assert (Hc : round2 (bid * 30 / 100) <= 30).
  { destruct (round2_between (bid * 30 / 100) 0 30) as [_ U].
    - change (inject_Z 0) with 0. unfold Qdiv. change (/ 100) with (1 # 100). lra.
    - change (inject_Z 30) with 30. unfold Qdiv. change (/ 100) with (1 # 100). lra.
    - exact U. }
  assert (Ht : VendorProfile.tier_of bid = VendorProfile.HIGH <-> 60 <= bid).
  { unfold VendorProfile.tier_of. destruct (Qle_bool 60 bid) eqn:E.
    - apply Qle_bool_iff in E. tauto.
    - apply Qle_bool_gt in E. split.
      + destruct (Qle_bool 30 bid); discriminate.
      + intro. lra. }
  split; [exact Hc|]. split; [exact Ht|]. split; [apply Qle_bool_iff|].
  intro H60. split; [now apply Ht|].
  unfold VendorProfile.tier_of.
  destruct (Qle_bool 60 (round2 (bid * 30 / 100))) eqn:E.
  - apply Qle_bool_iff in E. lra.
  - destruct (Qle_bool 30 _); discriminate.
Qed.

Lemma buyer_profile_tier_reads_bid_score_witness :
  VendorProfile.risk_tier (VendorProfile.buyer_profile 80) = VendorProfile.HIGH
  /\ VendorProfile.tier_of
       (VendorProfile.composite_risk_score (VendorProfile.buyer_profile 80))
     <> VendorProfile.HIGH.
Proof.
  destruct (buyer_profile_tier_reads_bid_score 80) as (_ & _ & _ & H).
  - split; discriminate.
  - apply H. discriminate.
Defined.

(** ** vendor_risk_scorer.py: the political score stays below 100 *)

(** X18: when the donation values are whole numbers that are not
    negative, with totals and row count below 2^53, every purchaser has
    a value score in [0,60) and a diversity score in [0,40): their sum is
    below 100, the clip of the political score leaves it as it is, and the
    political score lies within 0 and 100. *)
Theorem political_score_below_100 :
  forall flows : list VendorRiskScorer.flow,
    Forall (fun f => Domain.whole_amount (VendorRiskScorer.total_value f)) flows ->
    VendorRiskScorer.max_value flows < inject_Z Domain.float_exact ->
    (Z.of_nat (length flows) < Domain.float_exact)%Z ->
    forall s,
      In s (VendorRiskScorer.purchaser_stats flows) ->
      exists v : Q,
        VendorRiskScorer.value_score flows s = Some v
        /\ (0 <= v /\ v < 60)
        /\ (0 <= VendorRiskScorer.diversity_score flows s
            /\ VendorRiskScorer.diversity_score flows s < 40)
        /\ v + VendorRiskScorer.diversity_score flows s < 100
        /\ clip 0 100 (v + VendorRiskScorer.diversity_score flows s)
           = v + VendorRiskScorer.diversity_score flows s
        /\ 0 <= VendorRiskScorer.political_score flows s
        /\ VendorRiskScorer.political_score flows s <= 100.
Proof.
  intros flows Hwhole _ _ s Hs.
  destruct (political_parts_range flows s (whole_amounts_nonneg flows Hwhole) Hs)
    as (Ev & Hv0 & Hv1 & Hd0 & Hd1).
  eexists. split; [exact Ev|].
  match type of Ev with _ = Some ?x => set (v := x) in * end.
  set (d := VendorRiskScorer.diversity_score flows s) in *.
  assert (Ec : clip 0 100 (v + d) = v + d) by (apply clip_id; lra).
  split; [split; assumption|]. split; [split; assumption|].
  split; [lra|]. split; [exact Ec|].
  unfold VendorRiskScorer.political_score. rewrite Ev. fold v d. rewrite Ec.
  apply (round2_between _ 0 100).
  - change (inject_Z 0) with 0. lra.
  - change (inject_Z 100) with 100. lra.
Qed.

Lemma political_score_below_100_witness :
  0 <= VendorRiskScorer.diversity_score Samples.one_flow
         (VendorRiskScorer.mkStats (lit "ACME") 1 (1000 # 1))
  /\ VendorRiskScorer.diversity_score Samples.one_flow
       (VendorRiskScorer.mkStats (lit "ACME") 1 (1000 # 1)) < 40.
Proof.
  destruct (political_score_below_100 Samples.one_flow) with
    (s := VendorRiskScorer.mkStats (lit "ACME") 1 (1000 # 1))
    as (v & _ & _ & H & _).
  - constructor; [|constructor]. exists 1000%Z. split; [lia | reflexivity].
  - reflexivity.
  - reflexivity.
  - left. reflexivity.
  - exact H.
Defined.

(** ** entity_resolution.py: Jaccard similarity and tokens *)

Lemma filter_length_le {A : Type} (f : A -> bool) (l : list A) :
  (length (filter f l) <= length l)%nat.
Proof.
  induction l as [|x t IH]; cbn [filter length]; [lia|].
  destruct (f x); cbn [length]; lia.
Qed.

Lemma jaccard_range (a b : list pystr) :
  0 <= EntityResolution.jaccard_similarity a b
  /\ EntityResolution.jaccard_similarity a b <= 1.
Proof.
  unfold EntityResolution.jaccard_similarity.
  destruct a as [|x a']; [split; discriminate|].
  destruct b as [|y b']; [split; discriminate|].
  set (a := x :: a'). set (b := y :: b').
  set (K := length (filter (fun t => mem t b) a)).
  set (U := length (a ++ filter (fun t => negb (mem t a)) b)).
  assert (HK : (K <= length a)%nat) by apply filter_length_le.
  assert (HU : (length a <= U)%nat) by (unfold U; rewrite length_app; lia).
  assert (Ha : (0 < length a)%nat) by (cbn; lia).
  assert (HUq : 0 < inject_Z (Z.of_nat U)).
  { change 0 with (inject_Z 0). rewrite <- Zlt_Qlt. lia. }
  assert (HKq : 0 <= inject_Z (Z.of_nat K)).
  { change 0 with (inject_Z 0). rewrite <- Zle_Qle. lia. }
  assert (HKU : inject_Z (Z.of_nat K) <= inject_Z (Z.of_nat U)).
  { rewrite <- Zle_Qle. lia. }
  split.
  - apply Qle_shift_div_l; [exact HUq | lra].
  - apply Qle_shift_div_r; [exact HUq | lra].
Qed.

Lemma filter_all {A : Type} (f : A -> bool) (l : list A) :
  (forall x, In x l -> f x = true) -> filter f l = l.
Proof.
  induction l as [|x t IH]; intro H; [reflexivity|].
  cbn [filter]. rewrite (H x) by now left.
  rewrite IH; [reflexivity|]. intros y Hy. apply H. now right.
Qed.

Lemma filter_none {A : Type} (f : A -> bool) (l : list A) :
  (forall x, In x l -> f x = false) -> filter f l = [].
Proof.
  induction l as [|x t IH]; intro H; [reflexivity|].
  cbn [filter]. rewrite (H x) by now left.
  apply IH. intros y Hy. apply H. now right.
Qed.

(** X19: the Jaccard similarity of two token sets is a number between 0
    and 1; it is 0 as soon as one of the sets is empty, and 1 for a set
    that is not empty compared with itself. *)
Theorem jaccard_similarity_bounds :
  (forall a b, 0 <= EntityResolution.jaccard_similarity a b
               /\ EntityResolution.jaccard_similarity a b <= 1)
  /\ (forall a, EntityResolution.jaccard_similarity a [] == 0
                /\ EntityResolution.jaccard_similarity [] a == 0)
  /\ (forall a, a <> [] -> EntityResolution.jaccard_similarity a a == 1).
Proof.
  split; [exact jaccard_range|]. split.
  - intro a. split; [destruct a|]; reflexivity.
  - intros a Hne. unfold EntityResolution.jaccard_similarity.
    destruct a as [|x a']; [congruence|].
    set (a := x :: a').
    rewrite (filter_all (fun t => mem t a) a)
      by (intros t Ht; now apply mem_In).
    rewrite (filter_none (fun t => negb (mem t a)) a)
      by (intros t Ht; apply negb_false_iff; now apply mem_In).
    rewrite app_nil_r. apply Qmult_inv_r.
    intro E. unfold Qeq, inject_Z in E. cbn in E. lia.
Qed.

Lemma jaccard_similarity_bounds_witness :
  EntityResolution.jaccard_similarity [lit "acme"; lit "steel"] [lit "acme"; lit "steel"]
  == 1.
Proof.
  destruct jaccard_similarity_bounds as (_ & _ & H).
  apply (H [lit "acme"; lit "steel"]). discriminate.
Defined.

(** X20: the tokens of a name are pairwise distinct, free of white
    space, and each has more than one character. *)
Theorem tokenise_tokens :
  forall name : pystr,
    NoDup (EntityResolution.tokenise name)
    /\ Forall (fun t => (1 < length t)%nat /\ no_space t)
              (EntityResolution.tokenise name).
Proof.
  intro name. unfold EntityResolution.tokenise, EntityResolution.to_set. split.
  - apply NoDup_nodup.
  - apply Forall_forall. intros t Ht. apply nodup_In in Ht.
    apply filter_In in Ht. destruct Ht as [Hin Hlen].
    split; [now apply Nat.ltb_lt in Hlen|].
    assert (H : Forall (fun t => t <> [] /\ no_space t /\ Forall (fun _ => True) t)
                       (split name)).
    { apply split_tokens. apply Forall_forall. intros; exact I. }
    rewrite Forall_forall in H. now apply H.
Qed.

(** ** entity_resolution.py: the inverted index *)

(** Appending an entry under a token changes the bucket of that token
    and no other. *)
Lemma index_get_append (ix : EntityResolution.index) (t t' : pystr)
      (e : EntityResolution.entry) :
  EntityResolution.index_get (EntityResolution.index_append ix t e) t'
  = if PyStr.eqb t t'
    then EntityResolution.index_get ix t' ++ [e]
    else EntityResolution.index_get ix t'.
Proof.
  induction ix as [|[k es] r IH].
  - cbn. destruct (PyStr.eqb t t'); reflexivity.
  - cbn [EntityResolution.index_append EntityResolution.index_get].
    destruct (PyStr.eqb k t) eqn:Ekt.
    + apply eqb_eq in Ekt. subst k. cbn [EntityResolution.index_get].
      destruct (PyStr.eqb t t'); reflexivity.
    + cbn [EntityResolution.index_get]. rewrite IH.
      destruct (PyStr.eqb t t') eqn:Ett; [|reflexivity].
      apply eqb_eq in Ett. subst t'. now rewrite Ekt.
Qed.

Lemma index_get_append_all (toks : list pystr) (ix : EntityResolution.index)
      (e x : EntityResolution.entry) (t' : pystr) :
  In x (EntityResolution.index_get
          (fold_left (fun ix token => EntityResolution.index_append ix token e) toks ix)
          t')
  <-> In x (EntityResolution.index_get ix t') \/ (x = e /\ In t' toks).
Proof.
  revert ix. induction toks as [|t toks IH]; intro ix; cbn [fold_left].
  - cbn. tauto.
  - rewrite IH, index_get_append. cbn [In].
    destruct (PyStr.eqb t t') eqn:E.
    + apply eqb_eq in E. subst t'. rewrite in_app_iff. cbn [In].
      split; intros H; intuition (subst; auto).
    + apply eqb_neq in E. split; intros H; intuition congruence.
Qed.

Lemma build_index_fold (names : list (pystr * EntityResolution.pyval))
      (ix0 : EntityResolution.index) (es0 : list EntityResolution.entry) :
  let mk := fun p : pystr * EntityResolution.pyval =>
    EntityResolution.mkEntry (fst p) (snd p)
      (EntityResolution.normalise_name (snd p))
      (EntityResolution.tokenise (EntityResolution.normalise_name (snd p))) in
  let out :=
    fold_left
      (fun st p =>
         let norm := EntityResolution.normalise_name (snd p) in
         let tokens := EntityResolution.tokenise norm in
         let e := EntityResolution.mkEntry (fst p) (snd p) norm tokens in
         (fold_left (fun ix token => EntityResolution.index_append ix token e)
                    tokens (fst st),
          snd st ++ [e]))
      names (ix0, es0) in
  snd out = es0 ++ map mk names
  /\ forall x t,
      In x (EntityResolution.index_get (fst out) t)
      <-> In x (EntityResolution.index_get ix0 t)
          \/ (In x (map mk names) /\ In t (EntityResolution.e_tokens x)).
Proof.
  intro mk. revert ix0 es0.
  induction names as [|p names IH]; intros ix0 es0; cbn [fold_left map].
  - cbn [fst snd]. split; [now rewrite app_nil_r|]. intros x t. cbn. tauto.
  - cbv zeta in IH |- *. cbn [fst snd].
    match goal with |- snd (fold_left _ _ (?ix1, ?es1)) = _ /\ _ =>
      destruct (IH ix1 es1) as [Hs Hi] end.
    split.
    + rewrite Hs, <- app_assoc. reflexivity.
    + intros x t. rewrite Hi, index_get_append_all. cbn [In].
      split; intros H.
      * destruct H as [[H|[Hx Ht]]|[H1 H2]].
        -- left. exact H.
        -- right. subst x. split; [left; reflexivity | exact Ht].
        -- right. split; [right; exact H1 | exact H2].
      * destruct H as [H|[[Hx|H1] H2]].
        -- left. left. exact H.
        -- left. right. subst x. split; [reflexivity | exact H2].
        -- right. split; assumption.
Qed.

(** X21: [build_inverted_index] returns one entry per input pair, in
    input order, holding the id, the raw name, its normalised form and the
    tokens of that form; and looking a token up in the index gives exactly
    the entries that have this token. *)
Theorem inverted_index_lookup :
  forall names : list (pystr * EntityResolution.pyval),
    let ix := fst (EntityResolution.build_inverted_index names) in
    let entries := snd (EntityResolution.build_inverted_index names) in
    entries
    = map (fun p =>
             EntityResolution.mkEntry (fst p) (snd p)
               (EntityResolution.normalise_name (snd p))
               (EntityResolution.tokenise (EntityResolution.normalise_name (snd p))))
          names
    /\ forall e t,
        In e (EntityResolution.index_get ix t)
        <-> In e entries /\ In t (EntityResolution.e_tokens e).
Proof.
  intros names ix entries.
  destruct (build_index_fold names [] []) as [Hs Hi]. cbv zeta in Hs, Hi.
  cbn [app] in Hs.
  assert (Hs' : entries
                = map (fun p =>
                         EntityResolution.mkEntry (fst p) (snd p)
                           (EntityResolution.normalise_name (snd p))
                           (EntityResolution.tokenise
                              (EntityResolution.normalise_name (snd p))))
                      names) by exact Hs.
  split; [exact Hs'|]. intros e t. rewrite Hs'.
  assert (Hi' : In e (EntityResolution.index_get ix t)
                <-> In e (EntityResolution.index_get [] t)
                    \/ (In e (map (fun p =>
                                     EntityResolution.mkEntry (fst p) (snd p)
                                       (EntityResolution.normalise_name (snd p))
                                       (EntityResolution.tokenise
                                          (EntityResolution.normalise_name (snd p))))
                                  names)
                        /\ In t (EntityResolution.e_tokens e)))
    by exact (Hi e t).
  rewrite Hi'. cbn [EntityResolution.index_get In]. tauto.
Qed.

(** X22: an entry whose name is not a string, or whose name leaves no
    token of more than one character, is kept in the entry list but is
    reachable through no token of the index. *)
Theorem tokenless_entry_not_indexed :
  forall (names : list (pystr * EntityResolution.pyval)) (e : EntityResolution.entry),
    In e (snd (EntityResolution.build_inverted_index names)) ->
    EntityResolution.e_tokens e = [] ->
    forall t, ~ In e (EntityResolution.index_get
                        (fst (EntityResolution.build_inverted_index names)) t).
Proof.
  intros names e Hin Htok t H.
  destruct (build_index_fold names [] []) as [_ Hi]. cbv zeta in Hi.
  apply (proj1 (Hi e t)) in H. cbn [EntityResolution.index_get In] in H.
  destruct H as [[]|[_ H]]. rewrite Htok in H. destruct H.
Qed.

Lemma tokenless_entry_not_indexed_witness :
  ~ In (EntityResolution.mkEntry (lit "C3") EntityResolution.PyNone [] [])
       (EntityResolution.index_get
          (fst (EntityResolution.build_inverted_index MoreSamples.steel_registry))
          (lit "steel")).
Proof.
  apply (tokenless_entry_not_indexed MoreSamples.steel_registry).
  - right. right. left. reflexivity.
  - reflexivity.
Defined.

(** ** entity_resolution.py: what find_matches returns *)

Lemma exact_match_Some (entries : list EntityResolution.entry) (q : pystr)
      (c : EntityResolution.candidate) :
  EntityResolution.exact_match entries q = Some c ->
  exists e, In e entries /\ EntityResolution.e_norm e = q
            /\ c = (EntityResolution.e_id e, EntityResolution.e_raw e, 1).
Proof.
  induction entries as [|e0 r IH]; [discriminate|].
  cbn [EntityResolution.exact_match].
  destruct (PyStr.eqb (EntityResolution.e_norm e0) q) eqn:E.
  - intro H. injection H as <-. apply eqb_eq in E.
    exists e0. split; [now left|]. now split.
  - intro H. destruct (IH H) as (e & Hin & He & Hc).
    exists e. split; [now right|]. now split.
Qed.

Lemma insert_desc_In (x y : EntityResolution.candidate) (l : list EntityResolution.candidate) :
  In y (EntityResolution.insert_desc x l) <-> y = x \/ In y l.
Proof.
  induction l as [|z t IH]; cbn [EntityResolution.insert_desc].
  - cbn. intuition.
  - destruct (Qltb (snd x) (snd z)); cbn [In]; [rewrite IH|]; intuition.
Qed.

Lemma insert_desc_perm (x : EntityResolution.candidate) (l : list EntityResolution.candidate) :
  Permutation (x :: l) (EntityResolution.insert_desc x l).
Proof.
  induction l as [|z t IH]; cbn [EntityResolution.insert_desc]; [reflexivity|].
  destruct (Qltb (snd x) (snd z)); [|reflexivity].
  etransitivity; [apply perm_swap|]. now apply perm_skip.
Qed.

Lemma sort_desc_perm (l : list EntityResolution.candidate) :
  Permutation l (EntityResolution.sort_desc l).
Proof.
  unfold EntityResolution.sort_desc.
  induction l as [|x t IH]; cbn [fold_right]; [reflexivity|].
  etransitivity; [|apply insert_desc_perm]. now apply perm_skip.
Qed.

Lemma insert_desc_sorted (x : EntityResolution.candidate) (l : list EntityResolution.candidate) :
  StronglySorted (fun a b => snd b <= snd a) l ->
  StronglySorted (fun a b => snd b <= snd a) (EntityResolution.insert_desc x l).
Proof.
  induction 1 as [|z t Ht IH Hz]; cbn [EntityResolution.insert_desc].
  - constructor; constructor.
  - destruct (Qltb (snd x) (snd z)) eqn:E.
    + apply Qltb_lt in E. constructor; [exact IH|].
      apply Forall_forall. intros a Ha. apply insert_desc_In in Ha.
      destruct Ha as [->|Ha]; [now apply Qlt_le_weak|].
      rewrite Forall_forall in Hz. now apply Hz.
    + apply Qltb_ge in E. constructor; [now constructor|].
      constructor; [exact E|]. eapply Forall_impl; [|exact Hz].
      intros a Ha. cbv beta in *. now apply Qle_trans with (snd z).
Qed.

Lemma sort_desc_sorted (l : list EntityResolution.candidate) :
  StronglySorted (fun a b => snd b <= snd a) (EntityResolution.sort_desc l).
Proof.
  unfold EntityResolution.sort_desc.
  induction l as [|x t IH]; cbn [fold_right];
    [constructor | now apply insert_desc_sorted].
Qed.

Lemma firstn_sorted {A : Type} (R : A -> A -> Prop) (l : list A) (n : nat) :
  StronglySorted R l -> StronglySorted R (firstn n l).
Proof.
  intro H. revert n. induction H as [|x t Ht IH Hx]; intro n.
  - rewrite firstn_nil. constructor.
  - destruct n as [|n]; cbn [firstn]; [constructor|].
    constructor; [apply IH|]. apply Forall_forall. intros y Hy.
    rewrite Forall_forall in Hx. apply Hx.
    rewrite <- (firstn_skipn n t). apply in_or_app. now left.
Qed.

Lemma slice_to_firstn (top_k : Z) (l : list EntityResolution.candidate) :
  exists n, EntityResolution.slice_to top_k l = firstn n l
            /\ ((0 <= top_k)%Z -> n = Z.to_nat top_k).
Proof.
  unfold EntityResolution.slice_to. destruct (0 <=? top_k)%Z eqn:E.
  - eexists. split; [reflexivity|]. reflexivity.
  - eexists. split; [reflexivity|]. intro H. apply Z.leb_gt in E. lia.
Qed.

Lemma NoDup_snoc {A : Type} (l : list A) (x : A) :
  NoDup l -> ~ In x l -> NoDup (l ++ [x]).
Proof.
  intros Hl Hx. apply (Permutation_NoDup (Permutation_cons_append l x)).
  now constructor.
Qed.

Lemma seen_In (eid : pystr) (cs : list (pystr * EntityResolution.entry * Q)) :
  EntityResolution.seen eid cs = true <-> In eid (map (fun c => fst (fst c)) cs).
Proof.
  unfold EntityResolution.seen. rewrite existsb_exists, in_map_iff. split.
  - intros (c & Hc & E). apply eqb_eq in E. now exists c.
  - intros (c & E & Hc). exists c. split; [exact Hc | now apply eqb_eq].
Qed.

Section GatherFacts.

Variable ix : EntityResolution.index.
Variable q : list pystr.

Local Abbreviation good :=
  (fun c : pystr * EntityResolution.entry * Q =>
     fst (fst c) = EntityResolution.e_id (snd (fst c))
     /\ snd c = EntityResolution.jaccard_similarity q
                  (EntityResolution.e_tokens (snd (fst c)))
     /\ exists token, In token q
                      /\ In (snd (fst c)) (EntityResolution.index_get ix token)).

Local Abbreviation inv :=
  (fun l : list (pystr * EntityResolution.entry * Q) =>
     Forall good l /\ NoDup (map (fun c => fst (fst c)) l)).

Lemma score_entry_inv (token : pystr) (e : EntityResolution.entry)
      (st : EntityResolution.scored) :
  In token q -> In e (EntityResolution.index_get ix token) ->
  inv (fst st) -> inv (fst (EntityResolution.score_entry q st e)).
Proof.
  intros Ht He [Hg Hn]. unfold EntityResolution.score_entry.
  destruct (EntityResolution.seen (EntityResolution.e_id e) (fst st)) eqn:Es.
  - now split.
  - cbn [fst]. split.
    + apply Forall_app. split; [exact Hg|]. constructor; [|constructor].
      cbn [fst snd]. split; [reflexivity|]. split; [reflexivity|].
      now exists token.
    + rewrite map_app. cbn [map fst]. apply NoDup_snoc; [exact Hn|].
      intro Hin. apply seen_In in Hin. congruence.
Qed.

Lemma score_entries_inv (token : pystr) (es : list EntityResolution.entry)
      (st : EntityResolution.scored) :
  In token q ->
  (forall e, In e es -> In e (EntityResolution.index_get ix token)) ->
  inv (fst st) -> inv (fst (fold_left (EntityResolution.score_entry q) es st)).
Proof.
  intros Ht. revert st. induction es as [|e es IH]; intros st Hes Hst;
    cbn [fold_left]; [exact Hst|].
  apply IH.
  - intros e' He'. apply Hes. now right.
  - apply (score_entry_inv token); [exact Ht | apply Hes; now left | exact Hst].
Qed.

Lemma gather_tokens_inv (toks : list pystr) (st : EntityResolution.scored) :
  (forall t, In t toks -> In t q) ->
  inv (fst st) ->
  inv (fst (fold_left
              (fun st token =>
                 fold_left (EntityResolution.score_entry q)
                           (EntityResolution.index_get ix token) st)
              toks st)).
Proof.
  revert st. induction toks as [|t toks IH]; intros st Hsub Hst;
    cbn [fold_left]; [exact Hst|].
  apply IH.
  - intros t' Ht'. apply Hsub. now right.
  - apply (score_entries_inv t); [apply Hsub; now left | auto | exact Hst].
Qed.

Lemma gather_inv : inv (fst (EntityResolution.gather ix q)).
Proof.
  unfold EntityResolution.gather. apply gather_tokens_inv; [auto|].
  cbn. split; constructor.
Qed.

End GatherFacts.

Lemma NoDup_map_filter {A B : Type} (g : A -> B) (f : A -> bool) (l : list A) :
  NoDup (map g l) -> NoDup (map g (filter f l)).
Proof.
  induction l as [|x t IH]; cbn [map filter]; intro H; [constructor|].
  inversion H as [|? ? Hx Ht]; subst.
  destruct (f x); cbn [map]; [|now apply IH].
  constructor; [|now apply IH].
  intro Hin. apply Hx. apply in_map_iff in Hin. destruct Hin as (y & E & Hy).
  apply filter_In in Hy. apply in_map_iff. exists y. tauto.
Qed.

Lemma NoDup_firstn {A : Type} (l : list A) (n : nat) : NoDup l -> NoDup (firstn n l).
Proof.
  intro H. revert n. induction H as [|x t Hx Ht IH]; intro n.
  - rewrite firstn_nil. constructor.
  - destruct n as [|n]; cbn [firstn]; constructor; [|apply IH].
    intro Hin. apply Hx. rewrite <- (firstn_skipn n t). apply in_or_app. now left.
Qed.

(** The candidates of the fuzzy path, before sorting: every one comes
    from an entry of the index, and their ids are pairwise distinct. *)
Lemma fuzzy_results (ix : EntityResolution.index) (q : list pystr) (threshold : Q) :
  let results :=
    map (fun c => (fst (fst c), EntityResolution.e_raw (snd (fst c)), snd c))
        (filter (fun c => Qle_bool threshold (snd c))
                (fst (EntityResolution.gather ix q))) in
  (forall c, In c results ->
     exists e token,
       In token q /\ In e (EntityResolution.index_get ix token)
       /\ c = (EntityResolution.e_id e, EntityResolution.e_raw e,
               EntityResolution.jaccard_similarity q (EntityResolution.e_tokens e))
       /\ threshold <= snd c)
  /\ NoDup (map (fun c : EntityResolution.candidate => fst (fst c)) results).
Proof.
  intro results. subst results. destruct (gather_inv ix q) as [Hg Hn]. split.
  - intros c Hc. apply in_map_iff in Hc. destruct Hc as (x & <- & Hx).
    apply filter_In in Hx. destruct Hx as [Hx Hth].
    rewrite Forall_forall in Hg. destruct (Hg x Hx) as (Hid & Hsc & token & Ht & He).
    exists (snd (fst x)), token. split; [exact Ht|]. split; [exact He|].
    cbn [snd]. split; [now rewrite Hid, Hsc | now apply Qle_bool_iff].
  - rewrite map_map. cbn [fst].
    now apply (NoDup_map_filter (fun c : pystr * EntityResolution.entry * Q =>
                                   fst (fst c))).
Qed.

Lemma find_matches_candidates_aux :
  forall query ix entries threshold top_k c,
    In c (EntityResolution.find_matches query ix entries threshold top_k) ->
    let norm := EntityResolution.normalise_name query in
    let q := EntityResolution.tokenise norm in
    (exists e, In e entries /\ EntityResolution.e_norm e = norm
               /\ c = (EntityResolution.e_id e, EntityResolution.e_raw e, 1))
    \/ (EntityResolution.exact_match entries norm = None
        /\ exists e token,
            In token q /\ In e (EntityResolution.index_get ix token)
            /\ c = (EntityResolution.e_id e, EntityResolution.e_raw e,
                    EntityResolution.jaccard_similarity q (EntityResolution.e_tokens e))
            /\ threshold <= snd c).
Proof.
  intros query ix entries threshold top_k c Hc norm q.
  unfold EntityResolution.find_matches, EntityResolution.find_matches_counted in Hc.
  fold norm in Hc. fold q in Hc.
  destruct q as [|t0 q'] eqn:Eq; [destruct Hc|]. rewrite <- Eq in *.
  destruct (EntityResolution.exact_match entries norm) as [c0|] eqn:Ex.
  - left. cbn [fst In] in Hc. destruct Hc as [<-|[]].
    now apply exact_match_Some.
  - right. split; [reflexivity|]. cbn [fst] in Hc.
    destruct (slice_to_firstn top_k
                (EntityResolution.sort_desc
                   (map (fun c => (fst (fst c), EntityResolution.e_raw (snd (fst c)), snd c))
                        (filter (fun c => Qle_bool threshold (snd c))
                                (fst (EntityResolution.gather ix q))))))
      as (n & En & _).
    rewrite En in Hc.
    assert (Hin : In c (EntityResolution.sort_desc
                   (map (fun c => (fst (fst c), EntityResolution.e_raw (snd (fst c)), snd c))
                        (filter (fun c => Qle_bool threshold (snd c))
                                (fst (EntityResolution.gather ix q)))))).
    { rewrite <- (firstn_skipn n). apply in_or_app. left. exact Hc. }
    apply (Permutation_in _ (Permutation_sym (sort_desc_perm _))) in Hin.
    now apply (proj1 (fuzzy_results ix q threshold)).
Qed.

(** X23: every candidate that [find_matches] returns is either the
    exact match (an entry whose normalised name equals the query's, with
    score 1) or, when there is no exact match, an entry found in the index
    under one of the query's tokens, reported with its own id and raw
    name, scored by the Jaccard similarity of the two token sets, that
    score being at least the threshold. *)
Theorem find_matches_candidates :
  forall query ix entries threshold top_k c,
    In c (EntityResolution.find_matches query ix entries threshold top_k) ->
    let norm := EntityResolution.normalise_name query in
    let q := EntityResolution.tokenise norm in
    (exists e, In e entries /\ EntityResolution.e_norm e = norm
               /\ c = (EntityResolution.e_id e, EntityResolution.e_raw e, 1))
    \/ (EntityResolution.exact_match entries norm = None
        /\ exists e token,
            In token q /\ In e (EntityResolution.index_get ix token)
            /\ c = (EntityResolution.e_id e, EntityResolution.e_raw e,
                    EntityResolution.jaccard_similarity q (EntityResolution.e_tokens e))
            /\ threshold <= snd c).
Proof.
  intros query ix entries threshold top_k c Hc.
  exact (find_matches_candidates_aux query ix entries threshold top_k c Hc).
Qed.

Lemma find_matches_candidates_witness :
  let c := (lit "C2", EntityResolution.PyString (lit "Bharat Steel Works"), 2 # 3) in
  (exists e,
      In e (snd (EntityResolution.build_inverted_index MoreSamples.steel_registry))
      /\ EntityResolution.e_norm e
         = EntityResolution.normalise_name (EntityResolution.PyString (lit "Bharat Steel"))
      /\ c = (EntityResolution.e_id e, EntityResolution.e_raw e, 1))
  \/ (EntityResolution.exact_match
        (snd (EntityResolution.build_inverted_index MoreSamples.steel_registry))
        (EntityResolution.normalise_name (EntityResolution.PyString (lit "Bharat Steel")))
      = None
      /\ exists e token,
          In token (EntityResolution.tokenise
                      (EntityResolution.normalise_name
                         (EntityResolution.PyString (lit "Bharat Steel"))))
          /\ In e (EntityResolution.index_get
                     (fst (EntityResolution.build_inverted_index
                             MoreSamples.steel_registry)) token)
          /\ c = (EntityResolution.e_id e, EntityResolution.e_raw e,
                  EntityResolution.jaccard_similarity
                    (EntityResolution.tokenise
                       (EntityResolution.normalise_name
                          (EntityResolution.PyString (lit "Bharat Steel"))))
                    (EntityResolution.e_tokens e))
          /\ EntityResolution.MATCH_THRESHOLD <= snd c).
Proof.
  apply (find_matches_candidates
           (EntityResolution.PyString (lit "Bharat Steel"))
           (fst (EntityResolution.build_inverted_index MoreSamples.steel_registry))
           (snd (EntityResolution.build_inverted_index MoreSamples.steel_registry))
           EntityResolution.MATCH_THRESHOLD 5).
  vm_compute. left. reflexivity.
Defined.

(** X24: the list returned by [find_matches] is ordered by score, best
    first; every score lies between 0 and 1; and for a top_k that is not
    negative the list has at most max(1, top_k) candidates (an exact match
    is returned even when top_k is 0). *)
Theorem find_matches_sorted_and_bounded :
  forall query ix entries threshold top_k,
    let r := EntityResolution.find_matches query ix entries threshold top_k in
    StronglySorted (fun a b : EntityResolution.candidate => snd b <= snd a) r
    /\ Forall (fun c : EntityResolution.candidate => 0 <= snd c /\ snd c <= 1) r
    /\ ((0 <= top_k)%Z -> (length r <= Z.to_nat (Z.max 1 top_k))%nat).
Proof.
  intros query ix entries threshold top_k r.
  assert (Hscore : Forall (fun c : EntityResolution.candidate =>
                             0 <= snd c /\ snd c <= 1) r).
  { apply Forall_forall. intros c Hc.
    destruct (find_matches_candidates_aux query ix entries threshold top_k c Hc)
      as [(e & _ & _ & ->)|(_ & e & token & _ & _ & -> & _)]; cbn [snd].
    - split; discriminate.
    - apply jaccard_range. }
  split; [|split; [exact Hscore|]].
  - subst r. unfold EntityResolution.find_matches,
      EntityResolution.find_matches_counted.
    destruct (EntityResolution.tokenise _) as [|t0 q']; [constructor|].
    destruct (EntityResolution.exact_match _ _).
    + cbn [fst]. constructor; constructor.
    + cbn [fst].
      match goal with |- context [EntityResolution.slice_to _ ?l] =>
        destruct (slice_to_firstn top_k l) as (n & -> & _) end.
      apply firstn_sorted, sort_desc_sorted.
  - intro Hk. subst r. unfold EntityResolution.find_matches,
      EntityResolution.find_matches_counted.
    destruct (EntityResolution.tokenise _) as [|t0 q']; [cbn; lia|].
    destruct (EntityResolution.exact_match _ _).
    + cbn [fst length]. lia.
    + cbn [fst].
      match goal with |- context [EntityResolution.slice_to _ ?l] =>
        destruct (slice_to_firstn top_k l) as (n & -> & Hn) end.
      rewrite (Hn Hk). pose proof (firstn_le_length (Z.to_nat top_k)
        (EntityResolution.sort_desc
           (map (fun c => (fst (fst c), EntityResolution.e_raw (snd (fst c)), snd c))
              (filter (fun c => Qle_bool threshold (snd c))
                 (fst (EntityResolution.gather ix (t0 :: q'))))))).
      rewrite length_firstn. lia.
Qed.

(** X25: no entity id occurs twice in the list returned by
    [find_matches], even when the index lists an entry under several of
    the query's tokens. *)
Theorem find_matches_ids_distinct :
  forall query ix entries threshold top_k,
    NoDup (map (fun c : EntityResolution.candidate => fst (fst c))
               (EntityResolution.find_matches query ix entries threshold top_k)).
Proof.
  intros query ix entries threshold top_k.
  unfold EntityResolution.find_matches, EntityResolution.find_matches_counted.
  destruct (EntityResolution.tokenise _) as [|t0 q']; [constructor|].
  destruct (EntityResolution.exact_match _ _).
  - cbn [fst map]. constructor; [intros [] | constructor].
  - cbn [fst].
    match goal with |- context [EntityResolution.slice_to _ ?l] =>
      destruct (slice_to_firstn top_k l) as (n & -> & _) end.
    rewrite <- firstn_map. apply NoDup_firstn.
    eapply Permutation_NoDup.
    + apply Permutation_map. apply sort_desc_perm.
    + apply (proj2 (fuzzy_results ix (t0 :: q') threshold)).
Qed.

(** ** company_risk_scorer.py: what the address graph holds *)

Lemma pairs_length (l : list pystr) :
  (2 * length (CompanyRiskScorer.pairs l) = length l * (length l - 1))%nat.
Proof.
  induction l as [|a t IH]; [reflexivity|].
  cbn [CompanyRiskScorer.pairs length]. rewrite length_app, length_map.
  destruct t as [|b t']; [reflexivity|].
  cbn [length] in *. nia.
Qed.

(** X26: every edge of the address graph joins the CINs of two rows of
    the company table that have the same address key, and both ends are
    nodes of the graph; a cluster of n rows (2 <= n <= 50) adds
    n * (n - 1) / 2 edges. *)
Theorem address_graph_edges_join_same_key :
  forall (address : Type) (normalise_address : address -> pystr)
         (df : list (CompanyRiskScorer.company address)),
    let G := CompanyRiskScorer.address_graph address normalise_address df in
    let key_of := CompanyRiskScorer.addr_key address normalise_address in
    (forall a b,
        In (a, b) (CompanyRiskScorer.edges G) ->
        In a (CompanyRiskScorer.nodes G) /\ In b (CompanyRiskScorer.nodes G)
        /\ exists c1 c2,
            In c1 df /\ In c2 df
            /\ CompanyRiskScorer.CIN c1 = a /\ CompanyRiskScorer.CIN c2 = b
            /\ key_of c1 = key_of c2)
    /\ (forall cins,
           (2 <= length cins <= 50)%nat ->
           (2 * length (CompanyRiskScorer.cluster_edges cins)
            = length cins * (length cins - 1))%nat).
Proof.
  intros address na df G key_of. split.
  - intros a b Hab. subst G. apply address_graph_edges in Hab.
    destruct Hab as (key & _ & Hin). apply pairs_In in Hin.
    destruct Hin as (l1 & l2 & l3 & E).
    assert (Hmem : forall x,
               In x (CompanyRiskScorer.members address na df key) ->
               exists c, In c df /\ CompanyRiskScorer.CIN c = x /\ key_of c = key).
    { intros x Hx. unfold CompanyRiskScorer.members in Hx.
      apply in_map_iff in Hx. destruct Hx as (c & Hc & Hf).
      apply filter_In in Hf. destruct Hf as [Hf Hk]. apply eqb_eq in Hk.
      now exists c. }
    destruct (Hmem a) as (c1 & H1 & Ha & K1).
    { rewrite E. apply in_or_app. right. now left. }
    destruct (Hmem b) as (c2 & H2 & Hb & K2).
    { rewrite E. apply in_or_app. right. right. apply in_or_app. right. now left. }
    cbn [CompanyRiskScorer.address_graph CompanyRiskScorer.nodes].
    split; [rewrite <- Ha; now apply in_map|].
    split; [rewrite <- Hb; now apply in_map|].
    exists c1, c2. repeat split; try assumption. congruence.
  - intros cins [H2 H50]. unfold CompanyRiskScorer.cluster_edges.
    replace (1 <? length cins)%nat with true by (symmetry; apply Nat.ltb_lt; lia).
    replace (length cins <=? 50)%nat with true by (symmetry; apply Nat.leb_le; lia).
    cbn [andb]. apply pairs_length.
Qed.

Lemma address_graph_edges_join_same_key_witness :
  In (lit "U001") (CompanyRiskScorer.nodes
       (CompanyRiskScorer.address_graph pystr (fun a => a) Samples.three_at_one_address))
  /\ In (lit "U002") (CompanyRiskScorer.nodes
       (CompanyRiskScorer.address_graph pystr (fun a => a) Samples.three_at_one_address))
  /\ exists c1 c2,
      In c1 Samples.three_at_one_address /\ In c2 Samples.three_at_one_address
      /\ CompanyRiskScorer.CIN c1 = lit "U001" /\ CompanyRiskScorer.CIN c2 = lit "U002"
      /\ CompanyRiskScorer.addr_key pystr (fun a => a) c1
         = CompanyRiskScorer.addr_key pystr (fun a => a) c2.
Proof.
  destruct (address_graph_edges_join_same_key pystr (fun a => a)
              Samples.three_at_one_address) as [H _].
  apply (H (lit "U001") (lit "U002")).
  vm_compute. left. reflexivity.
Defined.

(** ** Which scores a tender can reach *)

(** X27: a batch row whose flags are 0 or 1, with single_bidder and
    zero_bidders not both set (they test the same bidder count against 1
    and 0) and an anomaly score of at most 1, never scores above 84.55:
    the score 100 is out of reach on the batch pipeline. *)
Theorem batch_score_at_most_84_55 :
  forall r : MlModel.row,
    (forall k, MlModel.flags r k = 0%Z \/ MlModel.flags r k = 1%Z) ->
    (MlModel.flags r MlModel.single_bidder = 0%Z
     \/ MlModel.flags r MlModel.zero_bidders = 0%Z) ->
    MlModel.anomaly_score r <= 1 ->
    fst (MlModel.compute_risk_score r) <= 8455 # 100.
Proof.
  intros r Hf Hex Ha. cbn [MlModel.compute_risk_score fst].
  unfold MlModel.risk_score.
  pose proof (Hf MlModel.single_bidder). pose proof (Hf MlModel.zero_bidders).
  pose proof (Hf MlModel.short_window). pose proof (Hf MlModel.non_open).
  pose proof (Hf MlModel.high_value). pose proof (Hf MlModel.buyer_concentration).
  pose proof (Hf MlModel.round_amount). pose proof (Hf MlModel.ml_anomaly).
  assert (Hz : (0 <= MlModel.rule_score r <= 90)%Z)
    by (rewrite batch_rule_score; cbv zeta; lia).
  destruct Hz as [Hz0 Hz1]. rewrite Zle_Qle in Hz0, Hz1.
  change (inject_Z 0) with 0 in Hz0. change (inject_Z 90) with 90 in Hz1.
  change (inject_Z MlModel.max_rule) with 110.
  set (raw := inject_Z (MlModel.rule_score r) / 110 * 85 + MlModel.anomaly_score r * 15).
  assert (Hraw : raw <= 8455 # 100).
  { unfold raw, Qdiv. change (/ 110) with (1 # 110). lra. }
  destruct (clip_between 0 100 raw) as [L U]; [discriminate|].
  assert (Hc : clip 0 100 raw <= 8455 # 100).
  { unfold clip. apply Qle_trans with (Qmax raw 0); [apply Q.le_min_l|].
    apply Q.max_lub; [exact Hraw | discriminate]. }
  destruct (round2_le_hundredths (clip 0 100 raw) 0 8455) as [_ H8].
  - change (inject_Z 0) with 0. lra.
  - change (inject_Z 8455) with 8455. lra.
  - exact H8.
Qed.

Lemma batch_score_at_most_84_55_witness :
  fst (MlModel.compute_risk_score Samples.row_scoring_60) <= 8455 # 100.
Proof.
  apply (batch_score_at_most_84_55 Samples.row_scoring_60).
  - intro k. destruct k; cbn; auto.
  - right. reflexivity.
  - cbn. discriminate.
Defined.

(** X28: on the single-submission path a tender can only be in tier
    High when its bidder count is 1 or 0: the five other flags together
    weigh 50 of 95, which scores 44.74. *)
Theorem single_high_needs_bidder_flag :
  forall pc db amount n d m c b,
    snd (RiskEngine.compute_rule_flags pc db amount n d m c b) = RiskEngine.High ->
    n == 1 \/ n == 0.
Proof.
  intros pc db amount n d m c b H.
  destruct (Qeq_bool n 1) eqn:E1; [left; now apply Qeq_bool_iff|].
  destruct (Qeq_bool n 0) eqn:E0; [right; now apply Qeq_bool_iff|].
  exfalso. cbn [RiskEngine.compute_rule_flags snd] in H.
  set (f := RiskEngine.compute_flags pc db amount n d m c b) in *.
  assert (Hbin : forall k, f k = 0%Z \/ f k = 1%Z)
    by (intro k; apply single_flags_binary).
  assert (Hs : f RiskEngine.single_bidder = 0%Z)
    by (subst f; cbn [RiskEngine.compute_flags]; now rewrite E1).
  assert (Hzb : f RiskEngine.zero_bidders = 0%Z)
    by (subst f; cbn [RiskEngine.compute_flags]; now rewrite E0).
  assert (Hws : (0 <= RiskEngine.weighted_sum f <= 50)%Z).
  { rewrite single_weighted_sum, Hs, Hzb.
    pose proof (Hbin RiskEngine.short_window). pose proof (Hbin RiskEngine.non_open).
    pose proof (Hbin RiskEngine.high_value).
    pose proof (Hbin RiskEngine.buyer_concentration).
    pose proof (Hbin RiskEngine.round_amount). lia. }
  destruct Hws as [H0 H50]. rewrite Zle_Qle in H0, H50.
  change (inject_Z 0) with 0 in H0. change (inject_Z 50) with 50 in H50.
  assert (Hsc : RiskEngine.score_of f <= 4474 # 100).
  { unfold RiskEngine.score_of. change (inject_Z RiskEngine.max_weight) with 95.
    match goal with |- round2 ?x <= _ =>
      destruct (round2_le_hundredths x 0 4474) as [_ U] end.
    - change (inject_Z 0) with 0. unfold Qdiv. change (/ 95) with (1 # 95). lra.
    - change (inject_Z 4474) with 4474. unfold Qdiv. change (/ 95) with (1 # 95). lra.
    - exact U. }
  unfold RiskEngine.tier_of in H.
  destruct (Qle_bool 60 (RiskEngine.score_of f)) eqn:E60.
  - apply Qle_bool_iff in E60. lra.
  - destruct (Qle_bool 30 (RiskEngine.score_of f)); discriminate.
Qed.

Lemma single_high_needs_bidder_flag_witness :
  (1 : Q) == 1 \/ (1 : Q) == 0.
Proof.
  apply (single_high_needs_bidder_flag MoreSamples.percentile_100
           MoreSamples.roads_table 200000 1 1 (lit "Limited") (lit "Roads") (lit "PWD")).
  vm_compute. reflexivity.
Defined.

Lemma find_matches_sorted_and_bounded_witness :
  (length (EntityResolution.find_matches
             (EntityResolution.PyString (lit "Steel"))
             (fst (EntityResolution.build_inverted_index MoreSamples.steel_registry))
             (snd (EntityResolution.build_inverted_index MoreSamples.steel_registry))
             (1 # 10) 1)
   <= Z.to_nat (Z.max 1 1))%nat.
Proof.
  destruct (find_matches_sorted_and_bounded
              (EntityResolution.PyString (lit "Steel"))
              (fst (EntityResolution.build_inverted_index MoreSamples.steel_registry))
              (snd (EntityResolution.build_inverted_index MoreSamples.steel_registry))
              (1 # 10) 1) as (_ & _ & H).
  apply H. lia.
Defined.
